(** * import_export_tool.py: telemetry export / import

    A shallow embedding of [src/import_export_tool.py] and the properties
    of its type codec, retry policy, windowed export loop and importer.

    Conventions.
    - Python [int] is [Z] (unbounded); [str] is [string]; case mapping
      and whitespace are those of the ASCII range.
    - A [dict] whose iteration order is observable is an association
      list in insertion order.
    - Library calls that may raise return a [result]; program fragments
      that touch the remote service or the output file run in the monad
      [M]: from a state of the remote service to an outcome, the next
      remote state and the events performed, in chronological order.
    - Python [float] values are kept abstract (the class [PythonLib]
      carries their type, parser and printer): binary64 rounding is not
      part of this development. *)

From Stdlib Require Import ZArith List String Ascii Bool Lia Sorted.
From Stdlib Require Import DecimalString DecimalZ DecimalPos.
Import ListNotations.

Set Warnings "-register-all".

Open Scope string_scope.
Open Scope Z_scope.

(* ===================================================================== *)
(** ** Exceptions *)
(* ===================================================================== *)

(** The exceptions that occur in the program and its libraries.  Every one
    of them derives from Python's [Exception]. *)
Inductive exn : Type :=
| ValueError
| JSONDecodeError        (* json.JSONDecodeError, a subclass of ValueError *)
| TypeError
| RecursionError
| ApiException           (* tb_rest_client.rest.ApiException *)
| RetryError             (* tenacity.RetryError *)
| ZeroDivisionError
| ConnectionError.       (* any transport-level failure of the client *)

(** The classes named in [except] clauses. *)
Inductive exn_class : Type :=
| cls_Exception
| cls_ValueError
| cls_JSONDecodeError
| cls_ApiException.

Definition isinstance (e : exn) (c : exn_class) : bool :=
  match c, e with
  | cls_Exception, _ => true
  | cls_ValueError, (ValueError | JSONDecodeError) => true
  | cls_JSONDecodeError, JSONDecodeError => true
  | cls_ApiException, ApiException => true
  | _, _ => false
  end.

Inductive result (A : Type) : Type :=
| Ok (a : A)
| Raise (e : exn).
Arguments Ok {A} a.
Arguments Raise {A} e.

(* ===================================================================== *)
(** ** Strings *)
(* ===================================================================== *)

Definition ascii_lower (c : ascii) : ascii :=
  let n := nat_of_ascii c in
  if andb (Nat.leb 65 n) (Nat.leb n 90) then ascii_of_nat (n + 32) else c.

(** [str.lower()] *)
Fixpoint lower (s : string) : string :=
  match s with
  | EmptyString => EmptyString
  | String c r => String (ascii_lower c) (lower r)
  end.

(** [s.replace(a, b)] for one-character [a] and [b]. *)
Fixpoint replace (a b : ascii) (s : string) : string :=
  match s with
  | EmptyString => EmptyString
  | String c r => String (if Ascii.eqb c a then b else c) (replace a b r)
  end.

(** [sep.join(l)] *)
Fixpoint join (sep : string) (l : list string) : string :=
  match l with
  | [] => ""
  | [x] => x
  | x :: r => x ++ sep ++ join sep r
  end.

(** [s.split(sep)] for a one-character separator: never empty. *)
Fixpoint split_aux (sep : ascii) (s : string) (cur : string) : list string :=
  match s with
  | EmptyString => [cur]
  | String c r =>
      if Ascii.eqb c sep then cur :: split_aux sep r ""
      else split_aux sep r (cur ++ String c "")
  end.

Definition split (sep : ascii) (s : string) : list string := split_aux sep s "".

(* ===================================================================== *)
(** ** Python values and the library functions the program calls *)
(* ===================================================================== *)

(** The values that reach the sink: what [json.loads] can return, plus
    the scalars built by [infer_type_and_convert]. *)
Inductive PyVal (F : Type) : Type :=
| PNone
| PBool (b : bool)
| PInt (z : Z)
| PFloat (f : F)
| PStr (s : string)
| PList (l : list (PyVal F))
| PDict (d : list (string * PyVal F)).
Arguments PNone {F}.
Arguments PBool {F} b.
Arguments PInt {F} z.
Arguments PFloat {F} f.
Arguments PStr {F} s.
Arguments PList {F} l.
Arguments PDict {F} d.

(** The builtins and [json.loads].  [int_of_str] is [int(s)],
    [float_of_str] is [float(s)], [float_repr] is [repr] of a float. *)
Class PythonLib : Type := {
  pyfloat : Type;
  int_of_str : string -> result Z;
  float_of_str : string -> result pyfloat;
  float_repr : pyfloat -> string;
  json_loads : string -> result (PyVal pyfloat)
}.

Definition Value `{PythonLib} : Type := PyVal pyfloat.

(** The contract of the builtins on [str] arguments: a failed parse is a
    [ValueError]. *)
Definition raises_only {A : Type} (f : string -> result A) (c : exn_class) : Prop :=
  forall s e, f s = Raise e -> isinstance e c = true.

(* ===================================================================== *)
(** ** TypeCodec *)
(* ===================================================================== *)

Inductive TypeTag : Type := boolean | int | double | json | string_tag.

Definition tag_name (t : TypeTag) : string :=
  match t with
  | boolean => "boolean"
  | int => "int"
  | double => "double"
  | json => "json"
  | string_tag => "string"
  end.

Inductive LogLevel : Type := DEBUG | INFO | WARNING | ERROR.

(** [try: v = f(); return k(v)  except cls: pass] followed by [rest]. *)
Definition try_return {A B : Type} (call : result A) (cls : exn_class)
    (k : A -> result B) (rest : result B) : result B :=
  match call with
  | Ok a => k a
  | Raise e => if isinstance e cls then rest else Raise e
  end.

Section TypeCodec.
Context `{PythonLib}.

(** Lines 43-62: the body of the outer [try]. *)
Definition infer_body (value : string) : result (Value * TypeTag) :=
  if String.eqb (lower value) "true" then Ok (PBool true, boolean)
  else if String.eqb (lower value) "false" then Ok (PBool false, boolean)
  else
    try_return (int_of_str value) cls_ValueError
      (fun int_value => Ok (PInt int_value, int))
    (try_return (float_of_str value) cls_ValueError
      (fun float_value => Ok (PFloat float_value, double))
    (try_return (json_loads (replace "'" "034" value)) cls_JSONDecodeError
      (fun json_value => Ok (json_value, json))
    (Ok (PStr value, string_tag)))).

(** Lines 41-65.  The second component is the list of log records
    emitted (the warning of the outer handler). *)
Definition infer_type_and_convert (value : string)
  : result (Value * TypeTag) * list LogLevel :=
  match infer_body value with
  | Ok r => (Ok r, [])
  | Raise e =>
      if isinstance e cls_Exception
      then (Ok (PStr value, string_tag), [WARNING])
      else (Raise e, [])
  end.

(** The decision order in the words of the specification: first match
    wins. *)
Definition infer_spec (t : string) : Value * TypeTag :=
  if String.eqb (lower t) "true" then (PBool true, boolean)
  else if String.eqb (lower t) "false" then (PBool false, boolean)
  else match int_of_str t with
  | Ok z => (PInt z, int)
  | Raise _ =>
  match float_of_str t with
  | Ok f => (PFloat f, double)
  | Raise _ =>
  match json_loads (replace "'" "034" t) with
  | Ok j => (j, json)
  | Raise _ => (PStr t, string_tag)
  end end end.

(** Lines 134-146: reconstruction of the typed value on import.
    [None] is the [continue] of the json handler (the record is
    dropped, with an error logged). *)
Definition decode (value : string) (value_type : string)
  : result (option Value) :=
  if String.eqb value_type "boolean" then
    Ok (Some (PBool (String.eqb (lower value) "true")))
  else if String.eqb value_type "int" then
    match int_of_str value with
    | Ok z => Ok (Some (PInt z))
    | Raise e => Raise e
    end
  else if String.eqb value_type "double" then
    match float_of_str value with
    | Ok f => Ok (Some (PFloat f))
    | Raise e => Raise e
    end
  else if String.eqb value_type "json" then
    match json_loads (replace "'" "034" value) with
    | Ok j => Ok (Some j)
    | Raise e => if isinstance e cls_JSONDecodeError then Ok None else Raise e
    end
  else Ok (Some (PStr value)).
End TypeCodec.

(* ===================================================================== *)
(** ** Rendering of values in the output file *)
(* ===================================================================== *)

(** [str(z)] for an [int] of at most 4300 digits, as is every [int] that
    was parsed from text. *)
Definition str_of_int (z : Z) : string := NilZero.string_of_int (Z.to_int z).

(** [repr(s)] for a [str] of the ASCII range: single quotes unless the
    text holds a single quote and no double quote; backslash and the
    chosen quote are escaped, a control character is written as its
    escape. *)
Fixpoint contains (c : ascii) (s : string) : bool :=
  match s with
  | EmptyString => false
  | String x r => Ascii.eqb x c || contains c r
  end.

Definition hex_digit (n : nat) : ascii :=
  if Nat.ltb n 10 then ascii_of_nat (48 + n) else ascii_of_nat (87 + n).

(** The escape of a control character: [\t], [\n], [\r], or [\x] and
    two hexadecimal digits. *)
Definition control_escape (c : ascii) : string :=
  let n := nat_of_ascii c in
  if Nat.eqb n 9 then "\t"
  else if Nat.eqb n 10 then "\n"
  else if Nat.eqb n 13 then "\r"
  else String "\" (String "x" (String (hex_digit (n / 16))
                                 (String (hex_digit (n mod 16)) ""))).

Fixpoint escape (q : ascii) (s : string) : string :=
  match s with
  | EmptyString => EmptyString
  | String c r =>
      if Ascii.eqb c q || Ascii.eqb c "\"
      then String "\" (String c (escape q r))
      else if Nat.ltb (nat_of_ascii c) 32 || Nat.eqb (nat_of_ascii c) 127
      then control_escape c ++ escape q r
      else String c (escape q r)
  end.

Definition repr_of_str (s : string) : string :=
  let q := if contains "'" s && negb (contains "034" s) then "034"%char else "'"%char in
  String q (escape q s ++ String q "").

Section Rendering.
Context `{PythonLib}.

(** [repr(v)] *)
Fixpoint py_repr (v : Value) : string :=
  match v with
  | PNone => "None"
  | PBool true => "True"
  | PBool false => "False"
  | PInt z => str_of_int z
  | PFloat f => float_repr f
  | PStr s => repr_of_str s
  | PList l => "[" ++ join ", " (map py_repr l) ++ "]"
  | PDict d =>
      "{" ++ join ", " (map (fun kv => repr_of_str (fst kv) ++ ": " ++ py_repr (snd kv)) d)
          ++ "}"
  end.

(** The text [csv.writer] puts in a cell: nothing for [None], the text
    itself for a [str], [str(v)] otherwise.  Quoting of the cell is
    undone by [csv.DictReader] and is not represented. *)
Definition csv_cell (v : Value) : string :=
  match v with
  | PNone => ""
  | PStr s => s
  | _ => py_repr v
  end.
End Rendering.

(* ===================================================================== *)
(** ** Observable events, the remote client and the program monad *)
(* ===================================================================== *)

(** One point of a series as the remote service returns it. *)
Record DataPoint : Type := mkPoint { dp_ts : Z; dp_value : string }.

(** [get_timeseries] answers with a dict from key to points. *)
Definition Response : Type := list (string * list DataPoint).

Section Program.
Context `{PythonLib}.

(** What a run does to the outside world, in chronological order.  The
    constant arguments of the client calls (entity type 'DEVICE', scope
    'ANY', order 'ASC') are left out. *)
Inductive Event : Type :=
| EvLogin
| EvOpenWrite (file_name : string)
| EvWriteRow (row : list Value)
| EvClose (file_name : string)
| EvGetTenantDevice (device_name : string)
| EvGetTimeseriesKeys (entity_id : option string)
| EvGetTimeseries (entity_id : option string) (keys : string)
                  (start_ts end_ts limit : Z)
| EvSaveTelemetry (entity_id : string) (ts : Z) (key : string) (value : Value)
| EvSleep (seconds : Z)
| EvLog (level : LogLevel).

(** The remote service: each call may change the remote state [R] and
    may raise. *)
Record Client (R : Type) : Type := mkClient {
  login : R -> result unit * R;
  get_tenant_device : string -> R -> result string * R;
  get_timeseries_keys_v1 : option string -> R -> result (list string) * R;
  get_timeseries : option string -> string -> Z -> Z -> Z -> R -> result Response * R;
  save_entity_telemetry : string -> Z -> string -> Value -> R -> result unit * R
}.

Inductive outcome (A : Type) : Type :=
| Returned (a : A)
| Raised (e : exn)
| OutOfFuel.

(** The result of running a fragment: how it ended, the remote state it
    left, and what it did. *)
Record Run (R A : Type) : Type := mkRun {
  outcome_of : outcome A;
  remote_of : R;
  events_of : list Event
}.

Definition M (R A : Type) : Type := R -> Run R A.
End Program.

Arguments mkClient {_ R} _ _ _ _ _.
Arguments login {_ R} _ _.
Arguments get_tenant_device {_ R} _ _ _.
Arguments get_timeseries_keys_v1 {_ R} _ _ _.
Arguments get_timeseries {_ R} _ _ _ _ _ _ _.
Arguments save_entity_telemetry {_ R} _ _ _ _ _ _.
Arguments mkRun {_ R A} _ _ _.
Arguments outcome_of {_ R A} _.
Arguments remote_of {_ R A} _.
Arguments events_of {_ R A} _.
Arguments Returned {A} a.
Arguments Raised {A} e.
Arguments OutOfFuel {A}.

Section Monad.
Context `{PythonLib} {R : Type}.

Definition ret {A} (a : A) : M R A := fun s => mkRun (Returned a) s [].

Definition bind {A B} (m : M R A) (k : A -> M R B) : M R B :=
  fun s =>
    let r := m s in
    match outcome_of r with
    | Returned a =>
        let r' := k a (remote_of r) in
        mkRun (outcome_of r') (remote_of r') (events_of r ++ events_of r')
    | Raised e => mkRun (Raised e) (remote_of r) (events_of r)
    | OutOfFuel => mkRun OutOfFuel (remote_of r) (events_of r)
    end.

Definition raise {A} (e : exn) : M R A := fun s => mkRun (Raised e) s [].

Definition out_of_fuel {A} : M R A := fun s => mkRun OutOfFuel s [].

Definition of_result {A} (r : result A) : outcome A :=
  match r with
  | Ok a => Returned a
  | Raise e => Raised e
  end.

Definition emit (e : Event) : M R unit := fun s => mkRun (Returned tt) s [e].

Definition log (level : LogLevel) : M R unit := emit (EvLog level).

(** A call to the remote service: recorded, then performed. *)
Definition call {A} (e : Event) (f : R -> result A * R) : M R A :=
  fun s => mkRun (of_result (fst (f s))) (snd (f s)) [e].

(** A pure library result with its log records. *)
Definition lift {A} (r : result A * list LogLevel) : M R A :=
  fun s => mkRun (of_result (fst r)) s (map EvLog (snd r)).

(** [try: body  except cls as e: handler(e)] *)
Definition try_except {A} (body : M R A) (cls : exn_class) (handler : exn -> M R A)
  : M R A :=
  fun s =>
    let r := body s in
    match outcome_of r with
    | Raised e =>
        if isinstance e cls then
          let r' := handler e (remote_of r) in
          mkRun (outcome_of r') (remote_of r') (events_of r ++ events_of r')
        else r
    | _ => r
    end.

(** [with open(file_name, mode='w') as file: body]: the file is closed
    on every exit path of [body]. *)
Definition with_open_w {A} (file_name : string) (body : M R A) : M R A :=
  fun s =>
    let r := body s in
    mkRun (outcome_of r) (remote_of r)
      (EvOpenWrite file_name :: events_of r ++
       match outcome_of r with
       | OutOfFuel => []
       | _ => [EvClose file_name]
       end).

(** [for x in l: body(x)] *)
Fixpoint for_each {A} (l : list A) (body : A -> M R unit) : M R unit :=
  match l with
  | [] => ret tt
  | x :: r => bind (body x) (fun _ => for_each r body)
  end.
End Monad.

Notation "x <- m ;; k" := (bind m (fun x => k))
  (at level 100, m at next level, right associativity).
Notation "m ;;; k" := (bind m (fun _ => k))
  (at level 100, right associativity).

(* ===================================================================== *)
(** ** The program *)
(* ===================================================================== *)

(** Truth value of the [keys] argument: [None] and the empty text are
    both false. *)
Definition py_not (keys : option string) : bool :=
  match keys with
  | None => true
  | Some s => String.eqb s ""
  end.

Definition text_of (keys : option string) : string :=
  match keys with
  | None => ""
  | Some s => s
  end.

Definition header `{PythonLib} : list Value :=
  [PStr "deviceId"; PStr "key"; PStr "ts"; PStr "value"; PStr "type"].

(** [device.id.id], or [None] when the device was not resolved. *)
Definition id_value `{PythonLib} (device_id : option string) : Value :=
  match device_id with
  | Some s => PStr s
  | None => PNone
  end.

(** One row of the input file of an import, by column name. *)
Record CsvRow : Type := mkRow {
  row_deviceId : string;
  row_key : string;
  row_ts : string;
  row_value : string;
  row_type : string
}.

(** What the text-mode [open(file_name, mode='r')] of the import makes
    of the line ends inside a cell: a carriage return, together with the
    line feed that follows it if there is one, is read as one line
    feed. *)
Fixpoint universal_newlines (s : string) : string :=
  match s with
  | EmptyString => EmptyString
  | String c r =>
      if Ascii.eqb c "013" then
        match r with
        | String c' r' =>
            if Ascii.eqb c' "010" then String "010" (universal_newlines r')
            else String "010" (universal_newlines r)
        | EmptyString => String "010" EmptyString
        end
      else String c (universal_newlines r)
  end.

(** [csv.DictReader] on a file that starts with the header row of an
    export: the later rows, by column.  A file is represented by the
    cells of its rows (the quoting [csv.writer] adds is the quoting
    [csv.reader] removes); the cells are read through the newline
    translation of the text-mode [open].  Cells after the fifth are not
    looked at, an empty row is skipped.  A row of one to four cells,
    whose missing columns the reader fills with [None], is not
    represented and is left out. *)
Definition dict_reader (file : list (list string)) : list CsvRow :=
  flat_map (fun cells =>
              match map universal_newlines cells with
              | device_id :: key :: ts :: value :: type :: _ =>
                  [mkRow device_id key ts value type]
              | _ => []
              end)
           (tl file).

Section Tool.
Context `{PythonLib} {R : Type}.
Variable client : Client R.

(** [EntityId(id=..., entity_type='DEVICE')] of tb_rest_client: the
    setter of [id] refuses [None] with a [ValueError], so no entity id is
    built for a device that was not resolved.  An entity id is
    represented by its [id]. *)
Definition EntityId (id : option string) : M R (option string) :=
  match id with
  | Some _ => ret id
  | None => raise ValueError
  end.

(** Lines 29-31.  The entity id is built before the service is called. *)
Definition get_all_keys (entity_id : option string) : M R string :=
  entity <- EntityId entity_id ;;
  keys_response <- call (EvGetTimeseriesKeys entity)
                        (get_timeseries_keys_v1 client entity) ;;
  ret (join "," keys_response).

(** Lines 33-39. *)
Definition get_device_id (device_name : string) : M R (option string) :=
  try_except
    (device <- call (EvGetTenantDevice device_name)
                    (get_tenant_device client device_name) ;;
     ret (Some device))
    cls_ApiException
    (fun _ => log ERROR ;;; ret None).

(** tenacity's [@retry(stop=stop_after_attempt(n), wait=wait_fixed(d))]:
    [retry_from k] still has [k] further attempts after the next one.
    Any [Exception] is retried; when the attempts are used up the
    wrapper raises [RetryError]. *)
Fixpoint retry_from {A} (k : nat) (wait_fixed : Z) (op : M R A) : M R A :=
  try_except op cls_Exception
    (fun _ =>
       match k with
       | O => raise RetryError
       | S k' => emit (EvSleep wait_fixed) ;;; retry_from k' wait_fixed op
       end).

Definition retry {A} (stop_after_attempt : nat) (wait_fixed : Z) (op : M R A) : M R A :=
  retry_from (stop_after_attempt - 1) wait_fixed op.

(** Lines 67-76. *)
Definition fetch_timeseries (entity_id : option string) (keys : string)
    (start_ts end_ts chunk_limit : Z) : M R Response :=
  retry 3 2
    (call (EvGetTimeseries entity_id keys start_ts end_ts chunk_limit)
          (get_timeseries client entity_id keys start_ts end_ts chunk_limit)).

(** Lines 100-105: one data point becomes one row. *)
Definition write_point (device_id : option string) (key : string) (data_point : DataPoint)
  : M R unit :=
  r <- lift (infer_type_and_convert (dp_value data_point)) ;;
  emit (EvWriteRow [id_value device_id; PStr key; PInt (dp_ts data_point);
                    fst r; PStr (tag_name (snd r))]).

Definition total_fetched (response : Response) : Z :=
  fold_left (fun n kv => n + Z.of_nat (List.length (snd kv))) response 0.

(** Lines 94-110: the body of the window loop.  The entity id of line 95
    is built inside the [try], before [fetch_timeseries] is entered.
    Everything the body raises is caught by [except Exception]. *)
Definition export_window (device_id : option string) (keys : string) (chunk_limit : Z)
    (current_start_ts current_end_ts : Z) : M R unit :=
  try_except
    (entity <- EntityId device_id ;;
     timeseries_response <-
       fetch_timeseries entity keys current_start_ts current_end_ts chunk_limit ;;
     for_each timeseries_response (fun kv =>
       for_each (snd kv) (write_point device_id (fst kv))) ;;;
     if total_fetched timeseries_response >? 0 then log INFO else ret tt)
    cls_Exception
    (fun _ => log ERROR).

(** Lines 91-93 and 112: the [while] loop.  [fuel] bounds the number of
    times the body is run. *)
Fixpoint window_loop (fuel : nat) (body : Z -> Z -> M R unit)
    (time_limit_ms end_ts current_start_ts : Z) : M R unit :=
  if current_start_ts <? end_ts then
    match fuel with
    | O => out_of_fuel
    | S fuel' =>
        let current_end_ts := Z.min (current_start_ts + time_limit_ms) end_ts in
        body current_start_ts current_end_ts ;;;
        window_loop fuel' body time_limit_ms end_ts current_end_ts
    end
  else ret tt.

(** Lines 84-114: the loop over the device names; [keys] is the local
    variable that the first discovery overwrites. *)
Fixpoint export_devices (fuel : nat) (start_ts end_ts : Z) (device_names : list string)
    (keys : option string) (chunk_limit time_limit_ms : Z) : M R unit :=
  match device_names with
  | [] => ret tt
  | device_name :: rest =>
      device_id <- get_device_id device_name ;;
      log INFO ;;;
      keys' <- (if py_not keys then get_all_keys device_id else ret (text_of keys)) ;;
      window_loop fuel (export_window device_id keys' chunk_limit)
                  time_limit_ms end_ts start_ts ;;;
      log INFO ;;;
      export_devices fuel start_ts end_ts rest (Some keys') chunk_limit time_limit_ms
  end.

(** Lines 78-114. *)
Definition export_timeseries (fuel : nat) (file_name : string) (start_ts end_ts : Z)
    (device_names : string) (keys : option string) (chunk_limit time_limit : Z)
  : M R unit :=
  let time_limit_ms := time_limit * 60 * 1000 in
  with_open_w file_name
    (emit (EvWriteRow header) ;;;
     export_devices fuel start_ts end_ts (split "," device_names) keys
                    chunk_limit time_limit_ms).

(** Lines 116-118. *)
Definition save_telemetry (entity_id : string) (ts : Z) (key : string) (value : Value)
  : M R unit :=
  retry 3 2
    (call (EvSaveTelemetry entity_id ts key value)
          (save_entity_telemetry client entity_id ts key value)).

(** [{"ts": ts, "values": {key: value}}] *)
Definition Point : Type := Z * (string * Value).

(** [telemetry_data]: device id to its points, in insertion order. *)
Definition TelemetryData : Type := list (string * list Point).

Fixpoint dict_mem (k : string) (d : TelemetryData) : bool :=
  match d with
  | [] => false
  | (k', _) :: r => String.eqb k' k || dict_mem k r
  end.

(** [d[k].append(p)] *)
Fixpoint dict_append (k : string) (p : Point) (d : TelemetryData) : TelemetryData :=
  match d with
  | [] => []
  | (k', l) :: r =>
      if String.eqb k' k then (k', (l ++ [p])%list) :: r else (k', l) :: dict_append k p r
  end.

(** Lines 124-148: the loop over the rows. *)
Fixpoint read_rows (rows : list CsvRow) (telemetry_data : TelemetryData)
  : M R TelemetryData :=
  match rows with
  | [] => ret telemetry_data
  | row :: rest =>
      let device_id := row_deviceId row in
      ts <- lift (int_of_str (row_ts row), []) ;;
      let telemetry_data :=
        if dict_mem device_id telemetry_data then telemetry_data
        else (telemetry_data ++ [(device_id, [])])%list in
      value_converted <- lift (decode (row_value row) (row_type row), []) ;;
      match value_converted with
      | None => log ERROR ;;; read_rows rest telemetry_data
      | Some v =>
          read_rows rest (dict_append device_id (ts, (row_key row, v)) telemetry_data)
      end
  end.

(** Lines 152-166: the replay of one device's points; returns the
    counter. *)
Fixpoint save_points (log_interval : Z) (device_id : string) (data_points : list Point)
    (counter : Z) : M R Z :=
  match data_points with
  | [] => ret counter
  | (ts, (key, value)) :: rest =>
      saved <- try_except
                 (save_telemetry device_id ts key value ;;; ret true)
                 cls_Exception
                 (fun _ => log ERROR ;;; ret false) ;;
      if saved : bool then
        let counter := counter + 1 in
        (if log_interval =? 0 then raise ZeroDivisionError
         else if counter mod log_interval =? 0 then log INFO else ret tt) ;;;
        save_points log_interval device_id rest counter
      else save_points log_interval device_id rest counter
  end.

(** Lines 120-168.  [rows] are the data rows of the input file. *)
Definition import_timeseries (rows : list CsvRow) (log_interval : Z) : M R unit :=
  telemetry_data <- read_rows rows [] ;;
  for_each telemetry_data (fun entry =>
    counter <- save_points log_interval (fst entry) (snd entry) 0 ;;
    log INFO).

Inductive Action : Type := act_export | act_import.

Record Args : Type := mkArgs {
  action : Action;
  fileName : string;
  startTs : option Z;
  endTs : option Z;
  deviceNames : option string;
  keys_arg : option string;
  chunkLimit : Z;
  timeLimit : Z
}.

(** Truth value of an optional [int] argument. *)
Definition py_not_int (z : option Z) : bool :=
  match z with
  | None => true
  | Some n => n =? 0
  end.

(** Lines 170-184.  [input] holds the data rows of [fileName] for an
    import. *)
Definition main (fuel : nat) (args : Args) (input : list CsvRow) : M R unit :=
  try_except
    (call EvLogin (login client) ;;;
     match action args with
     | act_export =>
         if py_not_int (startTs args) || py_not_int (endTs args)
            || py_not (deviceNames args)
         then log ERROR
         else export_timeseries fuel (fileName args)
                (match startTs args with Some z => z | None => 0 end)
                (match endTs args with Some z => z | None => 0 end)
                (text_of (deviceNames args)) (keys_arg args)
                (chunkLimit args) (timeLimit args)
     | act_import => import_timeseries input 100
     end)
    cls_ApiException
    (fun _ => log ERROR).
End Tool.

(* ===================================================================== *)
(** ** A concrete library: the builtins on ASCII text *)
(* ===================================================================== *)

(** [int], [float] and [json.loads] as CPython 3.11 defines them on text
    of the ASCII range.  A float is carried as the literal that denotes
    it: [float_repr] gives that literal back, which is not what [repr]
    prints for a float (the shortest digits that round to it), so no
    statement below evaluates [float_repr].  The nesting limit of the
    json scanner ([RecursionError]) is not represented. *)
Module Python.

Definition is_space (c : ascii) : bool :=
  let n := nat_of_ascii c in
  (Nat.leb 9 n && Nat.leb n 13) || Nat.eqb n 32.

Definition is_digit (c : ascii) : bool :=
  let n := nat_of_ascii c in Nat.leb 48 n && Nat.leb n 57.

Definition digit_val (c : ascii) : Z := Z.of_nat (nat_of_ascii c - 48).

Fixpoint lstrip (s : string) : string :=
  match s with
  | String c r => if is_space c then lstrip r else s
  | EmptyString => EmptyString
  end.

Definition rev_string (s : string) : string :=
  string_of_list_ascii (rev (list_ascii_of_string s)).

(** The text without the white space that [int] and [float] ignore at
    both ends. *)
Definition strip (s : string) : string :=
  rev_string (lstrip (rev_string (lstrip s))).

(** [digit (["_"] digit)*] with its base-10 value. *)
Fixpoint digitpart (s : string) (acc : Z) (after_digit : bool) : option Z :=
  match s with
  | EmptyString => if after_digit then Some acc else None
  | String c r =>
      if is_digit c then digitpart r (10 * acc + digit_val c) true
      else if Ascii.eqb c "_" && after_digit then digitpart r acc false
      else None
  end.

Definition signed (s : string) : bool * string :=
  match s with
  | String "+" r => (false, r)
  | String "-" r => (true, r)
  | _ => (false, s)
  end.

(** The number of digits of a text; the underscores between them are not
    counted. *)
Fixpoint count_digits (s : string) : Z :=
  match s with
  | EmptyString => 0
  | String c r => (if is_digit c then 1 else 0) + count_digits r
  end.

(** [sys.get_int_max_str_digits()], by default. *)
Definition max_str_digits : Z := 4300.

(** [int(s)]: a decimal of more than [max_str_digits] digits is refused
    with a [ValueError], like a text that is no decimal. *)
Definition py_int (s : string) : result Z :=
  let (neg, digits) := signed (strip s) in
  match digitpart digits 0 false with
  | Some z =>
      if max_str_digits <? count_digits digits then Raise ValueError
      else Ok (if neg then - z else z)
  | None => Raise ValueError
  end.

(** The longest prefix that is a [digitpart], and what follows it. *)
Fixpoint span_digitpart (s : string) (after_digit : bool) : string * string :=
  match s with
  | String c r =>
      if is_digit c then
        let (d, rest) := span_digitpart r true in (String c d, rest)
      else if Ascii.eqb c "_" && after_digit then
        match r with
        | String c' _ =>
            if is_digit c' then
              let (d, rest) := span_digitpart r false in (String c d, rest)
            else (EmptyString, s)
        | EmptyString => (EmptyString, s)
        end
      else (EmptyString, s)
  | EmptyString => (EmptyString, s)
  end.

Definition is_exponent (s : string) : bool :=
  match s with
  | String c r =>
      (Ascii.eqb c "e" || Ascii.eqb c "E") &&
      match span_digitpart (snd (signed r)) false with
      | (String _ _, EmptyString) => true
      | _ => false
      end
  | EmptyString => false
  end.

Definition exponent_or_end (s : string) : bool :=
  match s with
  | EmptyString => true
  | _ => is_exponent s
  end.

(** The grammar of [float(s)] after stripping and the sign. *)
Definition is_float_body (s : string) : bool :=
  let l := lower s in
  if String.eqb l "inf" || String.eqb l "infinity" || String.eqb l "nan" then true
  else
    match span_digitpart s false with
    | (String _ _, String "." r) =>
        match span_digitpart r false with
        | (_, rest) => exponent_or_end rest
        end
    | (String _ _, rest) => exponent_or_end rest
    | (EmptyString, String "." r) =>
        match span_digitpart r false with
        | (String _ _, rest) => exponent_or_end rest
        | _ => false
        end
    | _ => false
    end.

Record FloatLit : Type := mkFloat { literal : string }.

(** [float(s)] *)
Definition py_float (s : string) : result FloatLit :=
  let t := strip s in
  if is_float_body (snd (signed t)) then Ok (mkFloat t) else Raise ValueError.

(** *** json.loads *)

Definition is_json_ws (c : ascii) : bool :=
  Ascii.eqb c " " || Ascii.eqb c "009" || Ascii.eqb c "010" || Ascii.eqb c "013".

Fixpoint skip_ws (s : string) : string :=
  match s with
  | String c r => if is_json_ws c then skip_ws r else s
  | EmptyString => EmptyString
  end.

Fixpoint take_digits (s : string) : string * string :=
  match s with
  | String c r =>
      if is_digit c then let (d, rest) := take_digits r in (String c d, rest)
      else (EmptyString, s)
  | EmptyString => (EmptyString, s)
  end.

Fixpoint digits_value (s : string) (acc : Z) : Z :=
  match s with
  | String c r => digits_value r (10 * acc + digit_val c)
  | EmptyString => acc
  end.

Definition hex_val (c : ascii) : option nat :=
  let n := nat_of_ascii c in
  if Nat.leb 48 n && Nat.leb n 57 then Some (n - 48)%nat
  else if Nat.leb 65 n && Nat.leb n 70 then Some (n - 55)%nat
  else if Nat.leb 97 n && Nat.leb n 102 then Some (n - 87)%nat
  else None.

(** UTF-8 text of a code point below 0x10000. *)
Definition utf8 (n : nat) : string :=
  if Nat.ltb n 128 then String (ascii_of_nat n) ""
  else if Nat.ltb n 2048 then
    String (ascii_of_nat (192 + n / 64)) (String (ascii_of_nat (128 + n mod 64)) "")
  else
    String (ascii_of_nat (224 + n / 4096))
      (String (ascii_of_nat (128 + (n / 64) mod 64))
        (String (ascii_of_nat (128 + n mod 64)) "")).

(** The text of a string literal after its opening quote (strict mode:
    no control character). *)
Fixpoint scanstring (s : string) : option (string * string) :=
  match s with
  | EmptyString => None
  | String "034" r => Some (EmptyString, r)
  | String "\" (String "u" (String a (String b (String c (String d r))))) =>
      match hex_val a, hex_val b, hex_val c, hex_val d, scanstring r with
      | Some x, Some y, Some z, Some t, Some (str, rest) =>
          Some (utf8 (((x * 16 + y) * 16 + z) * 16 + t) ++ str, rest)
      | _, _, _, _, _ => None
      end
  | String "\" (String e r) =>
      let unescaped :=
        if Ascii.eqb e "034" then Some "034"%char
        else if Ascii.eqb e "\" then Some "\"%char
        else if Ascii.eqb e "/" then Some "/"%char
        else if Ascii.eqb e "b" then Some "008"%char
        else if Ascii.eqb e "f" then Some "012"%char
        else if Ascii.eqb e "n" then Some "010"%char
        else if Ascii.eqb e "r" then Some "013"%char
        else if Ascii.eqb e "t" then Some "009"%char
        else None in
      match unescaped, scanstring r with
      | Some c, Some (str, rest) => Some (String c str, rest)
      | _, _ => None
      end
  | String c r =>
      if Nat.ltb (nat_of_ascii c) 32 then None
      else match scanstring r with
           | Some (str, rest) => Some (String c str, rest)
           | None => None
           end
  end.

Definition starts_with (p s : string) : option string :=
  if String.prefix p s
  then Some (String.substring (String.length p) (String.length s - String.length p) s)
  else None.

(** [NUMBER_RE]: an optional minus, then 0 or a digit string that does
    not start with 0; an optional fraction (a point and digits); an
    optional exponent (e or E, an optional sign, digits). *)
Definition scan_number (s : string) : option (PyVal FloatLit * string) :=
  let (neg, s1) := match s with String "-" r => (true, r) | _ => (false, s) end in
  let int_part :=
    match s1 with
    | String "0" r => Some ("0", r)
    | String c _ => if is_digit c then Some (take_digits s1) else None
    | EmptyString => None
    end in
  match int_part with
  | None => None
  | Some (i, r1) =>
      let (frac, r2) :=
        match r1 with
        | String "." r =>
            match take_digits r with
            | (String _ _ as d, rest) => (String "." d, rest)
            | _ => (EmptyString, r1)
            end
        | _ => (EmptyString, r1)
        end in
      let (exp, r3) :=
        match r2 with
        | String c r =>
            if Ascii.eqb c "e" || Ascii.eqb c "E" then
              let (sign, r') :=
                match r with
                | String "+" t => ("+", t)
                | String "-" t => ("-", t)
                | _ => (EmptyString, r)
                end in
              match take_digits r' with
              | (String _ _ as d, rest) => (String c (sign ++ d), rest)
              | _ => (EmptyString, r2)
              end
            else (EmptyString, r2)
        | EmptyString => (EmptyString, r2)
        end in
      let text := (if neg then "-" else "") ++ i in
      if String.eqb frac "" && String.eqb exp ""
      then Some (PInt (if neg then - digits_value i 0 else digits_value i 0), r3)
      else Some (PFloat (mkFloat (text ++ frac ++ exp)), r3)
  end.

(** [d[k] = v]: a repeated key keeps its first position. *)
Fixpoint dict_put {V} (k : string) (v : V) (d : list (string * V)) : list (string * V) :=
  match d with
  | [] => [(k, v)]
  | (k', v') :: r => if String.eqb k' k then (k', v) :: r else (k', v') :: dict_put k v r
  end.

(** [scan_once], with the loops of [JSONArray] and [JSONObject]; the
    array and object loops start after the separator and white space. *)
Fixpoint scan_once (fuel : nat) (s : string) : option (PyVal FloatLit * string) :=
  match fuel with
  | O => None
  | S f =>
      match s with
      | String "034" r =>
          match scanstring r with
          | Some (str, rest) => Some (PStr str, rest)
          | None => None
          end
      | String "{" r =>
          match skip_ws r with
          | String "}" rest => Some (PDict [], rest)
          | r' =>
              match scan_members f r' [] with
              | Some (d, rest) => Some (PDict d, rest)
              | None => None
              end
          end
      | String "[" r =>
          match skip_ws r with
          | String "]" rest => Some (PList [], rest)
          | r' =>
              match scan_elements f r' with
              | Some (l, rest) => Some (PList l, rest)
              | None => None
              end
          end
      | _ =>
          match starts_with "null" s, starts_with "true" s, starts_with "false" s with
          | Some rest, _, _ => Some (PNone, rest)
          | _, Some rest, _ => Some (PBool true, rest)
          | _, _, Some rest => Some (PBool false, rest)
          | _, _, _ =>
              match scan_number s with
              | Some r => Some r
              | None =>
                  match starts_with "NaN" s, starts_with "Infinity" s,
                        starts_with "-Infinity" s with
                  | Some rest, _, _ => Some (PFloat (mkFloat "nan"), rest)
                  | _, Some rest, _ => Some (PFloat (mkFloat "inf"), rest)
                  | _, _, Some rest => Some (PFloat (mkFloat "-inf"), rest)
                  | _, _, _ => None
                  end
              end
          end
      end
  end
with scan_elements (fuel : nat) (s : string) : option (list (PyVal FloatLit) * string) :=
  match fuel with
  | O => None
  | S f =>
      match scan_once f s with
      | Some (v, r) =>
          match skip_ws r with
          | String "]" rest => Some ([v], rest)
          | String "," r' =>
              match scan_elements f (skip_ws r') with
              | Some (l, rest) => Some (v :: l, rest)
              | None => None
              end
          | _ => None
          end
      | None => None
      end
  end
with scan_members (fuel : nat) (s : string) (acc : list (string * PyVal FloatLit))
  : option (list (string * PyVal FloatLit) * string) :=
  match fuel with
  | O => None
  | S f =>
      match s with
      | String "034" r =>
          match scanstring r with
          | Some (key, r1) =>
              match skip_ws r1 with
              | String ":" r2 =>
                  match scan_once f (skip_ws r2) with
                  | Some (v, r3) =>
                      match skip_ws r3 with
                      | String "}" rest => Some (dict_put key v acc, rest)
                      | String "," r4 => scan_members f (skip_ws r4) (dict_put key v acc)
                      | _ => None
                      end
                  | None => None
                  end
              | _ => None
              end
          | None => None
          end
      | _ => None
      end
  end.

(** [json.loads(s)] *)
Definition py_json_loads (s : string) : result (PyVal FloatLit) :=
  match scan_once (2 * String.length s + 2) (skip_ws s) with
  | Some (v, rest) =>
      match skip_ws rest with
      | EmptyString => Ok v
      | _ => Raise JSONDecodeError
      end
  | None => Raise JSONDecodeError
  end.

#[export] Instance lib : PythonLib := {|
  pyfloat := FloatLit;
  int_of_str := py_int;
  float_of_str := py_float;
  float_repr := literal;
  json_loads := py_json_loads
|}.

End Python.
Export Python.

(* ===================================================================== *)
(** ** Reading a trace *)
(* ===================================================================== *)

Section Traces.
Context `{PythonLib}.

(** The rows handed to [writer.writerow], in order. *)
Fixpoint written_rows (t : list Event) : list (list Value) :=
  match t with
  | [] => []
  | EvWriteRow row :: r => row :: written_rows r
  | _ :: r => written_rows r
  end.

(** The content of the output file, as cell texts, after the events [t]
    when it held [prior] before: opening for writing truncates. *)
Fixpoint file_after (prior : list (list string)) (t : list Event) : list (list string) :=
  match t with
  | [] => prior
  | EvOpenWrite _ :: r => file_after [] r
  | EvWriteRow row :: r => file_after (prior ++ [map csv_cell row])%list r
  | _ :: r => file_after prior r
  end.

Definition is_discovery (e : Event) : bool :=
  match e with
  | EvGetTimeseriesKeys _ => true
  | _ => false
  end.

Definition is_fetch (e : Event) : bool :=
  match e with
  | EvGetTimeseries _ _ _ _ _ => true
  | _ => false
  end.

Definition is_row (e : Event) : bool :=
  match e with
  | EvWriteRow _ => true
  | _ => false
  end.

Definition is_open (e : Event) : bool :=
  match e with
  | EvOpenWrite _ => true
  | _ => false
  end.

Definition is_log (e : Event) : bool :=
  match e with
  | EvLog _ => true
  | _ => false
  end.

(** Events that reach the remote service. *)
Definition is_remote (e : Event) : bool :=
  match e with
  | EvLogin | EvGetTenantDevice _ | EvGetTimeseriesKeys _
  | EvGetTimeseries _ _ _ _ _ | EvSaveTelemetry _ _ _ _ => true
  | _ => false
  end.

(** The key text of a fetch. *)
Definition fetch_keys (e : Event) : option string :=
  match e with
  | EvGetTimeseries _ keys _ _ _ => Some keys
  | _ => None
  end.

(** The timestamp of a data row written for [device] and [key], if
    [row] is one: a data row is [[device_id, key, ts, value, type]]. *)
Definition device_row_ts (device key : string) (row : list Value) : list Z :=
  match row with
  | [PStr d; PStr k; PInt ts; _; _] =>
      if String.eqb d device && String.eqb k key then [ts] else []
  | _ => []
  end.

(** The timestamps of the data rows written for [device] and [key], in
    order. *)
Definition ts_of_device_key (device key : string) (rows : list (list Value)) : list Z :=
  flat_map (device_row_ts device key) rows.

Definition any_row_ts (row : list Value) : list Z :=
  match row with
  | [_; _; PInt ts; _; _] => [ts]
  | _ => []
  end.

(** The timestamps of all data rows written, in order. *)
Definition ts_of_rows (rows : list (list Value)) : list Z :=
  flat_map any_row_ts rows.
End Traces.

(** The value of the decimal digits [d] read after the digits of value
    [acc]. *)
Fixpoint decimal_value (d : Decimal.uint) (acc : Z) : Z :=
  match d with
  | Decimal.Nil => acc
  | Decimal.D0 l => decimal_value l (10 * acc + Python.digit_val "0")
  | Decimal.D1 l => decimal_value l (10 * acc + Python.digit_val "1")
  | Decimal.D2 l => decimal_value l (10 * acc + Python.digit_val "2")
  | Decimal.D3 l => decimal_value l (10 * acc + Python.digit_val "3")
  | Decimal.D4 l => decimal_value l (10 * acc + Python.digit_val "4")
  | Decimal.D5 l => decimal_value l (10 * acc + Python.digit_val "5")
  | Decimal.D6 l => decimal_value l (10 * acc + Python.digit_val "6")
  | Decimal.D7 l => decimal_value l (10 * acc + Python.digit_val "7")
  | Decimal.D8 l => decimal_value l (10 * acc + Python.digit_val "8")
  | Decimal.D9 l => decimal_value l (10 * acc + Python.digit_val "9")
  end.

(** The decimal digit [c] in front of the digits [d]. *)
Definition digit_cons (c : ascii) (d : Decimal.uint) : Decimal.uint :=
  match (nat_of_ascii c - 48)%nat with
  | 0%nat => Decimal.D0 d
  | 1%nat => Decimal.D1 d
  | 2%nat => Decimal.D2 d
  | 3%nat => Decimal.D3 d
  | 4%nat => Decimal.D4 d
  | 5%nat => Decimal.D5 d
  | 6%nat => Decimal.D6 d
  | 7%nat => Decimal.D7 d
  | 8%nat => Decimal.D8 d
  | _ => Decimal.D9 d
  end.

(** The digits of a text, its other characters left out. *)
Fixpoint digits_of (s : string) : Decimal.uint :=
  match s with
  | EmptyString => Decimal.Nil
  | String c r => if Python.is_digit c then digit_cons c (digits_of r) else digits_of r
  end.

(** The timestamps a response holds for [key], in the order of the
    response. *)
Definition response_ts (key : string) (response : Response) : list Z :=
  flat_map (fun kv => if String.eqb (fst kv) key then map dp_ts (snd kv) else [])
           response.

(** An answer to a fetch of [[start_ts, end_ts)] with order 'ASC': a
    dict (no key twice), each key's points in ascending [ts] order and
    inside the window. *)
Definition ascending_response (start_ts end_ts : Z) (response : Response) : Prop :=
  NoDup (map fst response) /\
  Forall (fun kv =>
            Sorted Z.le (map dp_ts (snd kv)) /\
            Forall (fun p => start_ts <= dp_ts p < end_ts) (snd kv))
         response.

(** A service all of whose answers to a fetch are such. *)
Definition ascending_client `{PythonLib} {R : Type} (client : Client R) : Prop :=
  forall entity_id keys start_ts end_ts limit st response st',
    get_timeseries client entity_id keys start_ts end_ts limit st = (Ok response, st') ->
    ascending_response start_ts end_ts response.

(** What holds of an event once the key text is [text]: it is no key
    discovery, and a fetch asks for [text]. *)
Definition after_discovery `{PythonLib} (text : string) (e : Event) : Prop :=
  is_discovery e = false /\ (forall k, fetch_keys e = Some k -> k = text).

(** The windows the [while] loop of lines 91-112 visits: the pairs
    [(current_start_ts, current_end_ts)] of its iterations, at most [fuel]
    of them. *)
Fixpoint windows (fuel : nat) (time_limit_ms end_ts current_start_ts : Z) : list (Z * Z) :=
  if current_start_ts <? end_ts then
    match fuel with
    | O => []
    | S fuel' =>
        let current_end_ts := Z.min (current_start_ts + time_limit_ms) end_ts in
        (current_start_ts, current_end_ts)
          :: windows fuel' time_limit_ms end_ts current_end_ts
    end
  else [].

(** The state of the service after [i] calls of [f] from [st]. *)
Fixpoint state_after {R A : Type} (f : R -> result A * R) (i : nat) (st : R) : R :=
  match i with
  | O => st
  | S i' => state_after f i' (snd (f st))
  end.

(** The calls of [get_timeseries] a pass over the windows [ws] makes
    for [entity_id] when the [i]-th window is asked for [S ks[i]]
    times. *)
Fixpoint fetches `{PythonLib} (entity_id : option string) (keys : string) (limit : Z)
    (ws : list (Z * Z)) (ks : list nat) : list Event :=
  match ws, ks with
  | w :: ws', k :: ks' =>
      (repeat (EvGetTimeseries entity_id keys (fst w) (snd w) limit) (S k)
       ++ fetches entity_id keys limit ws' ks')%list
  | _, _ => []
  end.

(** A service that answers every fetch for an entity id. *)
Definition answers_fetches `{PythonLib} {R : Type} (client : Client R) : Prop :=
  forall id keys start_ts end_ts limit st,
  exists response,
    fst (get_timeseries client (Some id) keys start_ts end_ts limit st) = Ok response.

(** Rounded-up quotient of a non-negative [a] by a positive [b]. *)
Definition ceil_div (a b : Z) : Z := (a + b - 1) / b.

(** An instant of a half-open window. *)
Definition inside (t : Z) (w : Z * Z) : Prop := fst w <= t < snd w.

Section RunPredicates.
Context `{PythonLib} {R : Type}.

(** A fragment that always returns. *)
Definition returns {A} (m : M R A) : Prop :=
  forall st, exists a, outcome_of (m st) = Returned a.

(** A fragment that needs no fuel. *)
Definition never_out_of_fuel {A} (m : M R A) : Prop :=
  forall st, outcome_of (m st) <> OutOfFuel.

(** A fragment all of whose events satisfy [P]. *)
Definition all_events {A} (P : Event -> Prop) (m : M R A) : Prop :=
  forall st, Forall P (events_of (m st)).

(** The events of a call that fails at each of its [k + 1] attempts. *)
Fixpoint attempts (k : nat) (wait_fixed : Z) (ev : Event) : list Event :=
  match k with
  | O => [ev]
  | S k' => ev :: EvSleep wait_fixed :: attempts k' wait_fixed ev
  end.
End RunPredicates.

(* ===================================================================== *)
(** ** Remote services used in the examples *)
(* ===================================================================== *)

Module Examples.

(** The series a service holds: device id, then key, then points. *)
Definition Store : Type := list (string * list (string * list DataPoint)).

Fixpoint lookup {V} (k : string) (d : list (string * V)) : option V :=
  match d with
  | [] => None
  | (k', v) :: r => if String.eqb k' k then Some v else lookup k r
  end.

Definition in_window (start_ts end_ts : Z) (p : DataPoint) : bool :=
  (start_ts <=? dp_ts p) && (dp_ts p <? end_ts).

(** The write log of a service. *)
Definition Writes : Type := list (string * Z * string * PyVal FloatLit).

(** A service with the named devices and stored series.  A device id
    of [None] is refused, as is an unknown name or id. *)
Definition memory_client (devices : list (string * string)) (store : Store)
  : Client Writes :=
  mkClient
    (fun s => (Ok tt, s))
    (fun name s =>
       match lookup name devices with
       | Some id => (Ok id, s)
       | None => (Raise ApiException, s)
       end)
    (fun entity_id s =>
       match entity_id with
       | Some id =>
           match lookup id store with
           | Some series => (Ok (map fst series), s)
           | None => (Raise ApiException, s)
           end
       | None => (Raise ApiException, s)
       end)
    (fun entity_id keys start_ts end_ts limit s =>
       match entity_id with
       | Some id =>
           let series := match lookup id store with Some d => d | None => [] end in
           (Ok (map (fun kv =>
                       (fst kv,
                        firstn (Z.to_nat limit)
                               (filter (in_window start_ts end_ts) (snd kv))))
                    (filter (fun kv => existsb (String.eqb (fst kv)) (split "," keys))
                            series)), s)
       | None => (Raise ApiException, s)
       end)
    (fun entity_id ts key value s => (Ok tt, (s ++ [(entity_id, ts, key, value)])%list)).

(** Stored series that are dicts with ascending points. *)
Definition store_ascending (store : Store) : Prop :=
  Forall (fun device =>
            NoDup (map fst (snd device)) /\
            Forall (fun kv => Sorted Z.le (map dp_ts (snd kv))) (snd device))
         store.

(** A service that knows the device [real] and fails every fetch. *)
Definition flaky_fetch : Client Writes :=
  mkClient
    (fun s => (Ok tt, s))
    (fun name s =>
       match lookup name [("real", "id1")] with
       | Some id => (Ok id, s)
       | None => (Raise ApiException, s)
       end)
    (fun _ s => (Ok ["temp"], s))
    (fun _ _ _ _ _ s => (Raise ConnectionError, s))
    (fun _ _ _ _ s => (Raise ConnectionError, s)).

(** A service that cannot be reached. *)
Definition down_client : Client Writes :=
  mkClient
    (fun s => (Raise ConnectionError, s))
    (fun _ s => (Raise ConnectionError, s))
    (fun _ s => (Raise ConnectionError, s))
    (fun _ _ _ _ _ s => (Raise ConnectionError, s))
    (fun _ _ _ _ s => (Raise ConnectionError, s)).

Definition p (ts : Z) (value : string) : DataPoint := mkPoint ts value.

(** One device with two keys whose points interleave in time. *)
Definition two_keys : Client Writes :=
  memory_client [("sensor1", "id1")]
    [("id1", [("temp", [p 1000 "20.5"; p 3000 "21"]); ("hum", [p 2000 "55"])])].

(** Two devices, the first of which has no series at all. *)
Definition silent_first : Client Writes :=
  memory_client [("d1", "id1"); ("d2", "id2")]
    [("id1", []); ("id2", [("temp", [p 1000 "1"])])].

(** Two devices with different keys. *)
Definition keyed_devices : Client Writes :=
  memory_client [("d1", "id1"); ("d2", "id2")]
    [("id1", [("temp", [p 1000 "1"])]); ("id2", [("hum", [p 2000 "2"])])].

(** Two devices with the same key; the points of the first lie in two
    windows of one minute. *)
Definition two_devices : Client Writes :=
  memory_client [("d1", "id1"); ("d2", "id2")]
    [("id1", [("temp", [p 1000 "1"; p 61000 "2"]); ("hum", [p 2000 "55"])]);
     ("id2", [("temp", [p 500 "3"])])].

(** A service whose state counts the fetches and the writes it was asked
    for, and which fails the first [n] of them. *)
Definition recovering (n : nat) : Client nat :=
  mkClient
    (fun s => (Ok tt, s))
    (fun name s => (Ok name, s))
    (fun _ s => (Ok ["temp"], s))
    (fun _ _ _ _ _ s =>
       (if Nat.ltb s n then Raise ConnectionError else Ok [("temp", [p 1000 "1"])], S s))
    (fun _ _ _ _ s => (if Nat.ltb s n then Raise ConnectionError else Ok tt, S s)).

(** The text of one double quote. *)
Definition dq : string := String "034" "".

(** The json text of an object with a boolean member. *)
Definition json_on : string := "{" ++ dq ++ "on" ++ dq ++ ": true}".

(** The json text of the string 5. *)
Definition json_five : string := dq ++ "5" ++ dq.

(** A single known device, one of whose values is a json object. *)
Definition one_device : Client Writes :=
  memory_client [("real", "id1")]
    [("id1", [("temp", [p 1000 "1"]); ("cfg", [p 1500 json_on])])].

End Examples.

(* ===================================================================== *)
(** ** Further readings of a run *)
(* ===================================================================== *)

Section Readings.
Context `{PythonLib}.

(** What [infer_type_and_convert] gives back for [t]. *)
Definition inferred (t : string) : Value * TypeTag :=
  match fst (infer_type_and_convert t) with
  | Ok r => r
  | Raise _ => (PStr t, string_tag)
  end.

(** The row of line 105 for one data point of [key]. *)
Definition data_row (device_id : option string) (key : string) (dp : DataPoint)
  : list Value :=
  [id_value device_id; PStr key; PInt (dp_ts dp);
   fst (inferred (dp_value dp)); PStr (tag_name (snd (inferred (dp_value dp))))].

(** The rows of lines 98-105 for a whole answer: key by key, each key's
    points in the order of the answer. *)
Definition response_rows (device_id : option string) (response : Response)
  : list (list Value) :=
  flat_map (fun kv => map (data_row device_id (fst kv)) (snd kv)) response.

Definition is_resolve (e : Event) : bool :=
  match e with
  | EvGetTenantDevice _ => true
  | _ => false
  end.

Definition is_save (e : Event) : bool :=
  match e with
  | EvSaveTelemetry _ _ _ _ => true
  | _ => false
  end.

Definition is_sleep (e : Event) : bool :=
  match e with
  | EvSleep _ => true
  | _ => false
  end.

(** The call that saves the point [pt] of [device_id]. *)
Definition save_event (device_id : string) (pt : Z * (string * Value)) : Event :=
  EvSaveTelemetry device_id (fst pt) (fst (snd pt)) (snd (snd pt)).

(** The calls that save every point of [telemetry_data], device by
    device. *)
Definition save_events (telemetry_data : list (string * list (Z * (string * Value))))
  : list Event :=
  flat_map (fun entry => map (save_event (fst entry)) (snd entry)) telemetry_data.

(** Whether the reading loop of the import gets past [row]: its [ts] is
    an int and its value does not raise under its tag. *)
Definition row_readable (row : CsvRow) : bool :=
  match int_of_str (row_ts row), decode (row_value row) (row_type row) with
  | Ok _, Ok _ => true
  | _, _ => false
  end.

(** The point [row] adds to its device: none when its json value does
    not decode. *)
Definition row_points (row : CsvRow) : list (Z * (string * Value)) :=
  match int_of_str (row_ts row), decode (row_value row) (row_type row) with
  | Ok ts, Ok (Some v) => [(ts, (row_key row, v))]
  | _, _ => []
  end.

(** The points held for [device_id]: those of its first entry. *)
Fixpoint points_of (device_id : string)
    (telemetry_data : list (string * list (Z * (string * Value))))
  : list (Z * (string * Value)) :=
  match telemetry_data with
  | [] => []
  | (d, pts) :: r => if String.eqb d device_id then pts else points_of device_id r
  end.

(** The rows of [device_id]. *)
Definition rows_of_device (device_id : string) (rows : list CsvRow) : list CsvRow :=
  filter (fun row => String.eqb (row_deviceId row) device_id) rows.
End Readings.

(** The elements of [l] that are not in [seen], each once, in the order of
    their first appearance. *)
Fixpoint first_seen (seen l : list string) : list string :=
  match l with
  | [] => []
  | x :: r =>
      if existsb (String.eqb x) seen then first_seen seen r
      else x :: first_seen (x :: seen) r
  end.

(** The device resolutions of [m] are those of a prefix of the names
    [l], and of all of [l] when [m] returns. *)
Definition resolves `{PythonLib} {R : Type} (m : M R unit) (l : list string) : Prop :=
  forall st,
    (exists n, filter is_resolve (events_of (m st))
               = map EvGetTenantDevice (firstn n l)) /\
    (outcome_of (m st) = Returned tt ->
     filter is_resolve (events_of (m st)) = map EvGetTenantDevice l).

(** An event that writes no data row with a [ts] outside [[lo, hi)]. *)
Definition row_in_range `{PythonLib} (lo hi : Z) (e : Event) : Prop :=
  match e with
  | EvWriteRow row => Forall (fun t => lo <= t < hi) (any_row_ts row)
  | _ => True
  end.

(** A service that answers a fetch with points inside the window asked
    for. *)
Definition windowed_client `{PythonLib} {R : Type} (client : Client R) : Prop :=
  forall entity_id keys start_ts end_ts limit st response st',
    get_timeseries client entity_id keys start_ts end_ts limit st = (Ok response, st') ->
    Forall (fun kv => Forall (fun p => start_ts <= dp_ts p < end_ts) (snd kv)) response.

(** A service on which no two names resolve to the same device. *)
Definition distinct_devices `{PythonLib} {R : Type} (client : Client R) : Prop :=
  forall n1 n2 s1 s2 id,
    fst (get_tenant_device client n1 s1) = Ok id ->
    fst (get_tenant_device client n2 s2) = Ok id ->
    n1 = n2.

(** A service whose device resolution fails with [ApiException] only. *)
Definition resolution_raises_api `{PythonLib} {R : Type} (client : Client R) : Prop :=
  forall device_name st e,
    fst (get_tenant_device client device_name st) = Raise e -> e = ApiException.

(** The calls and sleeps of saving [calls] one after the other, the
    [i]-th of them succeeding, or being given up, after [ks[i]] failed
    attempts. *)
Fixpoint tries `{PythonLib} (ks : list nat) (calls : list Event) : list Event :=
  match ks, calls with
  | k :: ks', ev :: calls' => (attempts k 2 ev ++ tries ks' calls')%list
  | _, _ => []
  end.

Definition is_save_or_sleep `{PythonLib} (e : Event) : bool := is_save e || is_sleep e.

(** A service that accepts every write. *)
Definition accepts_writes `{PythonLib} {R : Type} (client : Client R) : Prop :=
  forall entity_id ts key value st,
    fst (save_entity_telemetry client entity_id ts key value st) = Ok tt.

(** What an export of [file_name] may do: log, sleep, read from the
    service, and open, write and close [file_name]. *)
Definition export_event `{PythonLib} (file_name : string) (e : Event) : bool :=
  match e with
  | EvOpenWrite f | EvClose f => String.eqb f file_name
  | EvLogin | EvSaveTelemetry _ _ _ _ => false
  | _ => true
  end.

(** What an import may do: log, sleep and write to the service. *)
Definition import_event `{PythonLib} (e : Event) : bool :=
  is_log e || is_save e || is_sleep e.

(** The tags whose values are scalars written as their own text. *)
Definition scalar_tag (tag : TypeTag) : bool :=
  match tag with
  | boolean | int | string_tag => true
  | double | json => false
  end.

(* ===================================================================== *)
(** * Properties *)
(* ===================================================================== *)

(* ===================================================================== *)
(** ** Type inference *)
(* ===================================================================== *)

Lemma isinstance_Exception (e : exn) : isinstance e cls_Exception = true.
Proof. destruct e; reflexivity. Qed.

Lemma py_int_raises_ValueError : raises_only Python.py_int cls_ValueError.
Proof.
  intros s e. unfold Python.py_int.
  destruct (Python.signed (Python.strip s)) as [neg digits].
  destruct (Python.digitpart digits 0 false); [destruct (_ <? _) |];
    intros E; inversion E; reflexivity.
Qed.

Lemma py_float_raises_ValueError : raises_only Python.py_float cls_ValueError.
Proof.
  intros s e. unfold Python.py_float.
  destruct (Python.is_float_body _); intros E; inversion E; reflexivity.
Qed.

Section InferFacts.
Context `{PythonLib}.

(** Whatever the library raises, the outer handler of
    [infer_type_and_convert] turns it into the string fallback. *)
Lemma infer_never_raises (t : string) :
  exists r, fst (infer_type_and_convert t) = Ok r.
Proof.
  unfold infer_type_and_convert.
  destruct (infer_body t) as [r | e]; [now exists r |].
  rewrite isinstance_Exception. now eexists.
Qed.

Lemma infer_fallback (t : string) (e : exn) :
  infer_body t = Raise e ->
  infer_type_and_convert t = (Ok (PStr t, string_tag), [WARNING]).
Proof.
  intros E. unfold infer_type_and_convert. now rewrite E, isinstance_Exception.
Qed.

(** C5: for every text [t], [infer_type_and_convert] returns (it never
    raises) and its result is the first match of the decision order:
    case-insensitive true/false as boolean, else a successful [int]
    parse as int, else a successful [float] parse as double, else a
    successful [json.loads] of the quote-normalised text as json, else
    the text itself as string; any other failure inside falls back to
    the text as string. *)
Theorem infer_first_match (t : string) :
  raises_only int_of_str cls_ValueError ->
  raises_only float_of_str cls_ValueError ->
  fst (infer_type_and_convert t) = Ok (infer_spec t).
Proof.
  intros Hint Hfloat.
  unfold infer_type_and_convert, infer_body, infer_spec, try_return.
  destruct (String.eqb (lower t) "true"); [reflexivity |].
  destruct (String.eqb (lower t) "false"); [reflexivity |].
  destruct (int_of_str t) as [z | e1] eqn:Ei; [reflexivity |].
  rewrite (Hint _ _ Ei).
  destruct (float_of_str t) as [f | e2] eqn:Ef; [reflexivity |].
  rewrite (Hfloat _ _ Ef).
  destruct (json_loads (replace "'" "034" t)) as [j | e3]; [reflexivity |].
  destruct (isinstance e3 cls_JSONDecodeError); [reflexivity |].
  now rewrite isinstance_Exception.
Qed.
End InferFacts.

Lemma infer_first_match_witness :
  raises_only (int_of_str (PythonLib := Python.lib)) cls_ValueError /\
  raises_only (float_of_str (PythonLib := Python.lib)) cls_ValueError /\
  fst (infer_type_and_convert "{'a': [1, 'x']}")
  = Ok (PDict [("a", PList [PInt 1; PStr "x"])], json).
Proof.
  split; [exact py_int_raises_ValueError |].
  split; [exact py_float_raises_ValueError |].
  rewrite (infer_first_match (H := Python.lib) "{'a': [1, 'x']}"
             py_int_raises_ValueError py_float_raises_ValueError).
  reflexivity.
Defined.

(** The decision order on the five kinds of text. *)
Example infer_examples :
  map (fun t => fst (infer_type_and_convert t))
      ["True"; "-12"; "1e3"; "[1, 2]"; "12 apples"]
  = [Ok (PBool true, boolean); Ok (PInt (-12), int);
     Ok (PFloat (Python.mkFloat "1e3"), double);
     Ok (PList [PInt 1; PInt 2], json); Ok (PStr "12 apples", string_tag)].
Proof. reflexivity. Qed.

(* ===================================================================== *)
(** ** The monad *)
(* ===================================================================== *)

Section MonadFacts.
Context `{PythonLib} {R : Type}.

Lemma bind_returned {A B} (m : M R A) (k : A -> M R B) (s : R) (a : A) :
  outcome_of (m s) = Returned a ->
  bind m k s = mkRun (outcome_of (k a (remote_of (m s))))
                     (remote_of (k a (remote_of (m s))))
                     (events_of (m s) ++ events_of (k a (remote_of (m s)))).
Proof. intros E. unfold bind. now rewrite E. Qed.

Lemma bind_raised {A B} (m : M R A) (k : A -> M R B) (s : R) (e : exn) :
  outcome_of (m s) = Raised e ->
  bind m k s = mkRun (Raised e) (remote_of (m s)) (events_of (m s)).
Proof. intros E. unfold bind. now rewrite E. Qed.

Lemma bind_out_of_fuel {A B} (m : M R A) (k : A -> M R B) (s : R) :
  outcome_of (m s) = OutOfFuel ->
  bind m k s = mkRun OutOfFuel (remote_of (m s)) (events_of (m s)).
Proof. intros E. unfold bind. now rewrite E. Qed.

Lemma try_except_caught {A} (body : M R A) cls (handler : exn -> M R A) s e :
  outcome_of (body s) = Raised e ->
  isinstance e cls = true ->
  try_except body cls handler s
  = mkRun (outcome_of (handler e (remote_of (body s))))
          (remote_of (handler e (remote_of (body s))))
          (events_of (body s) ++ events_of (handler e (remote_of (body s)))).
Proof. intros E I. unfold try_except. now rewrite E, I. Qed.

Lemma try_except_returned {A} (body : M R A) cls (handler : exn -> M R A) s a :
  outcome_of (body s) = Returned a ->
  try_except body cls handler s = body s.
Proof. intros E. unfold try_except. now rewrite E. Qed.

Lemma bind_events {A B} (m : M R A) (k : A -> M R B) (s : R) :
  events_of (bind m k s)
  = (events_of (m s)
     ++ match outcome_of (m s) with
        | Returned a => events_of (k a (remote_of (m s)))
        | _ => []
        end)%list.
Proof.
  unfold bind. destruct (outcome_of (m s)); cbn [events_of]; now rewrite ?app_nil_r.
Qed.

Lemma bind_ret {A B} (a : A) (k : A -> M R B) (s : R) : bind (ret a) k s = k a s.
Proof. unfold bind, ret. cbn. now destruct (k a s). Qed.

Lemma try_except_body {A} (body body' : M R A) cls (handler : exn -> M R A) s :
  body s = body' s ->
  try_except body cls handler s = try_except body' cls handler s.
Proof. intros E. unfold try_except. now rewrite E. Qed.
End MonadFacts.

(* ===================================================================== *)
(** ** The entity id of a device *)
(* ===================================================================== *)

Section EntityFacts.
Context `{PythonLib} {R : Type}.
Variable client : Client R.

(** Without an entity id nothing of the window is fetched: the
    [ValueError] of the constructor is caught and logged. *)
Lemma export_window_unresolved (keys : string) (chunk_limit cs ce : Z) (st : R) :
  export_window client None keys chunk_limit cs ce st
  = mkRun (Returned tt) st [EvLog ERROR].
Proof. reflexivity. Qed.

(** With one, the body of the window loop is the fetch and what follows
    it. *)
Lemma export_window_resolved (id keys : string) (chunk_limit cs ce : Z) (st : R) :
  export_window client (Some id) keys chunk_limit cs ce st
  = try_except
      (timeseries_response <-
         fetch_timeseries client (Some id) keys cs ce chunk_limit ;;
       for_each timeseries_response (fun kv =>
         for_each (snd kv) (write_point (Some id) (fst kv))) ;;;
       if total_fetched timeseries_response >? 0 then log INFO else ret tt)
      cls_Exception
      (fun _ => log ERROR) st.
Proof.
  unfold export_window. apply try_except_body. unfold EntityId.
  now rewrite bind_ret.
Qed.

(** Key discovery for an unresolved device fails before the service is
    called. *)
Lemma get_all_keys_unresolved (st : R) :
  get_all_keys client None st = mkRun (Raised ValueError) st [].
Proof. reflexivity. Qed.

Lemma get_all_keys_resolved (id : string) (st : R) :
  get_all_keys client (Some id) st
  = (keys_response <- call (EvGetTimeseriesKeys (Some id))
                           (get_timeseries_keys_v1 client (Some id)) ;;
     ret (join "," keys_response)) st.
Proof. unfold get_all_keys, EntityId. now rewrite bind_ret. Qed.
End EntityFacts.

(* ===================================================================== *)
(** ** Retry policy *)
(* ===================================================================== *)

Section RetryFacts.
Context `{PythonLib} {R : Type}.

Lemma retry_from_always_failing {A} (f : R -> result A * R) (ev : Event)
    (k : nat) (wait_fixed : Z) :
  (forall s, exists e, fst (f s) = Raise e) ->
  forall s,
    outcome_of (retry_from k wait_fixed (call ev f) s) = Raised RetryError /\
    events_of (retry_from k wait_fixed (call ev f) s) = attempts k wait_fixed ev.
Proof.
  intros Hfail. induction k as [| k IH]; intros s.
  - destruct (Hfail s) as [e He]. simpl.
    rewrite (try_except_caught _ _ _ _ e).
    + simpl. split; reflexivity.
    + unfold call. simpl. now rewrite He.
    + apply isinstance_Exception.
  - destruct (Hfail s) as [e He]. simpl.
    rewrite (try_except_caught _ _ _ _ e).
    + simpl. destruct (IH (snd (f s))) as [IHo IHe].
      rewrite IHo, IHe. split; reflexivity.
    + unfold call. simpl. now rewrite He.
    + apply isinstance_Exception.
Qed.

Variable client : Client R.

(** C6: when the wrapped remote call fails at every attempt, the retry
    wrapper of [fetch_timeseries] and of [save_telemetry] performs the
    call exactly three times, sleeps two seconds between consecutive
    attempts and nowhere else, and then raises to its caller. *)
Theorem retry_three_attempts :
  (forall entity_id keys start_ts end_ts limit,
      (forall s, exists e,
          fst (get_timeseries client entity_id keys start_ts end_ts limit s) = Raise e) ->
      forall s,
        let r := fetch_timeseries client entity_id keys start_ts end_ts limit s in
        let ev := EvGetTimeseries entity_id keys start_ts end_ts limit in
        outcome_of r = Raised RetryError /\
        events_of r = [ev; EvSleep 2; ev; EvSleep 2; ev]) /\
  (forall entity_id ts key value,
      (forall s, exists e,
          fst (save_entity_telemetry client entity_id ts key value s) = Raise e) ->
      forall s,
        let r := save_telemetry client entity_id ts key value s in
        let ev := EvSaveTelemetry entity_id ts key value in
        outcome_of r = Raised RetryError /\
        events_of r = [ev; EvSleep 2; ev; EvSleep 2; ev]).
Proof.
  split; intros; unfold fetch_timeseries, save_telemetry, retry;
    now apply (retry_from_always_failing _ _ 2 2).
Qed.
End RetryFacts.

Lemma retry_three_attempts_witness :
  let fetch := EvGetTimeseries (Some "id1") "temp" 0 60000 1024 in
  let save := EvSaveTelemetry "id1" 1000 "temp" (PInt 7) in
  (forall s : Examples.Writes, exists e,
      fst (get_timeseries Examples.down_client (Some "id1") "temp" 0 60000 1024 s)
      = Raise e) /\
  (forall s : Examples.Writes, exists e,
      fst (save_entity_telemetry Examples.down_client "id1" 1000 "temp" (PInt 7) s)
      = Raise e) /\
  events_of (fetch_timeseries Examples.down_client (Some "id1") "temp" 0 60000 1024 [])
  = [fetch; EvSleep 2; fetch; EvSleep 2; fetch] /\
  events_of (save_telemetry Examples.down_client "id1" 1000 "temp" (PInt 7) [])
  = [save; EvSleep 2; save; EvSleep 2; save].
Proof.
  assert (Hf : forall s : Examples.Writes, exists e,
             fst (get_timeseries Examples.down_client (Some "id1") "temp" 0 60000 1024 s)
             = Raise e) by (intros s; now exists ConnectionError).
  assert (Hs : forall s : Examples.Writes, exists e,
             fst (save_entity_telemetry Examples.down_client "id1" 1000 "temp" (PInt 7) s)
             = Raise e) by (intros s; now exists ConnectionError).
  destruct (retry_three_attempts Examples.down_client) as [F S].
  intros fetch save.
  split; [exact Hf |]. split; [exact Hs |]. split.
  - exact (proj2 (F (Some "id1") "temp" 0 60000 1024 Hf [])).
  - exact (proj2 (S "id1" 1000 "temp" (PInt 7) Hs [])).
Defined.

(* ===================================================================== *)
(** ** The window loop *)
(* ===================================================================== *)

Lemma ceil_div_step (a b : Z) : 0 < b -> ceil_div (a - b) b = ceil_div a b - 1.
Proof.
  intros Hb. unfold ceil_div.
  replace (a - b + b - 1) with (a + b - 1 + (-1) * b) by lia.
  rewrite Z.div_add by lia. lia.
Qed.

Lemma ceil_div_bounds (a b : Z) :
  0 < b -> (ceil_div a b - 1) * b < a <= ceil_div a b * b.
Proof.
  intros Hb. unfold ceil_div.
  pose proof (Z.div_mod (a + b - 1) b ltac:(lia)) as E.
  pose proof (Z.mod_pos_bound (a + b - 1) b Hb) as B.
  nia.
Qed.

Lemma ceil_div_unique (a b n : Z) :
  0 < b -> (n - 1) * b < a <= n * b -> ceil_div a b = n.
Proof.
  intros Hb Hn. pose proof (ceil_div_bounds a b Hb). nia.
Qed.

Lemma ceil_div_pos (a b : Z) : 0 < b -> 0 < a -> 0 < ceil_div a b.
Proof. intros Hb Ha. pose proof (ceil_div_bounds a b Hb). nia. Qed.

Lemma ceil_div_nonpos (a b : Z) : 0 < b -> a <= 0 -> ceil_div a b <= 0.
Proof. intros Hb Ha. pose proof (ceil_div_bounds a b Hb). nia. Qed.

(** The number of windows the loop visits. *)
Lemma windows_length (fuel : nat) (W e s : Z) :
  0 < W ->
  List.length (windows fuel W e s) = Nat.min fuel (Z.to_nat (ceil_div (e - s) W)).
Proof.
  intros HW. revert s. induction fuel as [| fuel IH]; intros s; cbn [windows].
  - destruct (s <? e); reflexivity.
  - destruct (Z.ltb_spec s e) as [Hlt | Hge]; cbn [List.length].
    + rewrite IH.
      pose proof (ceil_div_pos (e - s) W HW ltac:(lia)) as Hpos.
      destruct (Z.min_spec (s + W) e) as [[Hm ->] | [Hm ->]].
      * replace (e - (s + W)) with (e - s - W) by lia.
        rewrite ceil_div_step by lia.
        remember (ceil_div (e - s) W) as c. clear Heqc. lia.
      * rewrite (ceil_div_unique (e - s) W 1) by lia.
        rewrite (ceil_div_unique (e - e) W 0) by lia. lia.
    + pose proof (ceil_div_nonpos (e - s) W HW ltac:(lia)). lia.
Qed.

(** The [i]-th window. *)
Lemma windows_nth (fuel : nat) (W e s : Z) (i : nat) :
  (i < List.length (windows fuel W e s))%nat ->
  nth i (windows fuel W e s) (0, 0)
  = (s + Z.of_nat i * W, Z.min (s + (Z.of_nat i + 1) * W) e).
Proof.
  revert s i. induction fuel as [| fuel IH]; intros s i; simpl.
  - destruct (s <? e); simpl; lia.
  - destruct (Z.ltb_spec s e) as [Hlt | Hge]; simpl; [| lia].
    destruct i as [| i]; intros Hi.
    + f_equal; [lia | f_equal; lia].
    + apply PeanoNat.lt_S_n in Hi. rewrite IH by exact Hi.
      assert (Hm : Z.min (s + W) e = s + W).
      { destruct fuel; simpl in Hi.
        - destruct (_ <? _); simpl in Hi; lia.
        - destruct (Z.ltb_spec (Z.min (s + W) e) e); simpl in Hi; lia. }
      rewrite Hm. f_equal; [lia | f_equal; lia].
Qed.

Section LoopFacts.
Context `{PythonLib} {R : Type}.

(** With enough fuel the [while] loop is the iteration of its body over
    the windows. *)
Lemma window_loop_for_each (fuel : nat) (body : Z -> Z -> M R unit) (W e s : Z) :
  0 < W ->
  (Z.to_nat (ceil_div (e - s) W) <= fuel)%nat ->
  forall st,
    window_loop fuel body W e s st
    = for_each (windows fuel W e s) (fun w => body (fst w) (snd w)) st.
Proof.
  intros HW. revert s. induction fuel as [| fuel IH]; intros s Hn st; cbn [window_loop windows].
  - destruct (Z.ltb_spec s e) as [Hlt | Hge]; [| reflexivity].
    pose proof (ceil_div_pos (e - s) W HW ltac:(lia)). lia.
  - destruct (Z.ltb_spec s e) as [Hlt | Hge]; [| reflexivity].
    cbn [for_each fst snd]. unfold bind.
    destruct (outcome_of (body s (Z.min (s + W) e) st)); try reflexivity.
    rewrite IH; [reflexivity |].
    pose proof (ceil_div_pos (e - s) W HW ltac:(lia)) as Hpos.
    destruct (Z.min_spec (s + W) e) as [[Hm ->] | [Hm ->]].
    + replace (e - (s + W)) with (e - s - W) by lia.
      rewrite ceil_div_step by lia. lia.
    + rewrite (ceil_div_unique (e - e) W 0) by lia. lia.
Qed.

Lemma for_each_returns {A} (l : list A) (body : A -> M R unit) :
  (forall x, returns (body x)) -> returns (for_each l body).
Proof.
  intros Hb. induction l as [| x l IH]; intros st; cbn [for_each].
  - now exists tt.
  - destruct (Hb x st) as [[] Ex]. rewrite (bind_returned _ _ _ tt Ex). cbn.
    apply IH.
Qed.

Lemma window_loop_out_of_fuel (fuel : nat) (body : Z -> Z -> M R unit) (W e s : Z) :
  0 < W ->
  (forall a b, returns (body a b)) ->
  (fuel < Z.to_nat (ceil_div (e - s) W))%nat ->
  forall st, outcome_of (window_loop fuel body W e s st) = OutOfFuel.
Proof.
  intros HW Hb. revert s. induction fuel as [| fuel IH]; intros s Hn st; cbn [window_loop].
  - destruct (Z.ltb_spec s e) as [Hlt | Hge]; [reflexivity |].
    pose proof (ceil_div_nonpos (e - s) W HW ltac:(lia)). lia.
  - destruct (Z.ltb_spec s e) as [Hlt | Hge].
    + destruct (Hb s (Z.min (s + W) e) st) as [[] Ex].
      rewrite (bind_returned _ _ _ tt Ex). cbn. apply IH.
      destruct (Z.min_spec (s + W) e) as [[Hm ->] | [Hm ->]].
      * replace (e - (s + W)) with (e - s - W) by lia.
        rewrite ceil_div_step by lia. lia.
      * rewrite (ceil_div_unique (e - s) W 1) in Hn by lia. lia.
    + pose proof (ceil_div_nonpos (e - s) W HW ltac:(lia)). lia.
Qed.
End LoopFacts.

Section FuelFacts.
Context `{PythonLib} {R : Type}.

Lemma nof_ret {A} (a : A) : never_out_of_fuel (ret (R := R) a).
Proof. intros st. discriminate. Qed.

Lemma nof_raise {A} (e : exn) : never_out_of_fuel (raise (R := R) (A := A) e).
Proof. intros st. discriminate. Qed.

Lemma nof_emit (e : Event) : never_out_of_fuel (emit (R := R) e).
Proof. intros st. discriminate. Qed.

Lemma nof_call {A} (e : Event) (f : R -> result A * R) : never_out_of_fuel (call e f).
Proof. intros st. unfold call. cbn. destruct (fst (f st)); discriminate. Qed.

Lemma nof_lift {A} (r : result A * list LogLevel) :
  never_out_of_fuel (lift (R := R) r).
Proof. intros st. unfold lift. cbn. destruct (fst r); discriminate. Qed.

Lemma nof_bind {A B} (m : M R A) (k : A -> M R B) :
  never_out_of_fuel m -> (forall a, never_out_of_fuel (k a)) ->
  never_out_of_fuel (bind m k).
Proof.
  intros Hm Hk st. unfold bind.
  destruct (outcome_of (m st)) eqn:E; cbn; try discriminate.
  - apply Hk.
  - now apply Hm in E.
Qed.

Lemma nof_try_except {A} (body : M R A) cls (handler : exn -> M R A) :
  never_out_of_fuel body -> (forall e, never_out_of_fuel (handler e)) ->
  never_out_of_fuel (try_except body cls handler).
Proof.
  intros Hb Hh st. unfold try_except.
  destruct (outcome_of (body st)) eqn:E; try (rewrite E; discriminate).
  - destruct (isinstance e cls); cbn; [apply Hh | rewrite E; discriminate].
  - now apply Hb in E.
Qed.

Lemma nof_for_each {A} (l : list A) (body : A -> M R unit) :
  (forall x, never_out_of_fuel (body x)) -> never_out_of_fuel (for_each l body).
Proof.
  intros Hb. induction l as [| x l IH]; cbn [for_each].
  - apply nof_ret.
  - apply nof_bind; [apply Hb | intros _; exact IH].
Qed.

Lemma nof_retry_from {A} (k : nat) (wait_fixed : Z) (op : M R A) :
  never_out_of_fuel op -> never_out_of_fuel (retry_from k wait_fixed op).
Proof.
  intros Hop. induction k as [| k IH]; cbn [retry_from];
    apply nof_try_except; try exact Hop; intros _.
  - apply nof_raise.
  - apply nof_bind; [apply nof_emit | intros _; exact IH].
Qed.

Variable client : Client R.

Lemma nof_fetch_timeseries entity_id keys start_ts end_ts limit :
  never_out_of_fuel (fetch_timeseries client entity_id keys start_ts end_ts limit).
Proof. apply nof_retry_from, nof_call. Qed.

Lemma nof_write_point device_id key data_point :
  never_out_of_fuel (write_point (R := R) device_id key data_point).
Proof. apply nof_bind; [apply nof_lift | intros; apply nof_emit]. Qed.

(** The body of the window loop always returns: its handler catches
    every exception. *)
Lemma export_window_returns device_id keys chunk_limit cs ce :
  returns (export_window client device_id keys chunk_limit cs ce).
Proof.
  intros st. exists tt. destruct device_id as [id |]; [| reflexivity].
  rewrite export_window_resolved.
  set (body := bind _ _).
  assert (Hb : never_out_of_fuel body).
  { apply nof_bind; [apply nof_fetch_timeseries | intros resp].
    apply nof_bind.
    - apply nof_for_each. intros kv. apply nof_for_each. intros dp.
      apply nof_write_point.
    - intros _. destruct (_ >? _); [apply nof_emit | apply nof_ret]. }
  unfold try_except. specialize (Hb st).
  destruct (outcome_of (body st)) as [[] | e |] eqn:E.
  - exact E.
  - rewrite isinstance_Exception. reflexivity.
  - contradiction.
Qed.
End FuelFacts.

Lemma windows_more_fuel (fuel : nat) (W e s : Z) :
  0 < W ->
  (Z.to_nat (ceil_div (e - s) W) <= fuel)%nat ->
  windows fuel W e s = windows (Z.to_nat (ceil_div (e - s) W)) W e s.
Proof.
  intros HW. revert s. induction fuel as [| fuel IH]; intros s Hn.
  - replace (Z.to_nat (ceil_div (e - s) W)) with 0%nat by lia. reflexivity.
  - cbn [windows]. destruct (Z.ltb_spec s e) as [Hlt | Hge].
    + pose proof (ceil_div_pos (e - s) W HW ltac:(lia)) as Hpos.
      destruct (Z.to_nat (ceil_div (e - s) W)) as [| m] eqn:Em; [lia |].
      cbn [windows]. destruct (Z.ltb_spec s e); [| lia]. f_equal.
      assert (Hm : m = Z.to_nat (ceil_div (e - Z.min (s + W) e) W)).
      { destruct (Z.min_spec (s + W) e) as [[Hm ->] | [Hm ->]].
        - replace (e - (s + W)) with (e - s - W) by lia.
          rewrite ceil_div_step by lia. lia.
        - rewrite (ceil_div_unique (e - s) W 1) in Em by lia.
          rewrite (ceil_div_unique (e - e) W 0) by lia. lia. }
      rewrite Hm. apply IH. lia.
    + destruct (Z.to_nat (ceil_div (e - s) W)); cbn [windows];
        destruct (Z.ltb_spec s e); try lia; reflexivity.
Qed.

Lemma last_is_nth {A} (l : list A) (d : A) :
  last l d = nth (List.length l - 1) l d.
Proof.
  induction l as [| x l IH]; [reflexivity |].
  destruct l as [| y l]; [reflexivity |].
  change (last (x :: y :: l) d) with (last (y :: l) d). rewrite IH.
  cbn [List.length]. rewrite !Nat.sub_succ, !Nat.sub_0_r. reflexivity.
Qed.

Section WindowFacts.
Context `{PythonLib} {R : Type}.

(** C2: for [start_ts < end_ts] and a positive window width
    [W = time_limit*60*1000], the windows the export loop runs its body
    on are [window[i] = [start + i*W, min(start + (i+1)*W, end))]; each
    one ends where the next begins, no instant lies in two of them, an
    instant lies in one of them exactly when it lies in
    [[start_ts, end_ts)], and the last one ends at [end_ts]. *)
Theorem export_windows_partition (start_ts end_ts time_limit : Z) :
  start_ts < end_ts ->
  0 < time_limit * 60 * 1000 ->
  let W := time_limit * 60 * 1000 in
  let n := Z.to_nat (ceil_div (end_ts - start_ts) W) in
  let ws := windows n W end_ts start_ts in
  (forall (body : Z -> Z -> M R unit) (fuel : nat) st,
      (n <= fuel)%nat ->
      window_loop fuel body W end_ts start_ts st
      = for_each ws (fun w => body (fst w) (snd w)) st) /\
  (forall i, (i < List.length ws)%nat ->
      nth i ws (0, 0)
      = (start_ts + Z.of_nat i * W, Z.min (start_ts + (Z.of_nat i + 1) * W) end_ts)) /\
  (forall i, (S i < List.length ws)%nat ->
      snd (nth i ws (0, 0)) = fst (nth (S i) ws (0, 0))) /\
  (forall i j t, (i < List.length ws)%nat -> (j < List.length ws)%nat ->
      inside t (nth i ws (0, 0)) -> inside t (nth j ws (0, 0)) -> i = j) /\
  (forall t, start_ts <= t < end_ts <-> exists w, In w ws /\ inside t w) /\
  snd (last ws (0, 0)) = end_ts.
Proof.
  intros Hlt HW W n ws.
  assert (Hlen : List.length ws = n).
  { unfold ws. rewrite windows_length by exact HW. fold n. lia. }
  pose proof (ceil_div_bounds (end_ts - start_ts) W HW) as Hceil.
  pose proof (ceil_div_pos (end_ts - start_ts) W HW ltac:(lia)) as Hpos.
  assert (Hn : Z.of_nat n = ceil_div (end_ts - start_ts) W) by (unfold n; lia).
  rewrite <- Hn in Hceil. clear Hpos.
  assert (Hnth : forall i, (i < List.length ws)%nat ->
            nth i ws (0, 0)
            = (start_ts + Z.of_nat i * W,
               Z.min (start_ts + (Z.of_nat i + 1) * W) end_ts))
    by (intros i Hi; now apply windows_nth).
  split; [| split; [exact Hnth | split; [| split; [| split]]]].
  - intros body fuel st Hfuel.
    rewrite window_loop_for_each by (try exact HW; fold W; fold n; lia).
    unfold ws, n. now rewrite (windows_more_fuel fuel) by (try exact HW; fold W; fold n; lia).
  - intros i Hi. rewrite !Hnth by lia. cbn [fst snd].
    rewrite Hlen in Hi. rewrite Z.min_l by nia. lia.
  - intros i j t Hi Hj. rewrite !Hnth by assumption. unfold inside. cbn [fst snd].
    intros [Hi1 Hi2] [Hj1 Hj2].
    apply Z.min_glb_lt_iff in Hi2, Hj2.
    destruct (Nat.lt_trichotomy i j) as [L | [E | L]]; [exfalso; nia | exact E | exfalso; nia].
  - intros t. split.
    + intros [Ht1 Ht2].
      set (q := (t - start_ts) / W).
      assert (Hq : q * W <= t - start_ts < (q + 1) * W).
      { pose proof (Z.div_mod (t - start_ts) W ltac:(lia)).
        pose proof (Z.mod_pos_bound (t - start_ts) W HW). unfold q. nia. }
      assert (Hq0 : 0 <= q) by (apply Z.div_pos; lia).
      assert (Hqn : (Z.to_nat q < List.length ws)%nat) by (rewrite Hlen; nia).
      exists (nth (Z.to_nat q) ws (0, 0)). split; [now apply nth_In |].
      rewrite Hnth by exact Hqn. unfold inside. cbn [fst snd].
      rewrite Z2Nat.id by exact Hq0. split; [lia |].
      apply Z.min_glb_lt; lia.
    + intros [w [Hin Hw]].
      destruct (In_nth _ _ (0, 0) Hin) as [i [Hi Ei]].
      rewrite <- Ei, Hnth in Hw by exact Hi. unfold inside in Hw. cbn [fst snd] in Hw.
      destruct Hw as [Hw1 Hw2]. apply Z.min_glb_lt_iff in Hw2. nia.
  - rewrite last_is_nth, Hnth by lia. cbn [snd]. rewrite Hlen.
    rewrite Z.min_r by nia. reflexivity.
Qed.
End WindowFacts.

Lemma export_windows_partition_witness :
  1000 < 100000 /\ 0 < 1 * 60 * 1000 /\
  windows 2 60000 100000 1000 = [(1000, 61000); (61000, 100000)] /\
  snd (last (windows 2 60000 100000 1000) (0, 0)) = 100000.
Proof.
  split; [lia |]. split; [lia |]. split; [reflexivity |].
  exact (proj2 (proj2 (proj2 (proj2 (proj2
           (export_windows_partition (H := Python.lib) (R := unit) 1000 100000 1
              ltac:(lia) ltac:(lia))))))).
Defined.


(* ===================================================================== *)
(** ** Events of an export *)
(* ===================================================================== *)

Section EventFacts.
Context `{PythonLib} {R : Type}.
Variable P : Event -> Prop.

Lemma all_ret {A} (a : A) : all_events (R := R) P (ret a).
Proof. intros st. constructor. Qed.

Lemma all_raise {A} (e : exn) : all_events (R := R) P (raise (A := A) e).
Proof. intros st. constructor. Qed.

Lemma all_emit (e : Event) : P e -> all_events (R := R) P (emit e).
Proof. intros He st. repeat constructor. exact He. Qed.

Lemma all_call {A} (e : Event) (f : R -> result A * R) : P e -> all_events P (call e f).
Proof. intros He st. repeat constructor. exact He. Qed.

Lemma all_lift {A} (r : result A * list LogLevel) :
  (forall l, P (EvLog l)) -> all_events (R := R) P (lift r).
Proof.
  intros Hl st. unfold lift. cbn. induction (snd r); constructor; auto.
Qed.

Lemma all_bind {A B} (m : M R A) (k : A -> M R B) :
  all_events P m -> (forall a, all_events P (k a)) -> all_events P (bind m k).
Proof.
  intros Hm Hk st. unfold bind.
  destruct (outcome_of (m st)); cbn; try apply Hm.
  apply Forall_app. split; [apply Hm | apply Hk].
Qed.

Lemma all_bind_ret {A B} (a : A) (k : A -> M R B) :
  all_events P (k a) -> all_events P (bind (ret a) k).
Proof. intros Hk st. cbn. apply Hk. Qed.

Lemma all_try_except {A} (body : M R A) cls (handler : exn -> M R A) :
  all_events P body -> (forall e, all_events P (handler e)) ->
  all_events P (try_except body cls handler).
Proof.
  intros Hb Hh st. unfold try_except.
  destruct (outcome_of (body st)); try apply Hb.
  destruct (isinstance e cls); [| apply Hb].
  cbn. apply Forall_app. split; [apply Hb | apply Hh].
Qed.

Lemma all_for_each {A} (l : list A) (body : A -> M R unit) :
  (forall x, all_events P (body x)) -> all_events P (for_each l body).
Proof.
  intros Hb. induction l as [| x l IH]; cbn [for_each].
  - apply all_ret.
  - apply all_bind; [apply Hb | intros _; exact IH].
Qed.

Lemma all_retry_from {A} (k : nat) (wait_fixed : Z) (op : M R A) :
  (forall z, P (EvSleep z)) -> all_events P op ->
  all_events P (retry_from k wait_fixed op).
Proof.
  intros Hs Hop. induction k as [| k IH]; cbn [retry_from];
    apply all_try_except; try exact Hop; intros _.
  - apply all_raise.
  - apply all_bind; [apply all_emit, Hs | intros _; exact IH].
Qed.

Lemma all_window_loop (fuel : nat) (body : Z -> Z -> M R unit) (W e s : Z) :
  (forall a b, all_events P (body a b)) -> all_events P (window_loop fuel body W e s).
Proof.
  intros Hb. revert s. induction fuel as [| fuel IH]; intros s; cbn [window_loop].
  - destruct (s <? e); intros st; constructor.
  - destruct (s <? e); [| apply all_ret].
    apply all_bind; [apply Hb | intros _; apply IH].
Qed.
End EventFacts.

Section ExportEvents.
Context `{PythonLib} {R : Type}.
Variable client : Client R.
Variable P : Event -> Prop.
Hypothesis P_log : forall l, P (EvLog l).
Hypothesis P_sleep : forall z, P (EvSleep z).
Hypothesis P_row : forall r, P (EvWriteRow r).

(** Everything one window does, given what holds of its fetch. *)
Lemma all_export_window device_id keys chunk_limit cs ce :
  P (EvGetTimeseries device_id keys cs ce chunk_limit) ->
  all_events P (export_window client device_id keys chunk_limit cs ce).
Proof.
  intros Hf st. destruct device_id as [id |].
  2:{ rewrite export_window_unresolved. repeat constructor. apply P_log. }
  rewrite export_window_resolved. revert st.
  apply all_try_except; [| intros _; apply all_emit, P_log].
  apply all_bind.
  - apply all_retry_from; [exact P_sleep | apply all_call, Hf].
  - intros resp. apply all_bind.
    + apply all_for_each. intros kv. apply all_for_each. intros dp.
      apply all_bind; [apply all_lift, P_log | intros r; apply all_emit, P_row].
    + intros _. destruct (_ >? _); [apply all_emit, P_log | apply all_ret].
Qed.

(** Everything key discovery does, given what holds of its call. *)
Lemma all_get_all_keys entity_id :
  P (EvGetTimeseriesKeys entity_id) ->
  all_events P (get_all_keys client entity_id).
Proof.
  intros Hk st. destruct entity_id as [id |].
  2:{ rewrite get_all_keys_unresolved. constructor. }
  rewrite get_all_keys_resolved. revert st.
  apply all_bind; [apply all_call, Hk | intros; apply all_ret].
Qed.

Lemma all_get_device_id device_name :
  P (EvGetTenantDevice device_name) ->
  all_events P (get_device_id client device_name).
Proof.
  intros Hd. apply all_try_except.
  - apply all_bind; [apply all_call, Hd | intros; apply all_ret].
  - intros _. apply all_bind; [apply all_emit, P_log | intros; apply all_ret].
Qed.

(** Everything the device loop does once the key text is set. *)
Lemma all_export_devices_with_keys fuel start_ts end_ts names text limit W :
  text <> "" ->
  (forall n, P (EvGetTenantDevice n)) ->
  (forall id a b, P (EvGetTimeseries id text a b limit)) ->
  all_events P (export_devices client fuel start_ts end_ts names (Some text) limit W).
Proof.
  intros Htext Hd Hf. induction names as [| name names IH]; cbn [export_devices].
  - apply all_ret.
  - apply all_bind; [apply all_get_device_id, Hd | intros id].
    apply all_bind; [apply all_emit, P_log | intros _].
    assert (E : py_not (Some text) = false).
    { cbn. now apply String.eqb_neq. }
    rewrite E. cbn [text_of].
    apply all_bind_ret.
    apply all_bind; [| intros _].
    { apply all_window_loop. intros a b. apply all_export_window, Hf. }
    apply all_bind; [apply all_emit, P_log | intros _; exact IH].
Qed.
End ExportEvents.

(* ===================================================================== *)
(** ** Termination of the window loop *)
(* ===================================================================== *)

Lemma filter_none {A} (f : A -> bool) (l : list A) :
  Forall (fun x => f x = false) l -> filter f l = [].
Proof.
  induction 1 as [| x l Hx _ IH]; [reflexivity |]. cbn. now rewrite Hx.
Qed.

Section FetchCalls.
Context `{PythonLib} {R : Type}.
Variable client : Client R.

(** The calls of the retry wrapper: the same call, once more after each
    failure, at most [k + 1] times. *)
Lemma retry_from_calls {A} (k : nat) (wait_fixed : Z) (ev : Event)
    (f : R -> result A * R) (st : R) :
  is_fetch ev = true ->
  exists n, (n <= k)%nat /\
    filter is_fetch (events_of (retry_from k wait_fixed (call ev f) st))
    = repeat ev (S n).
Proof.
  intros Hev. revert st. induction k as [| k IH]; intros st; cbn [retry_from];
    unfold try_except at 1; unfold call at 1, raise; cbn -[retry_from];
    destruct (f st) as [[a | e] s2]; cbn -[retry_from]; rewrite ?Hev.
  - now exists 0%nat.
  - now exists 0%nat.
  - exists 0%nat. split; [lia | reflexivity].
  - destruct (IH s2) as [n [Hn En]]. exists (S n). split; [lia |].
    unfold bind, emit. cbn -[retry_from]. rewrite En. reflexivity.
Qed.

(** One call of [fetch_timeseries] reaches the service one to three
    times, each time for the same window. *)
Lemma fetch_timeseries_attempts entity_id keys start_ts end_ts limit st :
  exists n, (n <= 2)%nat /\
    filter is_fetch
      (events_of (fetch_timeseries client entity_id keys start_ts end_ts limit st))
    = repeat (EvGetTimeseries entity_id keys start_ts end_ts limit) (S n).
Proof. now apply retry_from_calls. Qed.

(** A call of [fetch_timeseries] that the service answers reaches it
    once. *)
Lemma fetch_timeseries_answered entity_id keys start_ts end_ts limit st response :
  fst (get_timeseries client entity_id keys start_ts end_ts limit st) = Ok response ->
  filter is_fetch
    (events_of (fetch_timeseries client entity_id keys start_ts end_ts limit st))
  = [EvGetTimeseries entity_id keys start_ts end_ts limit].
Proof.
  intros E. unfold fetch_timeseries, retry. cbn [Nat.sub retry_from].
  unfold try_except at 1, call at 1. cbn [outcome_of remote_of events_of].
  rewrite E. reflexivity.
Qed.

(** One run of the body of the window loop for a resolved device
    reaches the service through its one call of [fetch_timeseries] and
    nowhere else. *)
Lemma export_window_service_calls id keys chunk_limit cs ce st :
  filter is_fetch
    (events_of (export_window client (Some id) keys chunk_limit cs ce st))
  = filter is_fetch
      (events_of (fetch_timeseries client (Some id) keys cs ce chunk_limit st)).
Proof.
  rewrite export_window_resolved.
  set (fetch := fetch_timeseries client (Some id) keys cs ce chunk_limit).
  unfold try_except.
  destruct (outcome_of (fetch st)) as [response | e |] eqn:Ef.
  - rewrite (bind_returned _ _ _ response Ef). cbn [outcome_of remote_of events_of].
    match goal with
    | |- context [events_of (?m (remote_of (fetch st)))] =>
        assert (Hrest : all_events (fun ev => is_fetch ev = false) m)
    end.
    { apply all_bind.
      - apply all_for_each. intros kv. apply all_for_each. intros dp.
        apply all_bind; [now apply all_lift | intros r; now apply all_emit].
      - intros _. destruct (_ >? _); [now apply all_emit | apply all_ret]. }
    set (rest := bind _ _) in *.
    assert (E : filter is_fetch (events_of (fetch st) ++ events_of (rest (remote_of (fetch st))))
                = filter is_fetch (events_of (fetch st))).
    { rewrite filter_app, (filter_none _ _ (Hrest _)). apply app_nil_r. }
    destruct (outcome_of (rest (remote_of (fetch st)))) as [[] | e |]; cbn [events_of];
      try exact E.
    rewrite isinstance_Exception. cbn [events_of log emit].
    rewrite filter_app, E. cbn. apply app_nil_r.
  - rewrite (bind_raised _ _ _ e Ef). cbn [outcome_of remote_of events_of].
    rewrite isinstance_Exception. cbn [events_of log emit].
    rewrite filter_app. cbn. apply app_nil_r.
  - rewrite (bind_out_of_fuel _ _ _ Ef). reflexivity.
Qed.

(** The fetches of a pass over the windows [ws] for a resolved device:
    window after window, each asked for one to three times, and once
    when the service answers. *)
Lemma for_each_window_fetches id keys chunk_limit (ws : list (Z * Z)) (st : R) :
  exists ks,
    List.length ks = List.length ws /\
    Forall (fun k => (k <= 2)%nat) ks /\
    filter is_fetch
      (events_of (for_each ws (fun w => export_window client (Some id) keys chunk_limit
                                                      (fst w) (snd w)) st))
    = fetches (Some id) keys chunk_limit ws ks /\
    (answers_fetches client -> Forall (eq 0%nat) ks).
Proof.
  revert st. induction ws as [| w ws IH]; intros st; cbn [for_each].
  - exists []. cbn. repeat split; constructor.
  - destruct (export_window_returns client (Some id) keys chunk_limit (fst w) (snd w) st)
      as [[] Eo].
    rewrite (bind_returned _ _ _ tt Eo). cbn [events_of].
    rewrite filter_app, export_window_service_calls.
    destruct (fetch_timeseries_attempts (Some id) keys (fst w) (snd w) chunk_limit st)
      as [k [Hk Ek]].
    destruct (IH (remote_of (export_window client (Some id) keys chunk_limit
                                           (fst w) (snd w) st)))
      as [ks [Hl [Hf [Ee Ha]]]].
    exists (k :: ks). split; [cbn [List.length]; now rewrite Hl |].
    split; [now constructor |]. split.
    + cbn [fetches]. now rewrite Ek, Ee.
    + intros Hans. constructor; [| exact (Ha Hans)].
      destruct (Hans id keys (fst w) (snd w) chunk_limit st) as [response Er].
      rewrite (fetch_timeseries_answered _ _ _ _ _ _ _ Er) in Ek.
      destruct k; [reflexivity | discriminate].
Qed.

(** A pass over the windows for an unresolved device logs one error per
    window and does nothing else. *)
Lemma for_each_window_unresolved keys chunk_limit (ws : list (Z * Z)) (st : R) :
  for_each ws (fun w => export_window client None keys chunk_limit (fst w) (snd w)) st
  = mkRun (Returned tt) st (repeat (EvLog ERROR) (List.length ws)).
Proof.
  induction ws as [| w ws IH]; [reflexivity |]. cbn [for_each].
  rewrite (bind_returned _ _ _ tt) by reflexivity.
  rewrite export_window_unresolved. cbn [outcome_of remote_of events_of].
  rewrite IH. reflexivity.
Qed.
End FetchCalls.

Lemma fetches_once `{PythonLib} entity_id keys limit (ws : list (Z * Z)) (ks : list nat) :
  List.length ks = List.length ws ->
  Forall (eq 0%nat) ks ->
  fetches entity_id keys limit ws ks
  = map (fun w => EvGetTimeseries entity_id keys (fst w) (snd w) limit) ws.
Proof.
  revert ks. induction ws as [| w ws IH]; intros [| k ks] Hl Ha; cbn in Hl;
    try lia; [reflexivity |].
  inversion Ha; subst. cbn [fetches repeat app map]. f_equal.
  apply IH; [lia | assumption].
Qed.

Section Termination.
Context `{PythonLib} {R : Type}.
Variable client : Client R.

(** C10: for [start_ts < end_ts] and [time_limit >= 1] the window loop
    of the export terminates after exactly
    [ceil((end_ts - start_ts) / (time_limit*60*1000))] runs of its body:
    that much fuel lets it return, any more changes nothing, any less
    does not suffice.  Each run advances [current_start_ts] by
    [min(W, end_ts - current_start_ts) > 0].  For a resolved device each
    run makes its one call of [fetch_timeseries]: the calls of the
    service are those for the windows, in order, each window asked for
    one to three times and exactly once when the service answers.  For
    an unresolved device each run fails before the service is reached
    and logs one error. *)
Theorem window_loop_terminates (device_id : option string) (keys : string)
    (chunk_limit start_ts end_ts time_limit : Z) :
  start_ts < end_ts ->
  1 <= time_limit ->
  let W := time_limit * 60 * 1000 in
  let n := Z.to_nat (ceil_div (end_ts - start_ts) W) in
  let body := export_window client device_id keys chunk_limit in
  Z.of_nat n = ceil_div (end_ts - start_ts) W /\
  List.length (windows n W end_ts start_ts) = n /\
  (forall fuel st, (n <= fuel)%nat ->
      outcome_of (window_loop fuel body W end_ts start_ts st) = Returned tt /\
      window_loop fuel body W end_ts start_ts st
      = for_each (windows n W end_ts start_ts) (fun w => body (fst w) (snd w)) st) /\
  (forall fuel st, (fuel < n)%nat ->
      outcome_of (window_loop fuel body W end_ts start_ts st) = OutOfFuel) /\
  (forall cs ce, In (cs, ce) (windows n W end_ts start_ts) ->
      ce - cs = Z.min W (end_ts - cs) /\ 0 < ce - cs) /\
  (forall id fuel st, device_id = Some id -> (n <= fuel)%nat ->
      exists ks,
        List.length ks = n /\
        Forall (fun k => (k <= 2)%nat) ks /\
        filter is_fetch (events_of (window_loop fuel body W end_ts start_ts st))
        = fetches (Some id) keys chunk_limit (windows n W end_ts start_ts) ks /\
        (answers_fetches client ->
         filter is_fetch (events_of (window_loop fuel body W end_ts start_ts st))
         = map (fun w => EvGetTimeseries (Some id) keys (fst w) (snd w) chunk_limit)
               (windows n W end_ts start_ts))) /\
  (forall fuel st, device_id = None -> (n <= fuel)%nat ->
      window_loop fuel body W end_ts start_ts st
      = mkRun (Returned tt) st (repeat (EvLog ERROR) n)).
Proof.
  intros Hlt Htl W n body.
  assert (HW : 0 < W) by (unfold W; lia).
  pose proof (ceil_div_pos (end_ts - start_ts) W HW ltac:(lia)) as Hpos.
  assert (Hret : forall a b, returns (body a b))
    by (intros a b; apply export_window_returns).
  assert (Hlen : List.length (windows n W end_ts start_ts) = n).
  { rewrite windows_length by exact HW. fold n. lia. }
  assert (Hloop : forall fuel st, (n <= fuel)%nat ->
             window_loop fuel body W end_ts start_ts st
             = for_each (windows n W end_ts start_ts)
                        (fun w => body (fst w) (snd w)) st).
  { intros fuel st Hfuel.
    rewrite window_loop_for_each by (try exact HW; fold n; lia).
    unfold n. now rewrite (windows_more_fuel fuel) by (try exact HW; fold n; lia). }
  split; [unfold n; lia |].
  split; [exact Hlen |].
  split; [| split; [| split; [| split]]].
  - intros fuel st Hfuel.
    split; [| exact (Hloop fuel st Hfuel)]. rewrite (Hloop fuel st Hfuel).
    destruct (for_each_returns (windows n W end_ts start_ts)
                (fun w => body (fst w) (snd w)) (fun w => Hret (fst w) (snd w)) st)
      as [[] Ex].
    exact Ex.
  - intros fuel st Hfuel. apply window_loop_out_of_fuel; [exact HW | exact Hret |].
    fold n. exact Hfuel.
  - intros cs ce Hin.
    destruct (In_nth _ _ (0, 0) Hin) as [i [Hi Ei]].
    rewrite windows_nth in Ei by exact Hi. inversion Ei; subst cs ce. clear Ei.
    rewrite windows_length in Hi by exact HW. fold n in Hi.
    pose proof (ceil_div_bounds (end_ts - start_ts) W HW) as Hceil.
    assert (Hn : Z.of_nat n = ceil_div (end_ts - start_ts) W) by (unfold n; lia).
    rewrite <- Hn in Hceil.
    assert (Hi' : Z.of_nat i * W < end_ts - start_ts) by nia.
    split; [| apply Z.lt_0_sub, Z.min_glb_lt; lia].
    destruct (Z.min_spec (start_ts + (Z.of_nat i + 1) * W) end_ts) as [[? ->] | [? ->]];
      destruct (Z.min_spec W (end_ts - (start_ts + Z.of_nat i * W))) as [[? ->] | [? ->]];
      lia.
  - intros id fuel st Eid Hfuel. rewrite (Hloop fuel st Hfuel). unfold body. subst device_id.
    destruct (for_each_window_fetches client id keys chunk_limit
                (windows n W end_ts start_ts) st) as [ks [Hl [Hf [Ee Ha]]]].
    exists ks. split; [now rewrite Hl |]. split; [exact Hf |]. split; [exact Ee |].
    intros Hans. rewrite Ee. apply fetches_once; [exact Hl | exact (Ha Hans)].
  - intros fuel st Eid Hfuel. rewrite (Hloop fuel st Hfuel). unfold body. subst device_id.
    rewrite for_each_window_unresolved. now rewrite Hlen.
Qed.
End Termination.

Lemma memory_client_answers devices store :
  answers_fetches (Examples.memory_client devices store).
Proof. intros id keys start_ts end_ts limit st. cbn. eexists. reflexivity. Qed.

Lemma window_loop_terminates_witness :
  1000 < 130000 /\ 1 <= 1 /\
  outcome_of (window_loop 3 (export_window Examples.one_device (Some "id1") "temp" 1024)
                          60000 130000 1000 []) = Returned tt /\
  outcome_of (window_loop 2 (export_window Examples.one_device (Some "id1") "temp" 1024)
                          60000 130000 1000 []) = OutOfFuel /\
  filter is_fetch
    (events_of (window_loop 3 (export_window Examples.one_device (Some "id1") "temp" 1024)
                            60000 130000 1000 []))
  = [EvGetTimeseries (Some "id1") "temp" 1000 61000 1024;
     EvGetTimeseries (Some "id1") "temp" 61000 121000 1024;
     EvGetTimeseries (Some "id1") "temp" 121000 130000 1024].
Proof.
  split; [lia |]. split; [lia |].
  destruct (window_loop_terminates Examples.one_device (Some "id1") "temp" 1024
              1000 130000 1 ltac:(lia) ltac:(lia)) as [_ [_ [Hret [Hout [_ [Hf _]]]]]].
  split; [exact (proj1 (Hret 3%nat [] (le_n 3))) |].
  split; [exact (Hout 2%nat [] (le_n 3)) |].
  destruct (Hf "id1" 3%nat [] eq_refl (le_n 3)) as [ks [_ [_ [_ Hans]]]].
  exact (Hans (memory_client_answers _ _)).
Defined.

Section HeaderFacts.
Context `{PythonLib} {R : Type}.
Variable client : Client R.

Lemma written_rows_app (t1 t2 : list Event) :
  written_rows (t1 ++ t2) = (written_rows t1 ++ written_rows t2)%list.
Proof.
  induction t1 as [| e t1 IH]; [reflexivity |].
  destruct e; cbn; rewrite ?IH; reflexivity.
Qed.

Lemma file_after_no_open (t : list Event) (prior : list (list string)) :
  Forall (fun e => is_open e = false) t ->
  file_after prior t = (prior ++ map (map csv_cell) (written_rows t))%list.
Proof.
  intros Ht. revert prior. induction Ht as [| e t He Ht IH]; intros prior; cbn.
  - now rewrite app_nil_r.
  - destruct e; try discriminate; cbn; rewrite IH; try reflexivity.
    now rewrite <- app_assoc.
Qed.

Lemma export_devices_never_opens fuel start_ts end_ts names keys limit W :
  all_events (fun e => is_open e = false)
    (export_devices client fuel start_ts end_ts names keys limit W).
Proof.
  revert keys. induction names as [| name names IH]; intros keys; cbn [export_devices].
  - apply all_ret.
  - apply all_bind; [now apply all_get_device_id | intros id].
    apply all_bind; [now apply all_emit | intros _].
    apply all_bind.
    + destruct (py_not keys); [| apply all_ret].
      now apply all_get_all_keys.
    + intros keys'. apply all_bind.
      * apply all_window_loop. intros a b. now apply all_export_window.
      * intros _. apply all_bind; [now apply all_emit | intros _; apply IH].
Qed.

(** C9: every export run first opens the output file for writing, which
    truncates it, and writes the header row; only then come the device
    resolutions and the other remote calls.  Whatever the file held
    before, it then holds the header row followed by the rows of the
    run, so exactly the header row when the run writes no record. *)
Theorem export_writes_header_first (fuel : nat) (file_name : string)
    (start_ts end_ts : Z) (device_names : string) (keys : option string)
    (chunk_limit time_limit : Z) (st : R) :
  let r := export_timeseries client fuel file_name start_ts end_ts device_names keys
                             chunk_limit time_limit st in
  exists rest : list Event,
    events_of r = EvOpenWrite file_name :: EvWriteRow header :: rest /\
    (forall prior,
        file_after prior (events_of r)
        = ["deviceId"; "key"; "ts"; "value"; "type"]
            :: map (map csv_cell) (written_rows rest)) /\
    (written_rows rest = [] ->
     forall prior,
       file_after prior (events_of r) = [["deviceId"; "key"; "ts"; "value"; "type"]]).
Proof.
  intros r.
  set (devices := export_devices client fuel start_ts end_ts (split "," device_names)
                    keys chunk_limit (time_limit * 60 * 1000)).
  set (closing := match outcome_of (devices st) with
                  | OutOfFuel => []
                  | _ => [EvClose file_name]
                  end).
  assert (E : events_of r
              = EvOpenWrite file_name :: EvWriteRow header
                  :: (events_of (devices st) ++ closing)%list).
  { unfold r, export_timeseries, with_open_w. cbn. fold devices.
    unfold closing. destruct (outcome_of (devices st)); reflexivity. }
  assert (F : forall prior,
             file_after prior (events_of r)
             = ["deviceId"; "key"; "ts"; "value"; "type"]
                 :: map (map csv_cell)
                      (written_rows (events_of (devices st) ++ closing))).
  { intros prior. rewrite E. cbn [file_after app map header csv_cell].
    rewrite file_after_no_open; [reflexivity |].
    apply Forall_app. split.
    - apply export_devices_never_opens.
    - unfold closing. destruct (outcome_of (devices st)); repeat constructor. }
  exists (events_of (devices st) ++ closing)%list.
  split; [exact E |]. split; [exact F |].
  intros Hnone prior. rewrite F, Hnone. reflexivity.
Qed.
End HeaderFacts.

Lemma export_writes_header_first_witness :
  written_rows
    (events_of (export_timeseries Examples.down_client 1 "out.csv" 0 60000 "d1,d2"
                                  (Some "temp") 1024 1 [])) = [header] /\
  file_after [["stale"; "row"]]
    (events_of (export_timeseries Examples.down_client 1 "out.csv" 0 60000 "d1,d2"
                                  (Some "temp") 1024 1 []))
  = [["deviceId"; "key"; "ts"; "value"; "type"]].
Proof.
  split; [reflexivity |].
  destruct (export_writes_header_first Examples.down_client 1 "out.csv" 0 60000 "d1,d2"
              (Some "temp") 1024 1 []) as [rest [E [_ G]]].
  apply G. cbn in E. injection E as <-. reflexivity.
Defined.

(* ===================================================================== *)
(** ** Key discovery *)
(* ===================================================================== *)

Lemma split_aux_nonempty (sep : ascii) (s cur : string) : split_aux sep s cur <> [].
Proof.
  revert cur. induction s as [| c s IH]; intros cur; cbn; [discriminate |].
  destruct (Ascii.eqb c sep); [discriminate | apply IH].
Qed.

Section DiscoveryFacts.
Context `{PythonLib} {R : Type}.
Variable client : Client R.

(** The run of a device resolution, by the answer of the service. *)
Lemma get_device_id_run (device_name : string) (st : R) :
  get_device_id client device_name st
  = match fst (get_tenant_device client device_name st) with
    | Ok id =>
        mkRun (Returned (Some id)) (snd (get_tenant_device client device_name st))
              [EvGetTenantDevice device_name]
    | Raise e =>
        if isinstance e cls_ApiException
        then mkRun (Returned None) (snd (get_tenant_device client device_name st))
                   [EvGetTenantDevice device_name; EvLog ERROR]
        else mkRun (Raised e) (snd (get_tenant_device client device_name st))
                   [EvGetTenantDevice device_name]
    end.
Proof.
  unfold get_device_id, try_except, bind, call, ret, log, emit. cbn.
  destruct (fst (get_tenant_device client device_name st)) as [id | e]; cbn;
    [reflexivity |].
  destruct (isinstance e cls_ApiException); reflexivity.
Qed.

Lemma get_device_id_shape (device_name : string) (st : R) :
  exists pre,
    events_of (get_device_id client device_name st)
    = EvGetTenantDevice device_name :: pre /\
    Forall (fun e => is_log e = true) pre /\
    outcome_of (get_device_id client device_name st) <> OutOfFuel.
Proof.
  rewrite get_device_id_run.
  destruct (fst (get_tenant_device client device_name st)) as [id | e].
  - exists []. split; [reflexivity | split; [constructor | discriminate]].
  - destruct (isinstance e cls_ApiException).
    + exists [EvLog ERROR].
      split; [reflexivity | split; [repeat constructor | discriminate]].
    + exists []. split; [reflexivity | split; [constructor | discriminate]].
Qed.

(** The run of a key discovery for a resolved device, by the answer of
    the service. *)
Lemma get_all_keys_run (id : string) (st : R) :
  get_all_keys client (Some id) st
  = mkRun match fst (get_timeseries_keys_v1 client (Some id) st) with
          | Ok ks => Returned (join "," ks)
          | Raise e => Raised e
          end
          (snd (get_timeseries_keys_v1 client (Some id) st))
          [EvGetTimeseriesKeys (Some id)].
Proof.
  rewrite get_all_keys_resolved. unfold bind, call, ret. cbn.
  destruct (fst (get_timeseries_keys_v1 client (Some id) st)); reflexivity.
Qed.

Lemma after_discovery_log text l : after_discovery text (EvLog l).
Proof. split; [reflexivity | discriminate]. Qed.

(** Once the key text is set and not empty, no later event is a
    discovery and every later fetch asks for that text. *)
Lemma export_devices_after_discovery fuel start_ts end_ts names text limit W :
  text <> "" ->
  all_events (after_discovery text)
    (export_devices client fuel start_ts end_ts names (Some text) limit W).
Proof.
  intros Htext. apply all_export_devices_with_keys.
  - apply after_discovery_log.
  - intros z. split; [reflexivity | discriminate].
  - intros row. split; [reflexivity | discriminate].
  - exact Htext.
  - intros n. split; [reflexivity | discriminate].
  - intros id' a b. split; [reflexivity |]. cbn. intros k E. now inversion E.
Qed.

(** The run of the device loop when no key list is supplied and
    discovery never answers with an empty text, by the answers of the
    service to the resolution of the first name and to the discovery
    that follows it. *)
Lemma export_devices_discovery_shape (fuel : nat) (start_ts end_ts : Z)
    (d1 : string) (rest : list string) (keys : option string) (limit W : Z) (st : R) :
  py_not keys = true ->
  (forall id s ks s',
      get_timeseries_keys_v1 client id s = (Ok ks, s') -> join "," ks <> "") ->
  let r := export_devices client fuel start_ts end_ts (d1 :: rest) keys limit W st in
  match get_tenant_device client d1 st with
  | (Ok id, st1) =>
      match get_timeseries_keys_v1 client (Some id) st1 with
      | (Ok ks, _) =>
          exists post,
            events_of r
            = (EvGetTenantDevice d1 :: EvLog INFO :: EvGetTimeseriesKeys (Some id)
                 :: post)%list /\
            Forall (after_discovery (join "," ks)) post
      | (Raise e, _) =>
          events_of r
          = [EvGetTenantDevice d1; EvLog INFO; EvGetTimeseriesKeys (Some id)] /\
          outcome_of r = Raised e
      end
  | (Raise e, _) =>
      filter is_discovery (events_of r) = [] /\ exists e', outcome_of r = Raised e'
  end.
Proof.
  intros Hnot Hne r. unfold r. cbn [export_devices]. rewrite Hnot.
  pose proof (get_device_id_run d1 st) as Eg.
  destruct (get_tenant_device client d1 st) as [[id | e] st1] eqn:Et;
    cbn [fst snd] in Eg.
  - rewrite (bind_returned _ _ _ (Some id)) by (now rewrite Eg).
    rewrite Eg. cbn [outcome_of remote_of events_of].
    rewrite (bind_returned (log INFO) _ _ tt eq_refl).
    cbn [events_of outcome_of remote_of log emit].
    pose proof (get_all_keys_run id st1) as Ek.
    destruct (get_timeseries_keys_v1 client (Some id) st1) as [[ks | e] st2] eqn:Eks;
      cbn [fst snd] in Ek.
    + rewrite (bind_returned _ _ _ (join "," ks)) by (now rewrite Ek).
      rewrite Ek. cbn [outcome_of remote_of events_of].
      assert (Htext : join "," ks <> "") by (eapply Hne; exact Eks).
      match goal with
      | |- context [events_of (?m st2)] =>
          assert (Hpost : all_events (after_discovery (join "," ks)) m)
      end.
      { apply all_bind.
        - apply all_window_loop. intros a b. apply all_export_window.
          + apply after_discovery_log.
          + intros z. split; [reflexivity | discriminate].
          + intros row. split; [reflexivity | discriminate].
          + split; [reflexivity |]. cbn. intros k E. now inversion E.
        - intros _. apply all_bind; [apply all_emit, after_discovery_log | intros _].
          now apply export_devices_after_discovery. }
      eexists. split; [reflexivity | apply Hpost].
    + rewrite (bind_raised _ _ _ e) by (now rewrite Ek).
      rewrite Ek. cbn [outcome_of remote_of events_of]. split; reflexivity.
  - destruct (isinstance e cls_ApiException).
    + rewrite (bind_returned _ _ _ None) by (now rewrite Eg).
      rewrite Eg. cbn [outcome_of remote_of events_of].
      rewrite (bind_returned (log INFO) _ _ tt eq_refl).
      cbn [events_of outcome_of remote_of log emit].
      rewrite (bind_raised _ _ _ ValueError) by reflexivity.
      rewrite get_all_keys_unresolved. cbn [outcome_of remote_of events_of].
      split; [reflexivity | now exists ValueError].
    + rewrite (bind_raised _ _ _ e) by (now rewrite Eg).
      rewrite Eg. cbn [outcome_of remote_of events_of].
      split; [reflexivity | now exists e].
Qed.
End DiscoveryFacts.

Section DiscoveryOnce.
Context `{PythonLib} {R : Type}.
Variable client : Client R.

(** The events and the outcome of an export are those of its device
    loop, between the opening with the header and the closing. *)
Lemma export_timeseries_run (fuel : nat) (file_name : string) (start_ts end_ts : Z)
    (device_names : string) (keys : option string) (chunk_limit time_limit : Z) (st : R) :
  let devices := export_devices client fuel start_ts end_ts (split "," device_names)
                   keys chunk_limit (time_limit * 60 * 1000) st in
  let r := export_timeseries client fuel file_name start_ts end_ts device_names keys
                             chunk_limit time_limit st in
  outcome_of r = outcome_of devices /\
  exists closing,
    events_of r
    = (EvOpenWrite file_name :: EvWriteRow header :: events_of devices ++ closing)%list /\
    (closing = [] \/ closing = [EvClose file_name]).
Proof.
  intros devices r. unfold r, export_timeseries, with_open_w. cbn. fold devices.
  destruct (outcome_of devices); (split; [reflexivity |]);
    eexists; (split; [reflexivity |]); auto.
Qed.

Lemma no_discovery_in_logs (t : list Event) :
  Forall (fun e => is_log e = true) t -> filter is_discovery t = [].
Proof.
  induction 1 as [| e t He _ IH]; [reflexivity |].
  destruct e; try discriminate. cbn. exact IH.
Qed.

Lemma no_discovery_after (text : string) (t : list Event) :
  Forall (after_discovery text) t -> filter is_discovery t = [].
Proof.
  induction 1 as [| e t [He _] _ IH]; [reflexivity |].
  cbn. now rewrite He.
Qed.

End DiscoveryOnce.



(* ===================================================================== *)
(** ** Order of the exported records *)
(* ===================================================================== *)

Lemma strongly_sorted_app (l1 l2 : list Z) (m : Z) :
  StronglySorted Z.le l1 -> StronglySorted Z.le l2 ->
  Forall (fun t => t < m) l1 -> Forall (fun t => m <= t) l2 ->
  StronglySorted Z.le (l1 ++ l2).
Proof.
  intros S1 S2 B1 B2. induction S1 as [| x l1 S1 IH Hx]; [exact S2 |].
  inversion B1 as [| ? ? Bx B1']; subst.
  cbn. constructor; [now apply IH |].
  apply Forall_app. split; [exact Hx |].
  eapply Forall_impl; [| exact B2]. cbn. lia.
Qed.

Lemma response_ts_absent (key : string) (response : Response) :
  ~ In key (map fst response) -> response_ts key response = [].
Proof.
  induction response as [| [k pts] response IH]; [reflexivity |]. cbn.
  intros Hn. destruct (String.eqb_spec k key) as [-> | _]; [tauto |].
  apply IH. tauto.
Qed.

(** The timestamps of one key in a well-formed answer ascend and lie in
    the window. *)
Lemma response_ts_ascending (key : string) (start_ts end_ts : Z) (response : Response) :
  ascending_response start_ts end_ts response ->
  StronglySorted Z.le (response_ts key response) /\
  Forall (fun t => start_ts <= t < end_ts) (response_ts key response).
Proof.
  intros [Hnd Hall]. induction response as [| [k pts] response IH].
  - split; constructor.
  - cbn in Hnd. inversion Hnd as [| ? ? Hk Hnd']; subst.
    inversion Hall as [| ? ? [Hs Hw] Hall']; subst. cbn [fst snd] in *.
    unfold response_ts. cbn [flat_map fst snd]. fold (response_ts key response).
    destruct (String.eqb_spec k key) as [-> | _].
    + rewrite (response_ts_absent key response Hk), app_nil_r. split.
      * apply Sorted_StronglySorted; [exact Z.le_trans | exact Hs].
      * apply Forall_map. exact Hw.
    + now apply IH.
Qed.

Section RowFacts.
Context `{PythonLib} {R : Type}.
Variable client : Client R.

Lemma written_rows_none (t : list Event) :
  Forall (fun e => is_row e = false) t -> written_rows t = [].
Proof.
  induction 1 as [| e t He _ IH]; [reflexivity |].
  destruct e; try discriminate; exact IH.
Qed.

Lemma written_rows_logs (l : list LogLevel) : written_rows (map EvLog l) = [].
Proof. induction l as [| x l IH]; [reflexivity | exact IH]. Qed.

(** One data point becomes exactly one row, and leaves the remote state
    alone. *)
Lemma write_point_row (device_id : option string) (key : string) (dp : DataPoint)
    (st : R) :
  let r := write_point (R := R) device_id key dp st in
  outcome_of r = Returned tt /\ remote_of r = st /\
  written_rows (events_of r) = [data_row device_id key dp].
Proof.
  destruct (infer_never_raises (dp_value dp)) as [[v tag] Ev].
  unfold write_point, bind, lift, emit, data_row, inferred. cbn. rewrite Ev. cbn.
  split; [reflexivity |]. split; [reflexivity |].
  now rewrite written_rows_app, written_rows_logs.
Qed.

Lemma write_points_rows (device_id : option string) (key : string)
    (pts : list DataPoint) (st : R) :
  let r := for_each pts (write_point (R := R) device_id key) st in
  outcome_of r = Returned tt /\ remote_of r = st /\
  written_rows (events_of r) = map (data_row device_id key) pts.
Proof.
  induction pts as [| dp pts IH]; cbn [for_each].
  - cbn. repeat split.
  - destruct (write_point_row device_id key dp st) as [Eo [Er Ew]].
    rewrite (bind_returned _ _ _ tt Eo). cbn [outcome_of remote_of events_of].
    rewrite Er. destruct IH as [IHo [IHr IHw]].
    split; [exact IHo |]. split; [exact IHr |].
    now rewrite written_rows_app, Ew, IHw.
Qed.

Lemma write_response_rows (device_id : option string) (response : Response) (st : R) :
  let r := for_each response
             (fun kv => for_each (snd kv) (write_point (R := R) device_id (fst kv))) st in
  outcome_of r = Returned tt /\ remote_of r = st /\
  written_rows (events_of r) = response_rows device_id response.
Proof.
  induction response as [| [key pts] response IH]; cbn [for_each].
  - cbn. repeat split.
  - destruct (write_points_rows device_id key pts st) as [Eo [Er Ew]].
    cbn [fst snd].
    rewrite (bind_returned _ _ _ tt Eo). cbn [outcome_of remote_of events_of].
    rewrite Er. destruct IH as [IHo [IHr IHw]].
    split; [exact IHo |]. split; [exact IHr |].
    rewrite written_rows_app, Ew, IHw. reflexivity.
Qed.

(** The retry wrapper writes no row, and what it returns was answered
    by the service. *)
Lemma retry_call_run {A} (k : nat) (wait_fixed : Z) (ev : Event)
    (f : R -> result A * R) (st : R) :
  is_row ev = false ->
  let r := retry_from k wait_fixed (call ev f) st in
  written_rows (events_of r) = [] /\
  forall a, outcome_of r = Returned a -> exists s1 s2, f s1 = (Ok a, s2).
Proof.
  intros Hev. revert st. induction k as [| k IH]; intros st; cbn [retry_from].
  - unfold try_except, call, raise. cbn.
    destruct (f st) as [[a | e] s2] eqn:E; cbn.
    + split; [destruct ev; try discriminate; reflexivity |].
      intros a' Ea. inversion Ea; subst. now exists st, s2.
    + split; [destruct ev; try discriminate; reflexivity | discriminate].
  - unfold try_except, call. cbn.
    destruct (f st) as [[a | e] s2] eqn:E; cbn.
    + split; [destruct ev; try discriminate; reflexivity |].
      intros a' Ea. inversion Ea; subst. now exists st, s2.
    + destruct (IH s2) as [IHw IHr].
      unfold bind, emit. cbn.
      split; [destruct ev; try discriminate; cbn; exact IHw |].
      intros a Ea. apply IHr. exact Ea.
Qed.

(** One run of the body of the window loop for a resolved device: it
    returns; the rows it writes are those of the answer to its fetch,
    key by key, and none when the fetch fails. *)
Lemma export_window_written (id keys : string) (chunk_limit cs ce : Z) (st : R) :
  let f := fetch_timeseries client (Some id) keys cs ce chunk_limit st in
  let r := export_window client (Some id) keys chunk_limit cs ce st in
  outcome_of r = Returned tt /\
  remote_of r = remote_of f /\
  (forall response,
      outcome_of f = Returned response ->
      written_rows (events_of r) = response_rows (Some id) response) /\
  (forall e,
      outcome_of f = Raised e ->
      events_of r = (events_of f ++ [EvLog ERROR])%list /\
      written_rows (events_of r) = []).
Proof.
  cbn zeta. rewrite export_window_resolved.
  set (fetch := fetch_timeseries client (Some id) keys cs ce chunk_limit).
  assert (Hrows : written_rows (events_of (fetch st)) = []).
  { exact (proj1 (retry_call_run 2 2 (EvGetTimeseries (Some id) keys cs ce chunk_limit)
                    (get_timeseries client (Some id) keys cs ce chunk_limit) st eq_refl)). }
  pose proof (nof_fetch_timeseries client (Some id) keys cs ce chunk_limit st) as Hnof.
  fold fetch in Hnof.
  unfold try_except.
  destruct (outcome_of (fetch st)) as [response | e |] eqn:Ef; [| | contradiction].
  - rewrite (bind_returned _ _ _ response Ef). cbn [outcome_of remote_of events_of].
    destruct (write_response_rows (Some id) response (remote_of (fetch st)))
      as [Wo [Wr Ww]].
    rewrite (bind_returned _ _ _ tt Wo). cbn [outcome_of remote_of events_of].
    rewrite Wr.
    assert (Elog : outcome_of ((if total_fetched response >? 0
                                then log INFO else ret tt) (remote_of (fetch st)))
                   = Returned tt /\
                   remote_of ((if total_fetched response >? 0
                               then log INFO else ret tt) (remote_of (fetch st)))
                   = remote_of (fetch st) /\
                   written_rows (events_of ((if total_fetched response >? 0
                                             then log INFO else ret tt)
                                              (remote_of (fetch st)))) = []).
    { destruct (_ >? _); repeat split. }
    destruct Elog as [Lo [Lr Lw]]. rewrite Lo. cbn [outcome_of remote_of events_of].
    split; [reflexivity |]. split; [exact Lr |]. split; [| intros e E; discriminate].
    intros response' E. inversion E; subst response'.
    now rewrite !written_rows_app, Hrows, Lw, app_nil_r.
  - rewrite (bind_raised _ _ _ e Ef). cbn [outcome_of remote_of events_of].
    rewrite isinstance_Exception. cbn [outcome_of remote_of events_of log emit].
    split; [reflexivity |]. split; [reflexivity |]. split; [intros ? E; discriminate |].
    intros e' _. split; [reflexivity |]. now rewrite written_rows_app, Hrows.
Qed.
End RowFacts.

Section OrderFacts.
Context `{PythonLib} {R : Type}.
Variable client : Client R.
Variables device key : string.

Local Notation "'tsk' t" := (ts_of_device_key device key (written_rows t))
  (at level 10, t at level 9).

Lemma device_ts_app (t1 t2 : list Event) : tsk (t1 ++ t2) = (tsk t1 ++ tsk t2)%list.
Proof. rewrite written_rows_app. apply flat_map_app. Qed.

Lemma device_ts_none (t : list Event) :
  Forall (fun e => is_row e = false) t -> tsk t = [].
Proof. intros Ht. now rewrite written_rows_none. Qed.

(** The timestamps of [device] and [key] among the rows of an answer for
    the device [id]. *)
Lemma response_rows_device_ts (id : string) (response : Response) :
  ts_of_device_key device key (response_rows (Some id) response)
  = if String.eqb id device then response_ts key response else [].
Proof.
  unfold response_rows, response_ts, ts_of_device_key.
  induction response as [| [k pts] response IH]; cbn [flat_map fst snd].
  - now destruct (String.eqb id device).
  - rewrite flat_map_app, IH.
    assert (E : flat_map (device_row_ts device key) (map (data_row (Some id) k) pts)
                = if String.eqb id device && String.eqb k key then map dp_ts pts else []).
    { induction pts as [| dp pts IHp]; cbn [map flat_map].
      - now destruct (_ && _).
      - rewrite IHp. unfold data_row at 1. cbn [device_row_ts id_value].
        now destruct (String.eqb id device && String.eqb k key). }
    rewrite E. destruct (String.eqb id device); cbn [andb]; reflexivity.
Qed.

(** The rows of one window for [device] and [key] are those of the
    answer to its fetch, or none. *)
Lemma export_window_device_ts (device_id : option string) (keys : string)
    (chunk_limit cs ce : Z) (st : R) :
  let t := tsk (events_of (export_window client device_id keys chunk_limit cs ce st)) in
  t = [] \/
  (device_id = Some device /\
   exists response s1 s2,
     get_timeseries client (Some device) keys cs ce chunk_limit s1 = (Ok response, s2) /\
     t = response_ts key response).
Proof.
  cbn zeta. destruct device_id as [id |]; [| now left].
  destruct (export_window_written client id keys chunk_limit cs ce st)
    as [_ [_ [Hret Hraise]]].
  pose proof (nof_fetch_timeseries client (Some id) keys cs ce chunk_limit st) as Hnof.
  destruct (outcome_of (fetch_timeseries client (Some id) keys cs ce chunk_limit st))
    as [response | e |] eqn:Ef; [| | contradiction].
  - rewrite (Hret response eq_refl), response_rows_device_ts.
    destruct (String.eqb_spec id device) as [-> | _]; [| now left].
    right. split; [reflexivity |].
    destruct (proj2 (retry_call_run 2 2
                       (EvGetTimeseries (Some device) keys cs ce chunk_limit)
                       (get_timeseries client (Some device) keys cs ce chunk_limit)
                       st eq_refl) response Ef) as [s1 [s2 Es]].
    now exists response, s1, s2.
  - left. now rewrite (proj2 (Hraise e eq_refl)).
Qed.

(** The window loop of another device writes nothing for [device]. *)
Lemma window_loop_other_device (device_id : option string) (keys : string)
    (chunk_limit W e : Z) :
  device_id <> Some device ->
  forall fuel s st,
    tsk (events_of (window_loop fuel (export_window client device_id keys chunk_limit)
                                W e s st)) = [].
Proof.
  intros Hd. induction fuel as [| fuel IH]; intros s st; cbn [window_loop].
  - now destruct (s <? e).
  - destruct (s <? e); [| reflexivity].
    rewrite bind_events, device_ts_app.
    destruct (export_window_device_ts device_id keys chunk_limit s
                (Z.min (s + W) e) st) as [-> | [Ed _]]; [| contradiction].
    destruct (outcome_of _); [apply IH | reflexivity | reflexivity].
Qed.

(** Along the window loop the timestamps written for [device] and [key]
    ascend, and none precedes the start of the loop. *)
Lemma window_loop_rows_sorted (device_id : option string) (keys : string)
    (chunk_limit W e : Z) :
  0 < W ->
  ascending_client client ->
  forall fuel s st,
    let t := tsk (events_of (window_loop fuel
                               (export_window client device_id keys chunk_limit)
                               W e s st)) in
    StronglySorted Z.le t /\ Forall (fun x => s <= x) t.
Proof.
  intros HW Hasc. induction fuel as [| fuel IH]; intros s st; cbn zeta;
    cbn [window_loop].
  - destruct (s <? e); cbn; split; constructor.
  - destruct (Z.ltb_spec s e) as [Hlt | Hge]; [| cbn; split; constructor].
    set (ce := Z.min (s + W) e).
    assert (Hce : s < ce) by (unfold ce; lia).
    destruct (export_window_returns client device_id keys chunk_limit s ce st) as [[] Eo].
    rewrite (bind_returned _ _ _ tt Eo). cbn [events_of].
    rewrite device_ts_app.
    destruct (IH ce (remote_of (export_window client device_id keys chunk_limit s ce st)))
      as [IHs IHb].
    assert (Hw : StronglySorted Z.le
                   (tsk (events_of
                      (export_window client device_id keys chunk_limit s ce st))) /\
                 Forall (fun x => s <= x < ce)
                   (tsk (events_of
                      (export_window client device_id keys chunk_limit s ce st)))).
    { destruct (export_window_device_ts device_id keys chunk_limit s ce st)
        as [-> | [_ [response [s1 [s2 [Es ->]]]]]].
      - split; constructor.
      - apply response_ts_ascending. eapply Hasc. exact Es. }
    destruct Hw as [Hs Hb]. split.
    + apply (strongly_sorted_app _ _ ce); try assumption.
      eapply Forall_impl; [| exact Hb]. cbn. lia.
    + apply Forall_app. split.
      * eapply Forall_impl; [| exact Hb]. cbn. lia.
      * eapply Forall_impl; [| exact IHb]. cbn. lia.
Qed.

(** What one pass of the device loop writes for [device] and [key]: the
    rows of the window loop of its first name, then what the passes for
    the other names write. *)
Lemma export_devices_step (fuel : nat) (start_ts end_ts : Z) (name : string)
    (names : list string) (keys : option string) (limit W : Z) (st : R) :
  let t := tsk (events_of (export_devices client fuel start_ts end_ts (name :: names)
                                          keys limit W st)) in
  let device_id := match fst (get_tenant_device client name st) with
                   | Ok id => Some id
                   | Raise _ => None
                   end in
  t = [] \/
  exists keys' st' tail,
    t = (tsk (events_of (window_loop fuel (export_window client device_id keys' limit)
                                     W end_ts start_ts st')) ++ tail)%list /\
    (tail = [] \/
     exists keys'' st'',
       tail = tsk (events_of (export_devices client fuel start_ts end_ts names
                                             keys'' limit W st''))).
Proof.
  cbn zeta. cbn [export_devices]. rewrite bind_events, device_ts_app.
  rewrite get_device_id_run.
  set (st1 := snd (get_tenant_device client name st)).
  assert (Hgo : forall device_id,
             let t := tsk (events_of
                        ((log INFO ;;;
                          keys' <- (if py_not keys then get_all_keys client device_id
                                    else ret (text_of keys)) ;;
                          window_loop fuel (export_window client device_id keys' limit)
                                      W end_ts start_ts ;;;
                          log INFO ;;;
                          export_devices client fuel start_ts end_ts names (Some keys')
                                         limit W) st1)) in
             t = [] \/
             exists keys' st' tail,
               t = (tsk (events_of (window_loop fuel
                                      (export_window client device_id keys' limit)
                                      W end_ts start_ts st')) ++ tail)%list /\
               (tail = [] \/
                exists keys'' st'',
                  tail = tsk (events_of (export_devices client fuel start_ts end_ts names
                                                        keys'' limit W st'')))).
  { intros device_id. cbn zeta.
    rewrite bind_events. cbn [log emit outcome_of remote_of events_of].
    rewrite device_ts_app. cbn [written_rows ts_of_device_key flat_map app].
    rewrite bind_events, device_ts_app.
    set (discovery := if py_not keys then get_all_keys client device_id
                      else ret (text_of keys)).
    assert (Hd : tsk (events_of (discovery st1)) = []).
    { apply device_ts_none. unfold discovery.
      destruct (py_not keys); [| constructor].
      now apply all_get_all_keys. }
    rewrite Hd. cbn [app].
    destruct (outcome_of (discovery st1)) as [keys' | |]; [| now left | now left].
    right. exists keys', (remote_of (discovery st1)).
    rewrite bind_events, device_ts_app. eexists. split; [reflexivity |].
    destruct (outcome_of (window_loop _ _ _ _ _ _)); [| now left | now left].
    right. rewrite bind_events. cbn [log emit outcome_of remote_of events_of].
    rewrite device_ts_app. cbn [written_rows ts_of_device_key flat_map app].
    eexists _, _. reflexivity. }
  destruct (fst (get_tenant_device client name st)) as [id | e].
  - cbn [outcome_of remote_of events_of written_rows ts_of_device_key flat_map app].
    apply Hgo.
  - destruct (isinstance e cls_ApiException).
    + cbn [outcome_of remote_of events_of written_rows ts_of_device_key flat_map app].
      apply Hgo.
    + now left.
Qed.

(** Names none of which resolves to [device] write nothing for it. *)
Lemma export_devices_other_devices (fuel : nat) (start_ts end_ts : Z)
    (names : list string) (limit W : Z) :
  (forall n s, In n names -> fst (get_tenant_device client n s) <> Ok device) ->
  forall keys st,
    tsk (events_of (export_devices client fuel start_ts end_ts names keys limit W st))
    = [].
Proof.
  induction names as [| name names IH]; intros Hn keys st; [reflexivity |].
  destruct (export_devices_step fuel start_ts end_ts name names keys limit W st)
    as [E | [keys' [st' [tail [E Htail]]]]]; [exact E |].
  rewrite E, window_loop_other_device.
  - destruct Htail as [-> | [keys'' [st'' ->]]]; [reflexivity |].
    apply IH. intros n s Hin. apply Hn. now right.
  - specialize (Hn name st (or_introl eq_refl)).
    destruct (fst (get_tenant_device client name st)); congruence.
Qed.

(** Over a whole pass of the device loop the timestamps written for
    [device] and [key] ascend, when no device is exported twice. *)
Lemma export_devices_rows_sorted (fuel : nat) (start_ts end_ts : Z)
    (names : list string) (limit W : Z) :
  0 < W ->
  ascending_client client ->
  distinct_devices client ->
  NoDup names ->
  forall keys st,
    StronglySorted Z.le
      (tsk (events_of (export_devices client fuel start_ts end_ts names keys limit W st))).
Proof.
  intros HW Hasc Hdist. induction names as [| name names IH]; intros Hnd keys st;
    [constructor |].
  inversion Hnd as [| ? ? Hname Hnd']; subst.
  destruct (export_devices_step fuel start_ts end_ts name names keys limit W st)
    as [E | [keys' [st' [tail [E Htail]]]]]; [rewrite E; constructor |].
  rewrite E. clear E.
  destruct (fst (get_tenant_device client name st)) as [id | e] eqn:Et.
  - destruct (String.eqb_spec id device) as [-> | Hid].
    + assert (Hrest : tail = []).
      { destruct Htail as [-> | [keys'' [st'' ->]]]; [reflexivity |].
        apply export_devices_other_devices. intros n s Hin En.
        apply Hname. now rewrite (Hdist name n st s device Et En). }
      rewrite Hrest, app_nil_r.
      now apply window_loop_rows_sorted.
    + rewrite window_loop_other_device by congruence. cbn [app].
      destruct Htail as [-> | [keys'' [st'' ->]]]; [constructor | now apply IH].
  - rewrite window_loop_other_device by discriminate. cbn [app].
    destruct Htail as [-> | [keys'' [st'' ->]]]; [constructor | now apply IH].
Qed.

End OrderFacts.

Section MemoryClient.
Import Examples.

Lemma lookup_In {V} (k : string) (d : list (string * V)) (v : V) :
  lookup k d = Some v -> In (k, v) d.
Proof.
  induction d as [| [k' v'] d IH]; cbn; [discriminate |].
  destruct (String.eqb_spec k' k) as [-> | _].
  - intros E. inversion E. now left.
  - intros E. right. now apply IH.
Qed.

Lemma NoDup_keys_filter {V} (f : string * V -> bool) (d : list (string * V)) :
  NoDup (map fst d) -> NoDup (map fst (filter f d)).
Proof.
  induction d as [| kv d IH]; cbn; [constructor |].
  intros Hnd. inversion Hnd as [| ? ? Hk Hnd']; subst.
  destruct (f kv); cbn; [constructor |]; try now apply IH.
  intros Hin. apply Hk. apply in_map_iff in Hin. destruct Hin as [x [Ex Hx]].
  apply filter_In in Hx. apply in_map_iff. exists x.
  split; [exact Ex | exact (proj1 Hx)].
Qed.

Lemma strongly_sorted_filter (f : DataPoint -> bool) (l : list DataPoint) :
  StronglySorted Z.le (map dp_ts l) -> StronglySorted Z.le (map dp_ts (filter f l)).
Proof.
  induction l as [| x l IH]; cbn; [constructor |].
  intros Hs. inversion Hs as [| ? ? Hs' Hx]; subst.
  destruct (f x); cbn; [| now apply IH].
  constructor; [now apply IH |].
  rewrite Forall_map in *.
  apply Forall_forall. intros y Hy. apply filter_In in Hy.
  rewrite Forall_forall in Hx. apply Hx. exact (proj1 Hy).
Qed.

Lemma In_firstn {A} (n : nat) (l : list A) (x : A) : In x (firstn n l) -> In x l.
Proof.
  revert l. induction n as [| n IH]; intros [| y l]; cbn; try tauto.
  intros [E | Hin]; [now left | right; now apply IH].
Qed.

Lemma strongly_sorted_firstn (n : nat) (l : list DataPoint) :
  StronglySorted Z.le (map dp_ts l) -> StronglySorted Z.le (map dp_ts (firstn n l)).
Proof.
  revert l. induction n as [| n IH]; intros [| x l] Hs; cbn; try constructor;
    inversion Hs as [| ? ? Hs' Hx]; subst.
  - now apply IH.
  - rewrite Forall_map in *.
    apply Forall_forall. intros y Hy. apply In_firstn in Hy.
    rewrite Forall_forall in Hx. now apply Hx.
Qed.

(** A service with ascending stored series answers every fetch with
    ascending series inside the window. *)
Lemma memory_client_ascending (devices : list (string * string)) (store : Store) :
  store_ascending store -> ascending_client (memory_client devices store).
Proof.
  intros Hstore [id |] keys start_ts end_ts limit st response st'; cbn;
    [| discriminate].
  intros E. inversion E; subst st'. clear E.
  set (series := match lookup id store with Some d => d | None => [] end).
  assert (Hseries : NoDup (map fst series) /\
                    Forall (fun kv => Sorted Z.le (map dp_ts (snd kv))) series).
  { unfold series. destruct (lookup id store) as [d |] eqn:El.
    - apply lookup_In in El. unfold store_ascending in Hstore.
      rewrite Forall_forall in Hstore. exact (Hstore _ El).
    - split; constructor. }
  destruct Hseries as [Hnd Hsorted]. split.
  - rewrite map_map. cbn [fst]. now apply NoDup_keys_filter.
  - apply Forall_map. apply Forall_forall. intros kv Hkv.
    apply filter_In in Hkv. destruct Hkv as [Hkv _].
    rewrite Forall_forall in Hsorted. specialize (Hsorted kv Hkv). cbn [snd]. split.
    + apply StronglySorted_Sorted, strongly_sorted_firstn, strongly_sorted_filter.
      apply Sorted_StronglySorted; [exact Z.le_trans | exact Hsorted].
    + apply Forall_forall. intros pt Hpt. apply In_firstn, filter_In in Hpt.
      destruct Hpt as [_ Hw]. unfold in_window in Hw.
      apply andb_true_iff in Hw. lia.
Qed.

Lemma two_keys_ascending : ascending_client two_keys.
Proof.
  apply memory_client_ascending. repeat constructor; cbn; try lia; intuition discriminate.
Qed.

Lemma two_devices_ascending : ascending_client two_devices.
Proof.
  apply memory_client_ascending. repeat constructor; cbn; try lia; intuition discriminate.
Qed.

Lemma two_devices_distinct : distinct_devices two_devices.
Proof.
  intros n1 n2 s1 s2 id. cbn -[String.eqb].
  destruct (String.eqb_spec "d1" n1) as [A1 | _];
    destruct (String.eqb_spec "d1" n2) as [A2 | _];
    destruct (String.eqb_spec "d2" n1) as [B1 | _];
    destruct (String.eqb_spec "d2" n2) as [B2 | _];
    cbn; intros E1 E2; congruence.
Qed.
End MemoryClient.



(* ===================================================================== *)
(** ** Round trip of the scalar tags *)
(* ===================================================================== *)

Lemma digitpart_string_of_uint (d : Decimal.uint) (acc : Z) (after_digit : bool) :
  d <> Decimal.Nil \/ after_digit = true ->
  Python.digitpart (NilEmpty.string_of_uint d) acc after_digit
  = Some (decimal_value d acc).
Proof.
  revert acc after_digit.
  induction d as [| d IH | d IH | d IH | d IH | d IH | d IH | d IH | d IH | d IH | d IH];
    intros acc after_digit Hd;
    try (cbn [NilEmpty.string_of_uint decimal_value Python.digitpart];
         change (Python.is_digit _) with true; cbn iota;
         rewrite IH by (now right); reflexivity).
  cbn. destruct Hd as [Hd | ->]; [congruence | reflexivity].
Qed.

Ltac eval_digits :=
  repeat match goal with
         | |- context [Python.digit_val ?c] =>
             let v := eval vm_compute in (Python.digit_val c) in
             change (Python.digit_val c) with v
         end.

Lemma decimal_value_pos (d : Decimal.uint) (acc : positive) :
  decimal_value d (Z.pos acc) = Z.pos (Pos.of_uint_acc d acc).
Proof.
  revert acc. induction d; intros acc; cbn [decimal_value Pos.of_uint_acc];
    try reflexivity;
    match goal with
    | |- decimal_value _ ?a = Z.pos (Pos.of_uint_acc _ ?b) =>
        replace a with (Z.pos b) by (eval_digits; lia)
    end; apply IHd.
Qed.

Lemma decimal_value_of_uint (d : Decimal.uint) : decimal_value d 0 = Z.of_uint d.
Proof.
  unfold Z.of_uint.
  induction d; cbn [decimal_value Pos.of_uint]; try reflexivity;
    try (change (10 * 0 + Python.digit_val "0") with 0; exact IHd);
    eval_digits; apply decimal_value_pos.
Qed.

Lemma lstrip_id (s : string) :
  (forall c, In c (list_ascii_of_string s) -> Python.is_space c = false) ->
  Python.lstrip s = s.
Proof.
  destruct s as [| c s]; [reflexivity |]. intros Hs. cbn.
  now rewrite (Hs c (or_introl eq_refl)).
Qed.

(** Text without white space is its own [strip]. *)
Lemma strip_id (s : string) :
  (forall c, In c (list_ascii_of_string s) -> Python.is_space c = false) ->
  Python.strip s = s.
Proof.
  intros Hs. unfold Python.strip. rewrite (lstrip_id s Hs).
  rewrite lstrip_id.
  - unfold Python.rev_string.
    now rewrite list_ascii_of_string_of_list_ascii, rev_involutive,
      string_of_list_ascii_of_string.
  - intros c Hc. unfold Python.rev_string in Hc.
    rewrite list_ascii_of_string_of_list_ascii in Hc. apply in_rev in Hc. now apply Hs.
Qed.

Lemma string_of_uint_no_space (d : Decimal.uint) (c : ascii) :
  In c (list_ascii_of_string (NilEmpty.string_of_uint d)) -> Python.is_space c = false.
Proof.
  induction d; cbn [NilEmpty.string_of_uint list_ascii_of_string In];
    try tauto; intros [<- | Hc]; try reflexivity; now apply IHd.
Qed.

Lemma to_uint_not_nil (p : positive) : Pos.to_uint p <> Decimal.Nil.
Proof.
  intros E. pose proof (DecimalPos.Unsigned.of_to p) as Hp. rewrite E in Hp.
  discriminate.
Qed.

Lemma py_int_digits (p : positive) :
  Python.digitpart (NilEmpty.string_of_uint (Pos.to_uint p)) 0 false = Some (Z.pos p).
Proof.
  rewrite digitpart_string_of_uint by (left; apply to_uint_not_nil).
  rewrite decimal_value_of_uint. unfold Z.of_uint.
  now rewrite DecimalPos.Unsigned.of_to.
Qed.

Lemma signed_digits (d : Decimal.uint) :
  Python.signed (NilEmpty.string_of_uint d) = (false, NilEmpty.string_of_uint d).
Proof. destruct d; reflexivity. Qed.

Lemma count_digits_string_of_uint (d : Decimal.uint) :
  Python.count_digits (NilEmpty.string_of_uint d) = Z.of_nat (Decimal.nb_digits d).
Proof.
  induction d; cbn [NilEmpty.string_of_uint Python.count_digits Decimal.nb_digits];
    [reflexivity | ..];
    change (Python.is_digit _) with true; cbn iota; rewrite IHd; lia.
Qed.

(** [int(str(z)) == z] for every [int] whose decimal has no more digits
    than [int] accepts. *)
Lemma py_int_str_of_int (z : Z) :
  Python.count_digits (str_of_int z) <= Python.max_str_digits ->
  Python.py_int (str_of_int z) = Ok z.
Proof.
  unfold Python.py_int, str_of_int. destruct z as [| p | p]; [reflexivity | |];
    cbn [Z.to_int NilZero.string_of_int]; unfold NilZero.string_of_uint;
    pose proof (to_uint_not_nil p) as Hnil;
    destruct (Pos.to_uint p) as [| d | d | d | d | d | d | d | d | d | d] eqn:Ep;
    try congruence; rewrite <- Ep; intros Hc.
  all: try (rewrite strip_id by apply string_of_uint_no_space;
            rewrite signed_digits, py_int_digits;
            destruct (Z.ltb_spec Python.max_str_digits
                        (Python.count_digits (NilEmpty.string_of_uint (Pos.to_uint p))));
            [lia | reflexivity]).
  all: rewrite strip_id
    by (intros c [<- | Hin]; [reflexivity | now apply (string_of_uint_no_space _ _ Hin)]);
    cbn [Python.signed]; rewrite py_int_digits;
    cbn [Python.count_digits] in Hc; change (Python.is_digit "-") with false in Hc;
    cbn iota in Hc;
    destruct (Z.ltb_spec Python.max_str_digits
                (Python.count_digits (NilEmpty.string_of_uint (Pos.to_uint p))));
    [lia | reflexivity].
Qed.

Lemma decimal_value_digit_cons (c : ascii) (d : Decimal.uint) (acc : Z) :
  Python.is_digit c = true ->
  decimal_value (digit_cons c d) acc = decimal_value d (10 * acc + Python.digit_val c) /\
  Decimal.nb_digits (digit_cons c d) = S (Decimal.nb_digits d).
Proof.
  destruct c as [[] [] [] [] [] [] [] []]; try discriminate; intros _; split; reflexivity.
Qed.

(** What [digitpart] accepts has the value of its digits, and as many
    digits as are counted. *)
Lemma digitpart_value (s : string) (acc : Z) (after_digit : bool) (z : Z) :
  Python.digitpart s acc after_digit = Some z ->
  z = decimal_value (digits_of s) acc /\
  Python.count_digits s = Z.of_nat (Decimal.nb_digits (digits_of s)).
Proof.
  revert acc after_digit. induction s as [| c s IH]; intros acc after_digit;
    cbn [Python.digitpart digits_of Python.count_digits].
  - destruct after_digit; [| discriminate]. intros E. inversion E. now split.
  - destruct (Python.is_digit c) eqn:Ec.
    + intros E. destruct (IH _ _ E) as [Ez Ecount].
      destruct (decimal_value_digit_cons c (digits_of s) acc Ec) as [Ev En].
      rewrite Ev, En, Ecount. split; [exact Ez | lia].
    + destruct (Ascii.eqb c "_" && after_digit); [| discriminate].
      intros E. destruct (IH _ _ E) as [Ez Ecount]. split; [exact Ez | lia].
Qed.

(** The decimal of a value has no more digits than a text it was read
    from. *)
Lemma nb_digits_to_uint (d : Decimal.uint) (p : positive) :
  Z.of_uint d = Z.pos p ->
  (Decimal.nb_digits (Pos.to_uint p) <= Decimal.nb_digits d)%nat.
Proof.
  unfold Z.of_uint. intros E.
  destruct (Pos.of_uint d) as [| q] eqn:Eq; [discriminate |].
  cbn in E. inversion E; subst q.
  pose proof (DecimalPos.Unsigned.to_of d) as Hto. rewrite Eq in Hto. cbn in Hto.
  rewrite Hto. apply DecimalFacts.nb_digits_unorm.
  intros ->. discriminate.
Qed.

(** [int] reads the decimal of every value it gave. *)
Lemma py_int_canonical (t : string) (z : Z) :
  Python.py_int t = Ok z -> Python.py_int (str_of_int z) = Ok z.
Proof.
  unfold Python.py_int at 1.
  destruct (Python.signed (Python.strip t)) as [neg digits].
  destruct (Python.digitpart digits 0 false) as [v |] eqn:Ed; [| discriminate].
  destruct (Z.ltb_spec Python.max_str_digits (Python.count_digits digits)) as [| Hc];
    [discriminate |].
  intros E. inversion E; subst z. clear E.
  destruct (digitpart_value _ _ _ _ Ed) as [Ev En].
  rewrite decimal_value_of_uint in Ev. rewrite En in Hc.
  apply py_int_str_of_int.
  assert (Hv : forall p, v = Z.pos p ->
               Python.count_digits (NilEmpty.string_of_uint (Pos.to_uint p))
               <= Python.max_str_digits).
  { intros p Ep. rewrite count_digits_string_of_uint.
    pose proof (nb_digits_to_uint (digits_of digits) p ltac:(congruence)). lia. }
  assert (Hnn : 0 <= v).
  { rewrite Ev. unfold Z.of_uint. destruct (Pos.of_uint _); cbn; lia. }
  unfold str_of_int.
  destruct v as [| p | p]; [destruct neg; now vm_compute | | lia].
  destruct neg; cbn [Z.opp Z.to_int NilZero.string_of_int].
  - unfold NilZero.string_of_uint.
    destruct (Pos.to_uint p) eqn:Ep; rewrite <- ?Ep;
      try (exfalso; now apply (to_uint_not_nil p));
      cbn [Python.count_digits]; change (Python.is_digit "-") with false; cbn iota;
      rewrite Z.add_0_l; now apply Hv.
  - unfold NilZero.string_of_uint.
    destruct (Pos.to_uint p) eqn:Ep; rewrite <- ?Ep;
      try (exfalso; now apply (to_uint_not_nil p)); now apply Hv.
Qed.

Section RoundTrip.
Context `{PythonLib}.

(** The round trip on the scalar tags: what the export writes for a
    value inferred as boolean, int or string is decoded by the import to
    that value. *)
Lemma round_trip_scalar_tags (t : string) (v : Value) (tag : TypeTag) :
  raises_only int_of_str cls_ValueError ->
  raises_only float_of_str cls_ValueError ->
  (forall z, int_of_str t = Ok z -> int_of_str (str_of_int z) = Ok z) ->
  fst (infer_type_and_convert t) = Ok (v, tag) ->
  tag = boolean \/ tag = int \/ tag = string_tag ->
  decode (csv_cell v) (tag_name tag) = Ok (Some v).
Proof.
  intros Hint Hfloat Hstr E Htag.
  unfold infer_type_and_convert, infer_body, try_return in E.
  destruct (String.eqb (lower t) "true"); [inversion E; reflexivity |].
  destruct (String.eqb (lower t) "false"); [inversion E; reflexivity |].
  destruct (int_of_str t) as [z | e1] eqn:Ei.
  { inversion E; subst. unfold decode. cbn. now rewrite (Hstr z eq_refl). }
  rewrite (Hint _ _ Ei) in E.
  destruct (float_of_str t) as [f | e2] eqn:Ef.
  { inversion E; subst. destruct Htag as [T | [T | T]]; discriminate. }
  rewrite (Hfloat _ _ Ef) in E.
  destruct (json_loads (replace "'" "034" t)) as [j | e3].
  { inversion E; subst. destruct Htag as [T | [T | T]]; discriminate. }
  destruct (isinstance e3 cls_JSONDecodeError); [inversion E; subst; reflexivity |].
  rewrite isinstance_Exception in E. inversion E; subst. reflexivity.
Qed.
End RoundTrip.

(** With the concrete builtins the scalar round trip needs no
    assumption. *)
Lemma round_trip_scalar_tags_python (t : string) (v : Value) (tag : TypeTag) :
  fst (infer_type_and_convert t) = Ok (v, tag) ->
  tag = boolean \/ tag = int \/ tag = string_tag ->
  decode (csv_cell v) (tag_name tag) = Ok (Some v).
Proof.
  apply round_trip_scalar_tags.
  - exact py_int_raises_ValueError.
  - exact py_float_raises_ValueError.
  - intros z. apply py_int_canonical.
Qed.

(* ===================================================================== *)
(** ** Where the program departs from its specification *)
(* ===================================================================== *)

(** C1: the round trip fails on json values.  The export writes [str] of
    the inferred value, which is Python's rendering and not json text:
    [{"on": true}] is written as [{'on': True}], which the import cannot
    decode even after its quote normalisation, so the record is dropped;
    [null] is written as the empty cell and dropped too; the json string
    ["5"] is written as [5] and comes back as the integer 5.  End to end,
    a device with such a value loses it between export and import. *)
Theorem json_round_trip_fails :
  fst (infer_type_and_convert Examples.json_on) = Ok (PDict [("on", PBool true)], json) /\
  csv_cell (PDict [("on", PBool true)]) = "{'on': True}" /\
  decode "{'on': True}" (tag_name json) = Ok None /\
  fst (infer_type_and_convert "null") = Ok (PNone, json) /\
  csv_cell (PNone : Value) = "" /\
  decode "" (tag_name json) = Ok None /\
  fst (infer_type_and_convert Examples.json_five) = Ok (PStr "5", json) /\
  decode (csv_cell (PStr "5" : Value)) (tag_name json) = Ok (Some (PInt 5)) /\
  let file :=
    file_after []
      (events_of (export_timeseries Examples.one_device 1 "out.csv" 0 60000 "real"
                                    None 1024 1 [])) in
  file = [["deviceId"; "key"; "ts"; "value"; "type"];
          ["id1"; "temp"; "1000"; "1"; "int"];
          ["id1"; "cfg"; "1500"; "{'on': True}"; "json"]] /\
  events_of (import_timeseries Examples.one_device (dict_reader file) 100 [])
  = [EvLog ERROR; EvSaveTelemetry "id1" 1000 "temp" (PInt 1); EvLog INFO].
Proof. repeat split. Qed.

Section Unresolved.
Context `{PythonLib} {R : Type}.
Variable client : Client R.

(** With enough fuel the window loop of an unresolved device logs one
    error per window and does nothing else. *)
Lemma window_loop_unresolved (fuel : nat) (keys : string) (chunk_limit W e s : Z)
    (st : R) :
  0 < W ->
  (Z.to_nat (ceil_div (e - s) W) <= fuel)%nat ->
  window_loop fuel (export_window client None keys chunk_limit) W e s st
  = mkRun (Returned tt) st (repeat (EvLog ERROR) (Z.to_nat (ceil_div (e - s) W))).
Proof.
  intros HW Hfuel. rewrite window_loop_for_each by assumption.
  rewrite for_each_window_unresolved, windows_length by assumption.
  f_equal. f_equal. lia.
Qed.

(** The pass of the device loop for a name the service does not know:
    without a key text the run ends there; with one, the pass only logs
    and the loop goes on with the other names. *)
Lemma export_devices_unresolved (fuel : nat) (start_ts end_ts : Z) (name : string)
    (names : list string) (keys : option string) (chunk_limit W : Z) (st : R) :
  fst (get_tenant_device client name st) = Raise ApiException ->
  let st1 := snd (get_tenant_device client name st) in
  let n := Z.to_nat (ceil_div (end_ts - start_ts) W) in
  let run := export_devices client fuel start_ts end_ts (name :: names) keys
                            chunk_limit W st in
  (py_not keys = true ->
   run = mkRun (Raised ValueError) st1
               [EvGetTenantDevice name; EvLog ERROR; EvLog INFO]) /\
  (py_not keys = false -> 0 < W -> (n <= fuel)%nat ->
   let rest := export_devices client fuel start_ts end_ts names (Some (text_of keys))
                              chunk_limit W st1 in
   run = mkRun (outcome_of rest) (remote_of rest)
               (EvGetTenantDevice name :: EvLog ERROR :: EvLog INFO
                  :: repeat (EvLog ERROR) n ++ EvLog INFO :: events_of rest)).
Proof.
  intros Et st1 n run. unfold run. cbn [export_devices].
  pose proof (get_device_id_run client name st) as Eg. rewrite Et in Eg.
  cbn [isinstance] in Eg. fold st1 in Eg.
  rewrite (bind_returned _ _ _ None) by (now rewrite Eg).
  rewrite Eg. cbn [outcome_of remote_of events_of].
  rewrite (bind_returned (log INFO) _ _ tt eq_refl).
  cbn [outcome_of remote_of events_of log emit app].
  split.
  - intros ->. rewrite (bind_raised _ _ _ ValueError) by reflexivity.
    rewrite get_all_keys_unresolved. reflexivity.
  - intros -> HW Hfuel. cbn zeta. rewrite bind_ret.
    rewrite (bind_returned _ _ _ tt) by (now rewrite window_loop_unresolved).
    rewrite window_loop_unresolved by assumption.
    cbn [outcome_of remote_of events_of].
    rewrite (bind_returned (log INFO) _ _ tt eq_refl).
    cbn [outcome_of remote_of events_of log emit app].
    rewrite <- ?app_assoc. reflexivity.
Qed.

(** C3: a device whose resolution fails is not always skipped.  When the
    first device name is unknown to the service and no key list was
    given, the run ends at that device: key discovery builds the entity
    id of the unresolved device, which raises [ValueError] outside any
    [try]; the file is closed with its header and no later name is even
    resolved.  With a key list the device is skipped as the claim says:
    nothing but log records (one error for the resolution and one per
    window) comes between its resolution and the pass over the other
    names, which decides the outcome of the run. *)
Theorem unresolved_device_is_not_skipped (fuel : nat) (file_name : string)
    (start_ts end_ts : Z) (device_names : string) (keys : option string)
    (chunk_limit time_limit : Z) (st : R) (name : string) (names : list string) :
  split "," device_names = name :: names ->
  fst (get_tenant_device client name st) = Raise ApiException ->
  let st1 := snd (get_tenant_device client name st) in
  let W := time_limit * 60 * 1000 in
  let n := Z.to_nat (ceil_div (end_ts - start_ts) W) in
  let run := export_timeseries client fuel file_name start_ts end_ts device_names keys
                               chunk_limit time_limit st in
  (py_not keys = true ->
   run = mkRun (Raised ValueError) st1
               [EvOpenWrite file_name; EvWriteRow header;
                EvGetTenantDevice name; EvLog ERROR; EvLog INFO;
                EvClose file_name]) /\
  (py_not keys = false -> 1 <= time_limit -> (n <= fuel)%nat ->
   let rest := export_devices client fuel start_ts end_ts names (Some (text_of keys))
                              chunk_limit W st1 in
   outcome_of run = outcome_of rest /\
   events_of run
   = ([EvOpenWrite file_name; EvWriteRow header;
       EvGetTenantDevice name; EvLog ERROR; EvLog INFO]
      ++ repeat (EvLog ERROR) n ++ [EvLog INFO] ++ events_of rest
      ++ match outcome_of rest with
         | OutOfFuel => []
         | _ => [EvClose file_name]
         end)%list).
Proof.
  intros Es Et st1 W n run.
  destruct (export_devices_unresolved fuel start_ts end_ts name names keys chunk_limit
              W st Et) as [Hnone Hkeys].
  unfold run, export_timeseries, with_open_w. rewrite Es. fold W.
  rewrite (bind_returned (emit (EvWriteRow header)) _ _ tt eq_refl).
  cbn [outcome_of remote_of events_of emit app].
  split.
  - intros Hnot. rewrite (Hnone Hnot). reflexivity.
  - intros Hnot Htl Hfuel. cbn zeta.
    rewrite (Hkeys Hnot ltac:(unfold W; lia) Hfuel).
    cbn [outcome_of remote_of events_of app]. split; [reflexivity |].
    fold n st1. rewrite <- !app_assoc. cbn [app]. reflexivity.
Qed.
End Unresolved.

Lemma unresolved_device_is_not_skipped_witness :
  split "," "ghost,real" = ["ghost"; "real"] /\
  fst (get_tenant_device Examples.one_device "ghost" []) = Raise ApiException /\
  export_timeseries Examples.one_device 1 "out.csv" 0 60000 "ghost,real" None 1024 1 []
  = mkRun (Raised ValueError) []
          [EvOpenWrite "out.csv"; EvWriteRow header;
           EvGetTenantDevice "ghost"; EvLog ERROR; EvLog INFO; EvClose "out.csv"] /\
  export_timeseries Examples.one_device 1 "out.csv" 0 60000 "ghost,real" (Some "temp")
                    1024 1 []
  = mkRun (Returned tt) []
          [EvOpenWrite "out.csv"; EvWriteRow header;
           EvGetTenantDevice "ghost"; EvLog ERROR; EvLog INFO;
           EvLog ERROR; EvLog INFO;
           EvGetTenantDevice "real"; EvLog INFO;
           EvGetTimeseries (Some "id1") "temp" 0 60000 1024;
           EvWriteRow [PStr "id1"; PStr "temp"; PInt 1000; PInt 1; PStr "int"];
           EvLog INFO; EvLog INFO; EvClose "out.csv"].
Proof.
  split; [reflexivity |]. split; [reflexivity |]. split; [| reflexivity].
  exact (proj1 (unresolved_device_is_not_skipped Examples.one_device 1 "out.csv" 0 60000
                  "ghost,real" None 1024 1 [] "ghost" ["real"] eq_refl eq_refl) eq_refl).
Defined.

(** C4: exceptions do cross the record and device boundaries.  On import
    a malformed [ts], or a value that does not parse under tag int or
    double, raises [ValueError] out of [import_timeseries] and out of
    [main], before anything is written, the well-formed records included;
    only a json decode failure is caught and the record dropped.  On
    export without a key list an unresolved device raises [ValueError]
    out of key discovery, out of [export_timeseries] and out of [main],
    before the service is asked for any key and before the next device
    is resolved. *)
Theorem decode_errors_propagate :
  let good := mkRow "dev1" "temp" "1000" "23.5" "double" in
  let bad_ts := [good; mkRow "dev1" "n" "10x" "5" "int"; good] in
  let bad_int := [good; mkRow "dev1" "n" "1000" "abc" "int"; good] in
  let bad_double := [good; mkRow "dev1" "n" "1000" "abc" "double"; good] in
  let bad_json := [good; mkRow "dev1" "n" "1000" "not-json" "json"; good] in
  let args := mkArgs act_import "in.csv" None None None None 1024 60 in
  let export_args := mkArgs act_export "out.csv" (Some 1) (Some 60000)
                            (Some "ghost,real") None 1024 1 in
  let save := EvSaveTelemetry "dev1" 1000 "temp" (PFloat (Python.mkFloat "23.5")) in
  (forall rows, In rows [bad_ts; bad_int; bad_double] ->
     outcome_of (import_timeseries Examples.one_device rows 100 []) = Raised ValueError /\
     events_of (import_timeseries Examples.one_device rows 100 []) = [] /\
     outcome_of (main Examples.one_device 1 args rows []) = Raised ValueError /\
     events_of (main Examples.one_device 1 args rows []) = [EvLogin]) /\
  outcome_of (import_timeseries Examples.one_device bad_json 100 []) = Returned tt /\
  events_of (import_timeseries Examples.one_device bad_json 100 [])
  = [EvLog ERROR; save; save; EvLog INFO] /\
  outcome_of (export_timeseries Examples.one_device 1 "out.csv" 1 60000 "ghost,real"
                                None 1024 1 []) = Raised ValueError /\
  filter is_remote
    (events_of (export_timeseries Examples.one_device 1 "out.csv" 1 60000 "ghost,real"
                                  None 1024 1 []))
  = [EvGetTenantDevice "ghost"] /\
  outcome_of (main Examples.one_device 1 export_args [] []) = Raised ValueError /\
  filter is_remote (events_of (main Examples.one_device 1 export_args [] []))
  = [EvLogin; EvGetTenantDevice "ghost"].
Proof.
  cbn zeta. split; [| repeat split].
  intros rows [<- | [<- | [<- | []]]]; repeat split.
Qed.

(* ===================================================================== *)
(** ** Runs of the retry wrapper *)
(* ===================================================================== *)

Section RetryRuns.
Context `{PythonLib} {R : Type}.

(** Every run of the retry wrapper: calls separated by sleeps, stopped by
    the first success or by the last allowed failure. *)
Lemma retry_from_run {A} (K : nat) (wait_fixed : Z) (ev : Event)
    (f : R -> result A * R) (st : R) :
  let r := retry_from K wait_fixed (call ev f) st in
  exists k, (k <= K)%nat /\
    events_of r = attempts k wait_fixed ev /\
    ((exists a, outcome_of r = Returned a) \/
     (outcome_of r = Raised RetryError /\ k = K)).
Proof.
  cbn zeta. remember (call ev f) as op eqn:Eop.
  assert (Hop : forall s, op s = mkRun (of_result (fst (f s))) (snd (f s)) [ev])
    by (intros s; subst op; reflexivity).
  clear Eop. revert st.
  induction K as [| K IH]; intros st; cbn [retry_from]; unfold try_except;
    rewrite Hop; destruct (f st) as [[a | e] s2]; cbn -[retry_from].
  - exists 0%nat. split; [lia |]. split; [reflexivity |]. left. now exists a.
  - exists 0%nat. split; [lia |]. split; [reflexivity |]. now right.
  - exists 0%nat. split; [lia |]. split; [reflexivity |]. left. now exists a.
  - destruct (IH s2) as [k [Hk [Ek Ho]]]. exists (S k). split; [lia |].
    unfold bind, emit. cbn -[retry_from]. split; [cbn; now rewrite Ek |].
    destruct Ho as [[a Ea] | [Eo ->]]; [left; now exists a | now right].
Qed.

Lemma retry_from_first_success {A} (K : nat) (wait_fixed : Z) (ev : Event)
    (f : R -> result A * R) (st st' : R) (a : A) :
  f st = (Ok a, st') ->
  retry_from K wait_fixed (call ev f) st = mkRun (Returned a) st' [ev].
Proof.
  intros E. destruct K; cbn [retry_from]; unfold try_except, call; cbn;
    rewrite E; reflexivity.
Qed.

(** The run of the retry wrapper, call by call: the calls fail up to
    the [k]-th, which either succeeds and gives the result, or is the
    last one allowed. *)
Lemma retry_from_spec {A} (K : nat) (wait_fixed : Z) (ev : Event)
    (f : R -> result A * R) (st : R) :
  let r := retry_from K wait_fixed (call ev f) st in
  exists k, (k <= K)%nat /\
    (forall i, (i < k)%nat -> exists e, fst (f (state_after f i st)) = Raise e) /\
    events_of r = attempts k wait_fixed ev /\
    remote_of r = snd (f (state_after f k st)) /\
    match fst (f (state_after f k st)) with
    | Ok a => outcome_of r = Returned a
    | Raise _ => k = K /\ outcome_of r = Raised RetryError
    end.
Proof.
  cbn zeta. remember (call ev f) as op eqn:Eop.
  assert (Hop : forall s, op s = mkRun (of_result (fst (f s))) (snd (f s)) [ev])
    by (intros s; subst op; reflexivity).
  clear Eop. revert st.
  induction K as [| K IH]; intros st; cbn [retry_from]; unfold try_except;
    rewrite Hop; destruct (fst (f st)) as [a | e] eqn:Ef; cbn -[retry_from].
  - exists 0%nat. split; [lia |]. split; [intros i Hi; lia |].
    cbn [state_after]. rewrite Ef. repeat split.
  - exists 0%nat. split; [lia |]. split; [intros i Hi; lia |].
    cbn [state_after]. rewrite Ef. repeat split.
  - exists 0%nat. split; [lia |]. split; [intros i Hi; lia |].
    cbn [state_after]. rewrite Ef. repeat split.
  - destruct (IH (snd (f st))) as [k [Hk [Hfail [Ek [Er Ho]]]]]. exists (S k).
    split; [lia |]. split.
    { intros [| i] Hi; cbn [state_after]; [now exists e | apply Hfail; lia]. }
    unfold bind, emit. cbn -[retry_from]. cbn [state_after].
    split; [now rewrite Ek |]. split; [exact Er |].
    destruct (fst (f (state_after f k (snd (f st))))); [exact Ho |].
    destruct Ho as [-> Ho]. now split.
Qed.

Variable client : Client R.

(** X1: a call of [fetch_timeseries] or of [save_telemetry] calls the
    service again after each failure, with the same arguments and after
    a sleep of two seconds, until a call succeeds or three have failed:
    every call before the last one made has failed; if the last one made
    succeeds its answer is returned, and if it fails it was the third
    and [RetryError] is raised.  The state of the service is the one the
    last call left. *)
Theorem retry_wrapper_runs :
  (forall entity_id keys start_ts end_ts limit st,
      let f := get_timeseries client entity_id keys start_ts end_ts limit in
      let r := fetch_timeseries client entity_id keys start_ts end_ts limit st in
      exists k, (k <= 2)%nat /\
        (forall i, (i < k)%nat -> exists e, fst (f (state_after f i st)) = Raise e) /\
        events_of r = attempts k 2 (EvGetTimeseries entity_id keys start_ts end_ts limit) /\
        remote_of r = snd (f (state_after f k st)) /\
        match fst (f (state_after f k st)) with
        | Ok a => outcome_of r = Returned a
        | Raise _ => k = 2%nat /\ outcome_of r = Raised RetryError
        end) /\
  (forall entity_id ts key value st,
      let f := save_entity_telemetry client entity_id ts key value in
      let r := save_telemetry client entity_id ts key value st in
      exists k, (k <= 2)%nat /\
        (forall i, (i < k)%nat -> exists e, fst (f (state_after f i st)) = Raise e) /\
        events_of r = attempts k 2 (EvSaveTelemetry entity_id ts key value) /\
        remote_of r = snd (f (state_after f k st)) /\
        match fst (f (state_after f k st)) with
        | Ok a => outcome_of r = Returned a
        | Raise _ => k = 2%nat /\ outcome_of r = Raised RetryError
        end).
Proof.
  split.
  - intros entity_id keys start_ts end_ts limit st.
    exact (retry_from_spec 2 2 (EvGetTimeseries entity_id keys start_ts end_ts limit)
             (get_timeseries client entity_id keys start_ts end_ts limit) st).
  - intros entity_id ts key value st.
    exact (retry_from_spec 2 2 (EvSaveTelemetry entity_id ts key value)
             (save_entity_telemetry client entity_id ts key value) st).
Qed.
End RetryRuns.

Lemma retry_wrapper_runs_witness :
  events_of (fetch_timeseries (Examples.recovering 1) (Some "id1") "temp" 0 60000 1024
                              0%nat)
  = [EvGetTimeseries (Some "id1") "temp" 0 60000 1024; EvSleep 2;
     EvGetTimeseries (Some "id1") "temp" 0 60000 1024] /\
  outcome_of (fetch_timeseries (Examples.recovering 1) (Some "id1") "temp" 0 60000 1024
                               0%nat)
  = Returned [("temp", [Examples.p 1000 "1"])] /\
  remote_of (fetch_timeseries (Examples.recovering 1) (Some "id1") "temp" 0 60000 1024
                              0%nat) = 2%nat.
Proof.
  destruct (proj1 (retry_wrapper_runs (Examples.recovering 1))
              (Some "id1") "temp" 0 60000 1024 0%nat)
    as [k [Hk [Hfail [Hev [Hrem Hout]]]]].
  destruct k as [| [| [| k]]]; [| | | lia].
  - cbn in Hout. destruct Hout as [Hk0 _]. discriminate.
  - split; [exact Hev |]. split; [exact Hout | exact Hrem].
  - destruct (Hfail 1%nat (le_n 2)) as [e He]. cbn in He. discriminate.
Defined.

(* ===================================================================== *)
(** ** Rows of one window *)
(* ===================================================================== *)

Section WindowRows.
Context `{PythonLib} {R : Type}.
Variable client : Client R.

End WindowRows.


(* ===================================================================== *)
(** ** Runs of an export with a key list *)
(* ===================================================================== *)

Section ExportRuns.
Context `{PythonLib} {R : Type}.
Variable client : Client R.

Lemma bind_returns {A B} (m : M R A) (k : A -> M R B) :
  returns m -> (forall a, returns (k a)) -> returns (bind m k).
Proof.
  intros Hm Hk st. destruct (Hm st) as [a Ea].
  rewrite (bind_returned _ _ _ a Ea). cbn. apply Hk.
Qed.

Lemma bind_ret_returns {A B} (a : A) (k : A -> M R B) :
  returns (k a) -> returns (bind (ret a) k).
Proof.
  intros Hk st. destruct (Hk st) as [b Eb]. exists b. cbn. exact Eb.
Qed.

Lemma get_device_id_returns (device_name : string) :
  resolution_raises_api client -> returns (get_device_id client device_name).
Proof.
  intros Hres st. unfold get_device_id, try_except, bind, call, ret, log, emit. cbn.
  destruct (fst (get_tenant_device client device_name st)) as [id | e] eqn:E; cbn.
  - now eexists.
  - rewrite (Hres _ _ _ E). cbn. now eexists.
Qed.

(** With enough fuel and a positive width the window loop of the export
    returns. *)
Lemma export_loop_returns (fuel : nat) device_id keys chunk_limit (W e s : Z) :
  0 < W ->
  (Z.to_nat (ceil_div (e - s) W) <= fuel)%nat ->
  returns (window_loop fuel (export_window client device_id keys chunk_limit) W e s).
Proof.
  intros HW Hfuel st. rewrite window_loop_for_each by assumption.
  destruct (for_each_returns (windows fuel W e s)
              (fun w => export_window client device_id keys chunk_limit (fst w) (snd w))
              (fun w => export_window_returns client device_id keys chunk_limit
                          (fst w) (snd w)) st) as [[] E].
  now exists tt.
Qed.

Lemma export_devices_returns (fuel : nat) (start_ts end_ts : Z) (names : list string)
    (text : string) (chunk_limit W : Z) :
  text <> "" ->
  0 < W ->
  resolution_raises_api client ->
  (Z.to_nat (ceil_div (end_ts - start_ts) W) <= fuel)%nat ->
  returns (export_devices client fuel start_ts end_ts names (Some text) chunk_limit W).
Proof.
  intros Htext HW Hres Hfuel. induction names as [| name names IH]; cbn [export_devices].
  - intros st. now exists tt.
  - apply bind_returns; [now apply get_device_id_returns | intros id].
    apply bind_returns; [intros st; now exists tt | intros _].
    assert (E : py_not (Some text) = false) by (cbn; now apply String.eqb_neq).
    rewrite E. cbn [text_of].
    apply bind_ret_returns.
    apply bind_returns; [now apply export_loop_returns | intros _].
    apply bind_returns; [intros st; now exists tt | intros _; exact IH].
Qed.

(** X3: with an explicit key list and a time limit of at least one
    minute, an export returns normally whatever the fetches do (each may
    fail at every attempt), as long as device resolution raises nothing
    but [ApiException]: no failed window and no unresolved device ends
    the run. *)
Theorem export_returns_despite_failures (fuel : nat) (file_name : string)
    (start_ts end_ts : Z) (device_names : string) (keys : option string)
    (chunk_limit time_limit : Z) (st : R) :
  py_not keys = false ->
  1 <= time_limit ->
  resolution_raises_api client ->
  (Z.to_nat (ceil_div (end_ts - start_ts) (time_limit * 60 * 1000)) <= fuel)%nat ->
  outcome_of (export_timeseries client fuel file_name start_ts end_ts device_names keys
                                chunk_limit time_limit st) = Returned tt.
Proof.
  intros Hkeys Htl Hres Hfuel.
  destruct (export_timeseries_run client fuel file_name start_ts end_ts device_names keys
              chunk_limit time_limit st) as [Eo _].
  rewrite Eo. destruct keys as [text |]; [| discriminate].
  assert (Htext : text <> "") by (cbn in Hkeys; now apply String.eqb_neq).
  destruct (export_devices_returns fuel start_ts end_ts (split "," device_names) text
              chunk_limit (time_limit * 60 * 1000) Htext ltac:(lia) Hres Hfuel st)
    as [[] E].
  exact E.
Qed.
End ExportRuns.

Lemma flaky_fetch_resolution : resolution_raises_api Examples.flaky_fetch.
Proof.
  intros name st e. cbn -[Examples.lookup].
  destruct (Examples.lookup name [("real", "id1")]); cbn; intros E; now inversion E.
Qed.

Lemma export_returns_despite_failures_witness :
  py_not (Some "temp") = false /\ 1 <= 1 /\
  resolution_raises_api Examples.flaky_fetch /\
  outcome_of (export_timeseries Examples.flaky_fetch 2 "out.csv" 0 100000 "ghost,real"
                                (Some "temp") 1024 1 []) = Returned tt /\
  filter is_fetch
    (events_of (export_timeseries Examples.flaky_fetch 2 "out.csv" 0 100000 "ghost,real"
                                  (Some "temp") 1024 1 []))
  = (repeat (EvGetTimeseries (Some "id1") "temp" 0 60000 1024) 3 ++
     repeat (EvGetTimeseries (Some "id1") "temp" 60000 100000 1024) 3)%list.
Proof.
  split; [reflexivity |]. split; [lia |]. split; [exact flaky_fetch_resolution |].
  split; [| reflexivity].
  apply export_returns_despite_failures;
    [reflexivity | lia | exact flaky_fetch_resolution | vm_compute; lia].
Defined.

(* ===================================================================== *)
(** ** Edge cases of the range and of the time limit *)
(* ===================================================================== *)

Section Divergence.
Context `{PythonLib} {R : Type}.
Variable client : Client R.

(** With a width that is not positive the loop never reaches [end_ts]:
    whatever the fuel it is used up, with one fetch at least per unit
    for a resolved device, and with one logged error and nothing else
    per unit for an unresolved one. *)
Lemma window_loop_never_ends (fuel : nat) device_id keys chunk_limit (W e s : Z) (st : R) :
  W <= 0 -> s < e ->
  let r := window_loop fuel (export_window client device_id keys chunk_limit) W e s st in
  outcome_of r = OutOfFuel /\
  (forall id, device_id = Some id ->
      (fuel <= List.length (filter is_fetch (events_of r)))%nat) /\
  (device_id = None -> events_of r = repeat (EvLog ERROR) fuel).
Proof.
  intros HW. revert s st. induction fuel as [| fuel IH]; intros s st Hs; cbn zeta;
    cbn [window_loop]; destruct (Z.ltb_spec s e) as [_ | Hge]; try lia.
  - cbn. split; [reflexivity |]. split; [intros; lia | reflexivity].
  - set (ce := Z.min (s + W) e).
    destruct (export_window_returns client device_id keys chunk_limit s ce st) as [[] Eo].
    rewrite (bind_returned _ _ _ tt Eo). cbn [outcome_of events_of].
    destruct (IH ce (remote_of (export_window client device_id keys chunk_limit s ce st))
                ltac:(unfold ce; lia)) as [IHo [IHn IHe]].
    split; [exact IHo |]. split.
    + intros id ->. specialize (IHn id eq_refl).
      rewrite filter_app, length_app, export_window_service_calls.
      destruct (fetch_timeseries_attempts client (Some id) keys s ce chunk_limit st)
        as [n [_ En]].
      rewrite En, repeat_length. lia.
    + intros ->. rewrite (IHe eq_refl). reflexivity.
Qed.

(** X4: with a time limit of zero or less and [start_ts < end_ts], an
    export with a key list never ends: the window loop of its first
    device does not advance, so every amount of fuel is used up.  When
    the first device is resolved the service is called at least once per
    unit of fuel; when it is not, each unit only logs one error. *)
Theorem nonpositive_time_limit_never_ends (fuel : nat) (file_name : string)
    (start_ts end_ts : Z) (device_names : string) (keys : option string)
    (chunk_limit time_limit : Z) (st : R) :
  py_not keys = false ->
  time_limit <= 0 ->
  start_ts < end_ts ->
  resolution_raises_api client ->
  let r := export_timeseries client fuel file_name start_ts end_ts device_names keys
                             chunk_limit time_limit st in
  let d1 := hd "" (split "," device_names) in
  outcome_of r = OutOfFuel /\
  (forall id, fst (get_tenant_device client d1 st) = Ok id ->
      (fuel <= List.length (filter is_fetch (events_of r)))%nat) /\
  (forall e, fst (get_tenant_device client d1 st) = Raise e ->
      events_of r
      = ([EvOpenWrite file_name; EvWriteRow header; EvGetTenantDevice d1;
          EvLog ERROR; EvLog INFO] ++ repeat (EvLog ERROR) fuel)%list).
Proof.
  intros Hkeys Htl Hlt Hres r d1.
  assert (Hr : exists device_id pre,
             (forall id, fst (get_tenant_device client d1 st) = Ok id ->
                         device_id = Some id) /\
             (forall e, fst (get_tenant_device client d1 st) = Raise e ->
                        device_id = None /\ pre = [EvLog ERROR]) /\
             Forall (fun ev => is_log ev = true) pre /\
             let loop := window_loop fuel
                           (export_window client device_id (text_of keys) chunk_limit)
                           (time_limit * 60 * 1000) end_ts start_ts
                           (snd (get_tenant_device client d1 st)) in
             r = mkRun (outcome_of loop) (remote_of loop)
                       (EvOpenWrite file_name :: EvWriteRow header
                          :: EvGetTenantDevice d1 :: pre ++ EvLog INFO :: events_of loop
                          ++ match outcome_of loop with
                             | OutOfFuel => []
                             | _ => [EvClose file_name]
                             end)).
  { unfold r, d1, export_timeseries, with_open_w.
    destruct (split "," device_names) as [| n1 rest] eqn:Es;
      [now apply split_aux_nonempty in Es |].
    cbn [hd export_devices]. rewrite Hkeys.
    rewrite (bind_returned (emit (EvWriteRow header)) _ _ tt eq_refl).
    cbn [outcome_of remote_of events_of emit app].
    pose proof (get_device_id_run client n1 st) as Eg.
    destruct (fst (get_tenant_device client n1 st)) as [id | e] eqn:Et.
    - exists (Some id), []. split; [intros id' E; now inversion E |].
      split; [intros e E; discriminate |]. split; [constructor |]. cbn zeta.
      rewrite (bind_returned _ _ _ (Some id)) by (now rewrite Eg).
      rewrite Eg. cbn [outcome_of remote_of events_of].
      rewrite (bind_returned (log INFO) _ _ tt eq_refl).
      cbn [outcome_of remote_of events_of log emit app]. rewrite bind_ret.
      set (loop := window_loop _ _ _ _ _ _).
      destruct (window_loop_never_ends fuel (Some id) (text_of keys) chunk_limit
                  (time_limit * 60 * 1000) end_ts start_ts
                  (snd (get_tenant_device client n1 st)) ltac:(lia) Hlt) as [Lo _].
      fold loop in Lo. rewrite (bind_out_of_fuel _ _ _ Lo). rewrite Lo.
      cbn [outcome_of remote_of events_of]. reflexivity.
    - rewrite (Hres _ _ _ Et) in Eg. cbn [isinstance] in Eg.
      exists None, [EvLog ERROR]. split; [intros id' E; discriminate |].
      split; [intros e' _; now split |]. split; [repeat constructor |]. cbn zeta.
      rewrite (bind_returned _ _ _ None) by (now rewrite Eg).
      rewrite Eg. cbn [outcome_of remote_of events_of].
      rewrite (bind_returned (log INFO) _ _ tt eq_refl).
      cbn [outcome_of remote_of events_of log emit app]. rewrite bind_ret.
      set (loop := window_loop _ _ _ _ _ _).
      destruct (window_loop_never_ends fuel None (text_of keys) chunk_limit
                  (time_limit * 60 * 1000) end_ts start_ts
                  (snd (get_tenant_device client n1 st)) ltac:(lia) Hlt) as [Lo _].
      fold loop in Lo. rewrite (bind_out_of_fuel _ _ _ Lo). rewrite Lo.
      cbn [outcome_of remote_of events_of]. reflexivity. }
  destruct Hr as [device_id [pre [Hsome [Hnone [Hpre Er]]]]]. cbn zeta in Er.
  destruct (window_loop_never_ends fuel device_id (text_of keys) chunk_limit
              (time_limit * 60 * 1000) end_ts start_ts
              (snd (get_tenant_device client d1 st)) ltac:(lia) Hlt) as [Lo [Ln Le]].
  rewrite Er. cbn [outcome_of events_of]. rewrite Lo.
  split; [reflexivity |]. split.
  - intros id Eid. specialize (Ln id (Hsome id Eid)).
    cbn [filter is_fetch]. rewrite filter_app. cbn [filter is_fetch].
    rewrite filter_app, !length_app. lia.
  - intros e Ee. destruct (Hnone e Ee) as [-> ->]. rewrite (Le eq_refl).
    cbn [app]. now rewrite app_nil_r.
Qed.
End Divergence.

Lemma memory_client_resolution devices store :
  resolution_raises_api (Examples.memory_client devices store).
Proof.
  intros name st e. cbn -[Examples.lookup].
  destruct (Examples.lookup name devices); cbn; intros E; now inversion E.
Qed.

Lemma nonpositive_time_limit_never_ends_witness :
  py_not (Some "temp") = false /\ 0 <= 0 /\ 0 < 60000 /\
  resolution_raises_api Examples.one_device /\
  outcome_of (export_timeseries Examples.one_device 3 "out.csv" 0 60000 "real"
                                (Some "temp") 1024 0 []) = OutOfFuel /\
  filter is_fetch
    (events_of (export_timeseries Examples.one_device 3 "out.csv" 0 60000 "real"
                                  (Some "temp") 1024 0 []))
  = repeat (EvGetTimeseries (Some "id1") "temp" 0 0 1024) 3.
Proof.
  split; [reflexivity |]. split; [lia |]. split; [lia |].
  split; [apply memory_client_resolution |]. split; [| reflexivity].
  exact (proj1 (nonpositive_time_limit_never_ends Examples.one_device 3 "out.csv" 0 60000
                  "real" (Some "temp") 1024 0 [] eq_refl ltac:(lia) ltac:(lia)
                  (memory_client_resolution _ _))).
Defined.

Section EmptyRange.
Context `{PythonLib} {R : Type}.
Variable client : Client R.

Lemma window_loop_empty (fuel : nat) (body : Z -> Z -> M R unit) (W e s : Z) (st : R) :
  e <= s -> window_loop fuel body W e s st = ret tt st.
Proof.
  intros He. destruct fuel; cbn [window_loop];
    destruct (Z.ltb_spec s e); try lia; reflexivity.
Qed.

Lemma export_devices_empty_range fuel start_ts end_ts names keys chunk_limit W :
  end_ts <= start_ts ->
  all_events (fun e => is_fetch e = false /\ is_row e = false)
    (export_devices client fuel start_ts end_ts names keys chunk_limit W).
Proof.
  intros He. revert keys. induction names as [| name names IH]; intros keys;
    cbn [export_devices].
  - apply all_ret.
  - apply all_bind; [now apply all_get_device_id | intros id].
    apply all_bind; [now apply all_emit | intros _].
    apply all_bind.
    + destruct (py_not keys); [| apply all_ret].
      now apply all_get_all_keys.
    + intros keys'. apply all_bind.
      * intros st. rewrite window_loop_empty by exact He. constructor.
      * intros _. apply all_bind; [now apply all_emit | intros _; apply IH].
Qed.

Lemma nof_export_devices_empty_range fuel start_ts end_ts names keys chunk_limit W :
  end_ts <= start_ts ->
  never_out_of_fuel (export_devices client fuel start_ts end_ts names keys chunk_limit W).
Proof.
  intros He. revert keys. induction names as [| name names IH]; intros keys;
    cbn [export_devices]; [apply nof_ret |].
  apply nof_bind; [| intros id].
  { apply nof_try_except.
    - apply nof_bind; [apply nof_call | intros; apply nof_ret].
    - intros _. apply nof_bind; [apply nof_emit | intros; apply nof_ret]. }
  apply nof_bind; [apply nof_emit | intros _].
  apply nof_bind.
  { destruct (py_not keys); [| apply nof_ret].
    apply nof_bind; [| intros; apply nof_bind; [apply nof_call | intros; apply nof_ret]].
    destruct id; [apply nof_ret | apply nof_raise]. }
  intros keys'. apply nof_bind.
  { intros st1. rewrite window_loop_empty by exact He. discriminate. }
  intros _. apply nof_bind; [apply nof_emit | intros _; apply IH].
Qed.

(** X5: when [end_ts <= start_ts] an export fetches nothing and writes
    nothing but the header row, whatever the fuel, the devices and the
    service; the first device name is still resolved. *)
Theorem empty_range_fetches_nothing (fuel : nat) (file_name : string)
    (start_ts end_ts : Z) (device_names : string) (keys : option string)
    (chunk_limit time_limit : Z) (st : R) :
  end_ts <= start_ts ->
  let r := export_timeseries client fuel file_name start_ts end_ts device_names keys
                             chunk_limit time_limit st in
  filter is_fetch (events_of r) = [] /\
  written_rows (events_of r) = [header] /\
  outcome_of r <> OutOfFuel /\
  exists rest,
    events_of r
    = (EvOpenWrite file_name :: EvWriteRow header
         :: EvGetTenantDevice (hd "" (split "," device_names)) :: rest)%list.
Proof.
  intros He r.
  destruct (export_timeseries_run client fuel file_name start_ts end_ts device_names keys
              chunk_limit time_limit st) as [Eo [closing [Ee Hc]]].
  fold r in Eo, Ee.
  pose proof (export_devices_empty_range fuel start_ts end_ts (split "," device_names)
                keys chunk_limit (time_limit * 60 * 1000) He st) as Hall.
  assert (Hclosing : Forall (fun e => is_fetch e = false /\ is_row e = false) closing).
  { destruct Hc as [-> | ->]; repeat constructor. }
  pose proof (proj2 (Forall_app _ _ _) (conj Hall Hclosing)) as Hboth.
  split; [| split; [| split]].
  - rewrite Ee. cbn [filter is_fetch]. apply filter_none.
    eapply Forall_impl; [| exact Hboth]. cbn. tauto.
  - rewrite Ee. cbn [written_rows]. f_equal. apply written_rows_none.
    eapply Forall_impl; [| exact Hboth]. cbn. tauto.
  - rewrite Eo. now apply nof_export_devices_empty_range.
  - destruct (split "," device_names) as [| d1 rest] eqn:Es;
      [now apply split_aux_nonempty in Es |].
    cbn [hd]. destruct (get_device_id_shape client d1 st) as [pre [Eg _]].
    rewrite Ee. cbn [export_devices]. unfold bind at 1.
    destruct (outcome_of (get_device_id client d1 st)); cbn [events_of]; rewrite Eg;
      cbn [app]; eexists; reflexivity.
Qed.
End EmptyRange.

Lemma empty_range_fetches_nothing_witness :
  1000 <= 2500 /\
  events_of (export_timeseries Examples.two_keys 0 "out.csv" 2500 1000 "sensor1"
                               None 1024 60 [])
  = [EvOpenWrite "out.csv"; EvWriteRow header; EvGetTenantDevice "sensor1"; EvLog INFO;
     EvGetTimeseriesKeys (Some "id1"); EvLog INFO; EvClose "out.csv"] /\
  filter is_fetch
    (events_of (export_timeseries Examples.two_keys 0 "out.csv" 2500 1000 "sensor1"
                                  None 1024 60 [])) = [].
Proof.
  split; [lia |]. split; [reflexivity |].
  exact (proj1 (empty_range_fetches_nothing Examples.two_keys 0 "out.csv" 2500 1000
                  "sensor1" None 1024 60 [] ltac:(lia))).
Defined.

(* ===================================================================== *)
(** ** Resolution of the device names *)
(* ===================================================================== *)

Section Resolution.
Context `{PythonLib} {R : Type}.
Variable client : Client R.

Lemma resolves_bind_quiet {A} (m : M R A) (k : A -> M R unit) (l : list string) :
  all_events (fun e => is_resolve e = false) m ->
  (forall a, resolves (k a) l) ->
  resolves (bind m k) l.
Proof.
  intros Hm Hk st. pose proof (filter_none _ _ (Hm st)) as Em. unfold bind.
  destruct (outcome_of (m st)) as [a | e |]; cbn [outcome_of events_of].
  - rewrite filter_app, Em. cbn [app]. apply Hk.
  - rewrite Em. split; [now exists 0%nat | discriminate].
  - rewrite Em. split; [now exists 0%nat | discriminate].
Qed.

Lemma resolves_device (name : string) (k : option string -> M R unit) (l : list string) :
  (forall id, resolves (k id) l) ->
  resolves (bind (get_device_id client name) k) (name :: l).
Proof.
  intros Hk st. destruct (get_device_id_shape client name st) as [pre [Eg [Hpre _]]].
  assert (Ef : filter is_resolve (events_of (get_device_id client name st))
               = [EvGetTenantDevice name]).
  { rewrite Eg. cbn. f_equal. apply filter_none.
    eapply Forall_impl; [| exact Hpre]. intros e He. now destruct e. }
  unfold bind.
  destruct (outcome_of (get_device_id client name st)) as [id | e |];
    cbn [outcome_of events_of].
  - rewrite filter_app, Ef. cbn [app].
    destruct (Hk id (remote_of (get_device_id client name st))) as [[n En] Hret].
    split.
    + exists (S n). cbn. now rewrite En.
    + intros E. cbn. now rewrite (Hret E).
  - rewrite Ef. split; [now exists 1%nat | discriminate].
  - rewrite Ef. split; [now exists 1%nat | discriminate].
Qed.

Lemma export_devices_resolves fuel start_ts end_ts names keys chunk_limit W :
  resolves (export_devices client fuel start_ts end_ts names keys chunk_limit W) names.
Proof.
  revert keys. induction names as [| name names IH]; intros keys; cbn [export_devices].
  - intros st. cbn. split; [now exists 0%nat | reflexivity].
  - apply resolves_device. intros id.
    apply resolves_bind_quiet; [now apply all_emit | intros _].
    apply resolves_bind_quiet.
    { destruct (py_not keys); [| apply all_ret].
      now apply all_get_all_keys. }
    intros keys'. apply resolves_bind_quiet.
    { apply all_window_loop. intros a b. now apply all_export_window. }
    intros _. apply resolves_bind_quiet; [now apply all_emit | intros _; apply IH].
Qed.

(** X6: an export resolves the comma-separated device names from left to
    right, each once and none skipped, empty names included; a run that
    returns has resolved every name, and a run that stops early has
    resolved a prefix of them. *)
Theorem export_resolves_names_in_order (fuel : nat) (file_name : string)
    (start_ts end_ts : Z) (device_names : string) (keys : option string)
    (chunk_limit time_limit : Z) (st : R) :
  let r := export_timeseries client fuel file_name start_ts end_ts device_names keys
                             chunk_limit time_limit st in
  (exists n, (1 <= n)%nat /\
     filter is_resolve (events_of r)
     = map EvGetTenantDevice (firstn n (split "," device_names))) /\
  (outcome_of r = Returned tt ->
   filter is_resolve (events_of r) = map EvGetTenantDevice (split "," device_names)).
Proof.
  intros r.
  destruct (export_timeseries_run client fuel file_name start_ts end_ts device_names keys
              chunk_limit time_limit st) as [Eo [closing [Ee Hc]]].
  fold r in Eo, Ee.
  assert (Ef : filter is_resolve (events_of r)
               = filter is_resolve
                   (events_of (export_devices client fuel start_ts end_ts
                                 (split "," device_names) keys chunk_limit
                                 (time_limit * 60 * 1000) st))).
  { rewrite Ee. cbn [filter is_resolve]. rewrite filter_app.
    destruct Hc as [-> | ->]; cbn; now rewrite app_nil_r. }
  rewrite Ef, Eo.
  destruct (export_devices_resolves fuel start_ts end_ts (split "," device_names) keys
              chunk_limit (time_limit * 60 * 1000) st) as [[n En] Hret].
  split; [| exact Hret].
  destruct n as [| n]; [| exists (S n); split; [lia | exact En]].
  exfalso. cbn in En.
  destruct (split "," device_names) as [| d1 rest] eqn:Es;
    [now apply split_aux_nonempty in Es |].
  cbn [export_devices] in En.
  destruct (get_device_id_shape client d1 st) as [pre [Eg _]].
  unfold bind at 1 in En.
  destruct (outcome_of (get_device_id client d1 st)); cbn [events_of] in En;
    rewrite Eg in En; discriminate.
Qed.
End Resolution.

Lemma export_resolves_names_in_order_witness :
  filter is_resolve
    (events_of (export_timeseries Examples.one_device 1 "out.csv" 0 60000 "real,,ghost"
                                  (Some "temp") 1024 1 []))
  = [EvGetTenantDevice "real"; EvGetTenantDevice ""; EvGetTenantDevice "ghost"].
Proof.
  exact (proj2 (export_resolves_names_in_order Examples.one_device 1 "out.csv" 0 60000
                  "real,,ghost" (Some "temp") 1024 1 []) eq_refl).
Defined.

(* ===================================================================== *)
(** ** Range of the exported records *)
(* ===================================================================== *)

Section RowsInRange.
Context `{PythonLib} {R : Type}.
Variable client : Client R.

Lemma all_bind_returned {A B} (P : Event -> Prop) (m : M R A) (k : A -> M R B) :
  all_events P m ->
  (forall a, (exists st, outcome_of (m st) = Returned a) -> all_events P (k a)) ->
  all_events P (bind m k).
Proof.
  intros Hm Hk st. unfold bind.
  destruct (outcome_of (m st)) as [a | e |] eqn:E; cbn; try apply Hm.
  apply Forall_app. split; [apply Hm | apply Hk; now exists st].
Qed.

Lemma all_events_weaken {A} (P Q : Event -> Prop) (m : M R A) :
  (forall e, P e -> Q e) -> all_events P m -> all_events Q m.
Proof. intros HPQ Hm st. eapply Forall_impl; [exact HPQ | apply Hm]. Qed.

Lemma row_in_range_weaken (lo hi lo' hi' : Z) (e : Event) :
  (forall t, lo <= t < hi -> lo' <= t < hi') ->
  row_in_range lo hi e -> row_in_range lo' hi' e.
Proof.
  intros Hw. destruct e; cbn; trivial. apply Forall_impl. exact Hw.
Qed.

Lemma rows_in_range_ts (lo hi : Z) (t : list Event) :
  Forall (row_in_range lo hi) t ->
  Forall (fun x => lo <= x < hi) (ts_of_rows (written_rows t)).
Proof.
  induction 1 as [| e t He _ IH]; [constructor |].
  destruct e; cbn [written_rows]; try exact IH.
  unfold ts_of_rows. cbn [flat_map]. apply Forall_app. split; [exact He | exact IH].
Qed.

Lemma write_response_in_range device_id (lo hi : Z) (response : Response) :
  Forall (fun kv => Forall (fun p => lo <= dp_ts p < hi) (snd kv)) response ->
  all_events (row_in_range lo hi)
    (for_each response
       (fun kv => for_each (snd kv) (write_point (R := R) device_id (fst kv)))).
Proof.
  induction 1 as [| kv response Hkv _ IH]; cbn [for_each]; [apply all_ret |].
  apply all_bind; [| intros _; exact IH].
  induction Hkv as [| dp pts Hdp _ IHp]; cbn [for_each]; [apply all_ret |].
  apply all_bind; [| intros _; exact IHp].
  apply all_bind; [apply all_lift; intros l; exact I | intros r].
  apply all_emit. cbn. constructor; [exact Hdp | constructor].
Qed.

(** One window writes rows inside the window, when the service answers
    inside it. *)
Lemma export_window_in_range device_id keys chunk_limit cs ce :
  windowed_client client ->
  all_events (row_in_range cs ce) (export_window client device_id keys chunk_limit cs ce).
Proof.
  intros Hwin st0. destruct device_id as [id |].
  2:{ rewrite export_window_unresolved. repeat constructor. }
  rewrite export_window_resolved. revert st0.
  set (device_id := Some id).
  apply all_try_except; [| intros _; now apply all_emit].
  apply all_bind_returned.
  - apply all_retry_from; [intros z; exact I | now apply all_call].
  - intros response [st Est].
    destruct (retry_call_run 2 2 (EvGetTimeseries device_id keys cs ce chunk_limit)
                (get_timeseries client device_id keys cs ce chunk_limit) st eq_refl)
      as [_ Hret].
    destruct (Hret response Est) as [s1 [s2 Es]].
    pose proof (Hwin _ _ _ _ _ _ _ _ Es) as Hresp.
    apply all_bind.
    + now apply write_response_in_range.
    + intros _. destruct (_ >? _); [now apply all_emit | apply all_ret].
Qed.

Lemma window_loop_in_range fuel device_id keys chunk_limit (W e start_ts s : Z) :
  windowed_client client ->
  start_ts <= s \/ W <= 0 ->
  all_events (row_in_range start_ts e)
    (window_loop fuel (export_window client device_id keys chunk_limit) W e s).
Proof.
  intros Hwin. revert s. induction fuel as [| fuel IH]; intros s Hs; cbn [window_loop];
    destruct (Z.ltb_spec s e) as [Hlt | Hge]; try apply all_ret.
  - intros st. constructor.
  - apply all_bind.
    + eapply all_events_weaken; [| now apply export_window_in_range].
      intros ev. apply row_in_range_weaken. lia.
    + intros _. apply IH. lia.
Qed.

Lemma export_devices_in_range fuel start_ts end_ts names keys chunk_limit W :
  windowed_client client ->
  all_events (row_in_range start_ts end_ts)
    (export_devices client fuel start_ts end_ts names keys chunk_limit W).
Proof.
  intros Hwin. revert keys. induction names as [| name names IH]; intros keys;
    cbn [export_devices].
  - apply all_ret.
  - apply all_bind; [apply all_get_device_id; intros; exact I | intros id].
    apply all_bind; [now apply all_emit | intros _].
    apply all_bind.
    + destruct (py_not keys); [| apply all_ret].
      now apply all_get_all_keys.
    + intros keys'. apply all_bind.
      * apply window_loop_in_range; [exact Hwin | left; lia].
      * intros _. apply all_bind; [now apply all_emit | intros _; apply IH].
Qed.

(** X7: when the service answers every fetch with points inside the
    window asked for, every record an export writes, for every device and
    key, carries a [ts] inside the requested range [[start_ts, end_ts)]:
    the windows never reach outside it. *)
Theorem export_rows_within_range (fuel : nat) (file_name : string)
    (start_ts end_ts : Z) (device_names : string) (keys : option string)
    (chunk_limit time_limit : Z) (st : R) :
  windowed_client client ->
  Forall (fun t => start_ts <= t < end_ts)
    (ts_of_rows
       (written_rows
          (events_of (export_timeseries client fuel file_name start_ts end_ts device_names
                                        keys chunk_limit time_limit st)))).
Proof.
  intros Hwin.
  destruct (export_timeseries_run client fuel file_name start_ts end_ts device_names keys
              chunk_limit time_limit st) as [_ [closing [Ee Hc]]].
  rewrite Ee. apply rows_in_range_ts.
  constructor; [exact I |]. constructor; [cbn; constructor |].
  apply Forall_app. split; [now apply export_devices_in_range |].
  destruct Hc as [-> | ->]; repeat constructor.
Qed.
End RowsInRange.

Lemma ascending_is_windowed `{PythonLib} {R : Type} (client : Client R) :
  ascending_client client -> windowed_client client.
Proof.
  intros Hasc id keys s e l st response st' E.
  destruct (Hasc _ _ _ _ _ _ _ _ E) as [_ Hall].
  eapply Forall_impl; [| exact Hall]. cbn. tauto.
Qed.

Lemma export_rows_within_range_witness :
  windowed_client Examples.two_keys /\
  ts_of_rows
    (written_rows
       (events_of (export_timeseries Examples.two_keys 1 "out.csv" 1500 3000 "sensor1"
                                     None 1024 60 []))) = [2000] /\
  Forall (fun t => 1500 <= t < 3000)
    (ts_of_rows
       (written_rows
          (events_of (export_timeseries Examples.two_keys 1 "out.csv" 1500 3000 "sensor1"
                                        None 1024 60 [])))).
Proof.
  split; [exact (ascending_is_windowed _ two_keys_ascending) |]. split; [reflexivity |].
  exact (export_rows_within_range Examples.two_keys 1 "out.csv" 1500 3000 "sensor1"
           None 1024 60 [] (ascending_is_windowed _ two_keys_ascending)).
Defined.

(* ===================================================================== *)
(** ** The entry point *)
(* ===================================================================== *)

Section MainFacts.
Context `{PythonLib} {R : Type}.
Variable client : Client R.

(** X8: after a successful login, [main] runs an export only when
    [startTs] and [endTs] are given and not zero and [deviceNames] is
    given and not empty; otherwise it logs one error and returns without
    opening the file or calling the service again.  A start or end of 0
    is refused like a missing one. *)
Theorem main_export_guard (fuel : nat) (args : Args) (input : list CsvRow) (st : R) :
  action args = act_export ->
  fst (login client st) = Ok tt ->
  let go := negb (py_not_int (startTs args) || py_not_int (endTs args)
                  || py_not (deviceNames args)) in
  (go = false ->
   main client fuel args input st
   = mkRun (Returned tt) (snd (login client st)) [EvLogin; EvLog ERROR]) /\
  (go = true ->
   exists start_ts end_ts names,
     startTs args = Some start_ts /\ start_ts <> 0 /\
     endTs args = Some end_ts /\ end_ts <> 0 /\
     deviceNames args = Some names /\ names <> "" /\
     let run := export_timeseries client fuel (fileName args) start_ts end_ts names
                                  (keys_arg args) (chunkLimit args) (timeLimit args)
                                  (snd (login client st)) in
     events_of (main client fuel args input st)
     = (EvLogin :: events_of run ++
        match outcome_of run with
        | Raised ApiException => [EvLog ERROR]
        | _ => []
        end)%list).
Proof.
  intros Hact Hlogin go. unfold main. rewrite Hact. split; intros Hgo.
  - apply negb_false_iff in Hgo. rewrite Hgo.
    unfold try_except, bind, call, log, emit. cbn. rewrite Hlogin. reflexivity.
  - apply negb_true_iff in Hgo. rewrite Hgo.
    apply orb_false_iff in Hgo. destruct Hgo as [Hgo Hd].
    apply orb_false_iff in Hgo. destruct Hgo as [Hs He].
    destruct (startTs args) as [s |]; [| discriminate].
    destruct (endTs args) as [e |]; [| discriminate].
    destruct (deviceNames args) as [names |]; [| discriminate].
    cbn in Hs, He, Hd. exists s, e, names.
    split; [reflexivity |]. split; [now apply Z.eqb_neq |].
    split; [reflexivity |]. split; [now apply Z.eqb_neq |].
    split; [reflexivity |]. split; [now apply String.eqb_neq |].
    cbn [text_of]. cbn zeta.
    set (x := export_timeseries _ _ _ _ _ _ _ _ _ _).
    match goal with |- context [try_except ?b _ _ st] => set (body := b) end.
    assert (Eb : body st = mkRun (outcome_of x) (remote_of x) (EvLogin :: events_of x)).
    { unfold body, bind, call. cbn [outcome_of remote_of events_of].
      rewrite Hlogin. reflexivity. }
    unfold try_except. rewrite Eb. cbn [outcome_of remote_of events_of].
    destruct (outcome_of x) as [[] | e0 |]; cbn [events_of];
      rewrite ?app_nil_r; try reflexivity.
    destruct e0; cbn [isinstance events_of log emit app]; rewrite ?app_nil_r; reflexivity.
Qed.

(** X9: [main] never raises [ApiException]: it is logged and [main]
    returns.  When the login itself fails, nothing else is attempted: no
    file is opened and the service is not called again; an
    [ApiException] of the login ends the run quietly, any other
    exception leaves [main]. *)
Theorem main_login_failure (fuel : nat) (args : Args) (input : list CsvRow) (st : R) :
  outcome_of (main client fuel args input st) <> Raised ApiException /\
  (forall e,
      fst (login client st) = Raise e ->
      events_of (main client fuel args input st)
      = (EvLogin :: if isinstance e cls_ApiException then [EvLog ERROR] else [])%list /\
      outcome_of (main client fuel args input st)
      = if isinstance e cls_ApiException then Returned tt else Raised e).
Proof.
  unfold main. split.
  - match goal with |- context [try_except ?b _ _ st] => set (body := b) end.
    unfold try_except.
    destruct (outcome_of (body st)) as [[] | e |] eqn:E; rewrite ?E; try discriminate.
    destruct e; cbn; rewrite ?E; discriminate.
  - intros e He.
    match goal with |- context [try_except ?b _ _ st] => set (body := b) end.
    assert (Eb : body st = mkRun (Raised e) (snd (login client st)) [EvLogin]).
    { unfold body, bind, call. cbn [outcome_of remote_of events_of].
      rewrite He. reflexivity. }
    unfold try_except. rewrite Eb. cbn [outcome_of remote_of events_of].
    destruct (isinstance e cls_ApiException); split; reflexivity.
Qed.
End MainFacts.

Lemma main_export_guard_witness :
  main Examples.one_device 1
       (mkArgs act_export "out.csv" (Some 0) (Some 60000) (Some "real") None 1024 60) [] []
  = mkRun (Returned tt) [] [EvLogin; EvLog ERROR] /\
  written_rows
    (events_of (main Examples.one_device 1
                  (mkArgs act_export "out.csv" (Some 1) (Some 60000) (Some "real")
                          (Some "temp") 1024 60) [] []))
  = [header; [PStr "id1"; PStr "temp"; PInt 1000; PInt 1; PStr "int"]].
Proof.
  split; [| reflexivity].
  exact (proj1 (main_export_guard Examples.one_device 1
                  (mkArgs act_export "out.csv" (Some 0) (Some 60000) (Some "real")
                          None 1024 60) [] [] eq_refl eq_refl) eq_refl).
Defined.

Lemma main_login_failure_witness :
  events_of (main Examples.down_client 1
               (mkArgs act_import "in.csv" None None None None 1024 60)
               [mkRow "dev1" "temp" "1000" "1" "int"] [])
  = [EvLogin] /\
  outcome_of (main Examples.down_client 1
                (mkArgs act_import "in.csv" None None None None 1024 60)
                [mkRow "dev1" "temp" "1000" "1" "int"] [])
  = Raised ConnectionError.
Proof.
  exact (proj2 (main_login_failure Examples.down_client 1
                  (mkArgs act_import "in.csv" None None None None 1024 60)
                  [mkRow "dev1" "temp" "1000" "1" "int"] []) ConnectionError eq_refl).
Defined.

(* ===================================================================== *)
(** ** Grouping of the imported rows *)
(* ===================================================================== *)

Lemma first_seen_ext (seen seen' l : list string) :
  (forall x, existsb (String.eqb x) seen = existsb (String.eqb x) seen') ->
  first_seen seen l = first_seen seen' l.
Proof.
  revert seen seen'. induction l as [| y l IH]; intros seen seen' Hs; [reflexivity |].
  cbn. rewrite <- (Hs y). destruct (existsb (String.eqb y) seen); [now apply IH |].
  f_equal. apply IH. intros x. cbn. now rewrite Hs.
Qed.

Section Grouping.
Context `{PythonLib} {R : Type}.

Lemma dict_mem_keys (k : string) (d : TelemetryData) :
  dict_mem k d = existsb (String.eqb k) (map fst d).
Proof.
  induction d as [| [k' l] d IH]; [reflexivity |]. cbn.
  now rewrite IH, (String.eqb_sym k' k).
Qed.

Lemma dict_append_keys (k : string) (p : Point) (d : TelemetryData) :
  map fst (dict_append k p d) = map fst d.
Proof.
  induction d as [| [k' l] d IH]; [reflexivity |]. cbn.
  destruct (String.eqb k' k); cbn; [reflexivity | now rewrite IH].
Qed.

Lemma points_of_append (k d0 : string) (p : Point) (d : TelemetryData) :
  dict_mem k d = true ->
  points_of d0 (dict_append k p d)
  = (points_of d0 d ++ if String.eqb k d0 then [p] else [])%list.
Proof.
  induction d as [| [k' l] d IH]; [discriminate |]. cbn [dict_mem dict_append points_of].
  destruct (String.eqb_spec k' k) as [-> | Hne].
  - intros _. cbn [points_of]. destruct (String.eqb k d0); [reflexivity |].
    now rewrite app_nil_r.
  - cbn [orb]. intros Hm. cbn [points_of].
    destruct (String.eqb_spec k' d0) as [-> | Hne'].
    + destruct (String.eqb_spec k d0) as [-> | _]; [congruence | now rewrite app_nil_r].
    + now apply IH.
Qed.

Lemma points_of_new (k d0 : string) (d : TelemetryData) :
  points_of d0 (d ++ [(k, [])])%list = points_of d0 d.
Proof.
  induction d as [| [k' l] d IH]; cbn.
  - now destruct (String.eqb k d0).
  - destruct (String.eqb k' d0); [reflexivity | exact IH].
Qed.

Lemma dict_mem_new (k : string) (d : TelemetryData) :
  dict_mem k (d ++ [(k, [])])%list = true.
Proof.
  induction d as [| [k' l] d IH]; cbn; [now rewrite String.eqb_refl |].
  rewrite IH. apply orb_true_r.
Qed.

(** The reading loop from a dict [td0] on. *)
Lemma read_rows_from (rows : list CsvRow) (td0 td : TelemetryData) (st : R) :
  outcome_of (read_rows (R := R) rows td0 st) = Returned td ->
  map fst td = (map fst td0 ++ first_seen (map fst td0) (map row_deviceId rows))%list /\
  (forall d, points_of d td
             = (points_of d td0 ++ flat_map row_points (rows_of_device d rows))%list) /\
  forallb row_readable rows = true.
Proof.
  revert td0 st. induction rows as [| row rows IH]; intros td0 st; cbn [read_rows].
  - cbn. intros E. inversion E; subst td.
    split; [now rewrite app_nil_r |]. split; [| reflexivity].
    intros d. now rewrite app_nil_r.
  - unfold bind at 1, lift at 1. cbn [outcome_of remote_of events_of fst snd].
    cbn [forallb flat_map map first_seen]. unfold row_readable at 1.
    destruct (int_of_str (row_ts row)) as [ts |] eqn:Ets;
      cbn [of_result]; [| discriminate].
    set (td1 := if dict_mem (row_deviceId row) td0 then td0
                else (td0 ++ [(row_deviceId row, [])])%list).
    assert (Hmem : dict_mem (row_deviceId row) td1 = true).
    { unfold td1. destruct (dict_mem (row_deviceId row) td0) eqn:Em;
        [exact Em | apply dict_mem_new]. }
    assert (Hkeys : (map fst td1 ++ first_seen (map fst td1) (map row_deviceId rows))%list
                    = (map fst td0
                       ++ (if existsb (String.eqb (row_deviceId row)) (map fst td0)
                           then first_seen (map fst td0) (map row_deviceId rows)
                           else row_deviceId row
                                  :: first_seen (row_deviceId row :: map fst td0)
                                       (map row_deviceId rows)))%list).
    { unfold td1. rewrite dict_mem_keys.
      destruct (existsb (String.eqb (row_deviceId row)) (map fst td0)); [reflexivity |].
      rewrite map_app, <- app_assoc. cbn [map fst app]. f_equal. f_equal.
      apply first_seen_ext. intros x. rewrite existsb_app. cbn.
      now rewrite orb_false_r, orb_comm. }
    assert (Hpts : forall d, points_of d td1 = points_of d td0).
    { intros d. unfold td1. destruct (dict_mem (row_deviceId row) td0);
        [reflexivity | apply points_of_new]. }
    unfold bind at 1, lift at 1. cbn [outcome_of remote_of events_of fst snd].
    unfold rows_of_device. cbn [filter]. fold (rows_of_device).
    destruct (decode (row_value row) (row_type row)) as [[v |] | e] eqn:Ed;
      cbn [of_result]; [| | discriminate].
    + intros E. cbn [outcome_of] in E.
      destruct (IH _ _ E) as [IHk [IHp IHr]].
      rewrite dict_append_keys in IHk. rewrite IHk, Hkeys.
      split; [reflexivity |]. split; [| exact IHr].
      intros d. rewrite IHp, points_of_append, Hpts by exact Hmem.
      rewrite <- app_assoc. f_equal.
      fold (rows_of_device d rows).
      destruct (String.eqb (row_deviceId row) d); [| reflexivity].
      cbn [flat_map]. unfold row_points at 2. now rewrite Ets, Ed.
    + unfold bind at 1. cbn [log emit outcome_of remote_of events_of].
      intros E. cbn [outcome_of] in E.
      destruct (IH _ _ E) as [IHk [IHp IHr]].
      rewrite IHk, Hkeys. split; [reflexivity |]. split; [| exact IHr].
      intros d. rewrite IHp, Hpts. f_equal.
      fold (rows_of_device d rows).
      destruct (String.eqb (row_deviceId row) d); [| reflexivity].
      cbn [flat_map]. unfold row_points at 2. now rewrite Ets, Ed.
Qed.
End Grouping.

Section ImportRuns.
Context `{PythonLib} {R : Type}.
Variable client : Client R.

(** A computation that logs and does nothing else. *)
Lemma quiet_bind {A B} (m : M R A) (k : A -> M R B) :
  (forall st, remote_of (m st) = st /\ Forall (fun e => is_log e = true) (events_of (m st))) ->
  (forall a st, remote_of (k a st) = st /\
                Forall (fun e => is_log e = true) (events_of (k a st))) ->
  forall st, remote_of (bind m k st) = st /\
             Forall (fun e => is_log e = true) (events_of (bind m k st)).
Proof.
  intros Hm Hk st. unfold bind. destruct (Hm st) as [Hr He].
  destruct (outcome_of (m st)) as [a | e |]; cbn [remote_of events_of];
    [| split; assumption | split; assumption].
  destruct (Hk a (remote_of (m st))) as [Kr Ke]. split; [congruence |].
  apply Forall_app. split; assumption.
Qed.

Lemma quiet_lift {A} (r : result A * list LogLevel) (st : R) :
  remote_of (lift (R := R) r st) = st /\
  Forall (fun e => is_log e = true) (events_of (lift (R := R) r st)).
Proof.
  unfold lift. cbn [remote_of events_of]. split; [reflexivity |].
  induction (snd r); cbn [map]; constructor; [reflexivity | assumption].
Qed.

(** The reading loop logs and does nothing else. *)
Lemma read_rows_quiet (rows : list CsvRow) (td0 : TelemetryData) (st : R) :
  remote_of (read_rows (R := R) rows td0 st) = st /\
  Forall (fun e => is_log e = true) (events_of (read_rows (R := R) rows td0 st)).
Proof.
  revert td0 st. induction rows as [| row rows IH]; intros td0 st; cbn [read_rows].
  - cbn. split; [reflexivity | constructor].
  - apply quiet_bind; [intros s; apply quiet_lift |]. intros ts s.
    apply quiet_bind; [intros s'; apply quiet_lift |]. intros [v |] s'.
    + apply IH.
    + apply quiet_bind; [| intros _ s''; apply IH].
      intros s''. cbn. split; [reflexivity | repeat constructor].
Qed.

(** The reading loop returns exactly when every row is readable. *)
Lemma read_rows_outcome (rows : list CsvRow) (td0 : TelemetryData) (st : R) :
  if forallb row_readable rows
  then exists td, outcome_of (read_rows (R := R) rows td0 st) = Returned td
  else exists e, outcome_of (read_rows (R := R) rows td0 st) = Raised e.
Proof.
  revert td0 st. induction rows as [| row rows IH]; intros td0 st.
  - cbn. now exists td0.
  - cbn [forallb]. remember (outcome_of (read_rows (row :: rows) td0 st)) as o eqn:Eo.
    cbn [read_rows] in Eo. unfold bind at 1, lift at 1 in Eo.
    cbn [outcome_of remote_of events_of fst snd] in Eo. unfold row_readable at 1.
    destruct (int_of_str (row_ts row)) as [ts | e]; cbn [of_result andb] in *;
      [| subst o; now exists e].
    unfold bind at 1, lift at 1 in Eo.
    cbn [outcome_of remote_of events_of fst snd] in Eo.
    destruct (decode (row_value row) (row_type row)) as [[v |] | e];
      cbn [of_result andb] in *; [| | subst o; now exists e].
    + subst o. apply IH.
    + unfold bind at 1 in Eo. cbn [log emit outcome_of remote_of events_of] in Eo.
      subst o. apply IH.
Qed.

(** X10: when the reading loop of the import returns, the devices of the
    dict it built are those of the rows, each once, in the order of their
    first row (a device all of whose rows were dropped included); and the
    points of each device are those of its rows, one point per row, in
    the order of the file, without the rows whose json value did not
    decode.  Rows of one device with the same [ts] are not merged. *)
Theorem read_rows_groups (rows : list CsvRow) (td : TelemetryData) (st : R) :
  outcome_of (read_rows (R := R) rows [] st) = Returned td ->
  map fst td = first_seen [] (map row_deviceId rows) /\
  (forall d, points_of d td = flat_map row_points (rows_of_device d rows)) /\
  forallb row_readable rows = true /\
  remote_of (read_rows (R := R) rows [] st) = st.
Proof.
  intros E. destruct (read_rows_from rows [] td st E) as [Hk [Hp Hr]].
  split; [exact Hk |]. split; [exact Hp |]. split; [exact Hr |].
  apply read_rows_quiet.
Qed.

(** X11: the import writes nothing unless every row of the file is
    readable: when some row has a [ts] that is no int, or a value that
    does not parse under tag int or double, the run raises before the
    first write, the service is left untouched and only log records were
    emitted; the readable rows are lost with it. *)
Theorem import_reads_all_before_writing (rows : list CsvRow) (log_interval : Z) (st : R) :
  forallb row_readable rows = false ->
  (exists e, outcome_of (import_timeseries client rows log_interval st) = Raised e) /\
  remote_of (import_timeseries client rows log_interval st) = st /\
  Forall (fun e => is_log e = true)
    (events_of (import_timeseries client rows log_interval st)).
Proof.
  intros Hr. pose proof (read_rows_outcome rows [] st) as Ho. rewrite Hr in Ho.
  destruct Ho as [e Ee]. destruct (read_rows_quiet rows [] st) as [Qr Qe].
  unfold import_timeseries. rewrite (bind_raised _ _ _ e Ee).
  cbn [outcome_of remote_of events_of]. split; [now exists e |]. split; assumption.
Qed.
End ImportRuns.

Lemma read_rows_groups_witness :
  let rows := [mkRow "b" "temp" "1000" "1" "int"; mkRow "a" "cfg" "1000" "oops" "json";
               mkRow "b" "hum" "1000" "true" "boolean"; mkRow "b" "temp" "900" "x" "string"] in
  let td := [("b", [(1000, ("temp", PInt 1)); (1000, ("hum", PBool true));
                    (900, ("temp", PStr "x"))]);
             ("a", [])] in
  outcome_of (read_rows (R := unit) rows [] tt) = Returned td /\
  map fst td = first_seen [] (map row_deviceId rows) /\
  points_of "b" td = flat_map row_points (rows_of_device "b" rows).
Proof.
  cbn zeta. split; [reflexivity |].
  destruct (read_rows_groups (H := Python.lib) (R := unit)
              [mkRow "b" "temp" "1000" "1" "int"; mkRow "a" "cfg" "1000" "oops" "json";
               mkRow "b" "hum" "1000" "true" "boolean";
               mkRow "b" "temp" "900" "x" "string"]
              [("b", [(1000, ("temp", PInt 1)); (1000, ("hum", PBool true));
                      (900, ("temp", PStr "x"))]);
               ("a", [])] tt eq_refl)
    as [Hk [Hp _]].
  split; [exact Hk | exact (Hp "b")].
Defined.

Lemma import_reads_all_before_writing_witness :
  forallb row_readable [mkRow "a" "temp" "1000" "1" "int"; mkRow "a" "temp" "10x" "2" "int"]
  = false /\
  remote_of (import_timeseries Examples.one_device
               [mkRow "a" "temp" "1000" "1" "int"; mkRow "a" "temp" "10x" "2" "int"]
               100 []) = [].
Proof.
  split; [reflexivity |].
  exact (proj1 (proj2 (import_reads_all_before_writing Examples.one_device
                         [mkRow "a" "temp" "1000" "1" "int";
                          mkRow "a" "temp" "10x" "2" "int"] 100 [] eq_refl))).
Defined.

(* ===================================================================== *)
(** ** Replay of the imported points *)
(* ===================================================================== *)

Section ImportReplay.
Context `{PythonLib} {R : Type}.
Variable client : Client R.

Lemma filter_attempts (k : nat) (ev : Event) :
  is_save ev = true ->
  filter is_save_or_sleep (attempts k 2 ev) = attempts k 2 ev.
Proof.
  intros Hev. induction k as [| k IH]; cbn [attempts filter]; unfold is_save_or_sleep at 1;
    rewrite Hev; cbn [orb].
  - reflexivity.
  - unfold is_save_or_sleep at 1. cbn [is_save is_sleep orb]. now rewrite IH.
Qed.

Lemma filter_logs (l : list Event) :
  Forall (fun e => is_log e = true) l -> filter is_save_or_sleep l = [].
Proof.
  induction 1 as [| e l He _ IH]; [reflexivity |]. cbn [filter].
  destruct e; try discriminate. exact IH.
Qed.

Lemma tries_app (ks1 ks2 : list nat) (c1 c2 : list Event) :
  List.length ks1 = List.length c1 ->
  tries (ks1 ++ ks2) (c1 ++ c2) = (tries ks1 c1 ++ tries ks2 c2)%list.
Proof.
  revert c1. induction ks1 as [| k ks1 IH]; intros [| c c1] E; try discriminate.
  - reflexivity.
  - cbn [app tries]. rewrite IH by (cbn in E; lia). now rewrite app_assoc.
Qed.

Lemma tries_first_attempts (ks : list nat) (calls : list Event) :
  List.length ks = List.length calls ->
  Forall (eq 0%nat) ks ->
  tries ks calls = calls.
Proof.
  revert calls. induction ks as [| k ks IH]; intros [| c calls] E F; try discriminate.
  - reflexivity.
  - inversion F; subst. cbn [tries attempts app]. f_equal. apply IH; [cbn in E; lia | assumption].
Qed.

(** Lines 158-162: one point is saved, or given up with an error logged;
    neither raises. *)
Lemma save_step (device_id : string) (ts : Z) (key : string) (value : Value) (st : R) :
  let t := try_except (save_telemetry client device_id ts key value ;;; ret true)
                      cls_Exception (fun _ => log ERROR ;;; ret false) in
  exists k b, (k <= 2)%nat /\
    outcome_of (t st) = Returned b /\
    filter is_save_or_sleep (events_of (t st))
    = attempts k 2 (EvSaveTelemetry device_id ts key value) /\
    (accepts_writes client -> k = 0%nat /\ b = true).
Proof.
  cbn zeta. unfold save_telemetry, retry. cbn [Nat.sub].
  set (ev := EvSaveTelemetry device_id ts key value).
  set (f := save_entity_telemetry client device_id ts key value).
  destruct (retry_from_run 2 2 ev f st) as [k [Hk [Hev [[a Ha] | [Hr Hk2]]]]].
  - exists k, true. split; [exact Hk |].
    assert (Eb : (retry_from 2 2 (call ev f) ;;; ret true) st
                 = mkRun (Returned true) (remote_of (retry_from 2 2 (call ev f) st))
                         (attempts k 2 ev ++ [])).
    { rewrite (bind_returned _ _ _ a Ha). cbn [ret outcome_of remote_of events_of].
      now rewrite Hev. }
    rewrite (try_except_returned _ _ _ _ true) by (now rewrite Eb).
    rewrite Eb. cbn [outcome_of events_of]. rewrite app_nil_r.
    split; [reflexivity |]. split; [now apply filter_attempts |].
    intros Hacc. split; [| reflexivity].
    pose proof (retry_from_first_success 2 2 ev f st (snd (f st)) tt) as Hfs.
    assert (Ef : f st = (Ok tt, snd (f st))).
    { specialize (Hacc device_id ts key value st). fold f in Hacc.
      destruct (f st) as [r s']. cbn in *. now subst r. }
    specialize (Hfs Ef). rewrite Hfs in Hev. cbn [events_of] in Hev.
    destruct k; [reflexivity | discriminate].
  - exists k, false. split; [exact Hk |].
    assert (Eb : (retry_from 2 2 (call ev f) ;;; ret true) st
                 = mkRun (Raised RetryError) (remote_of (retry_from 2 2 (call ev f) st))
                         (attempts k 2 ev)).
    { rewrite (bind_raised _ _ _ RetryError Hr). now rewrite Hev. }
    rewrite (try_except_caught _ _ _ _ RetryError);
      [| now rewrite Eb | reflexivity].
    rewrite Eb. cbn [outcome_of events_of remote_of].
    unfold bind, log, emit, ret. cbn [outcome_of events_of remote_of].
    split; [reflexivity |]. rewrite filter_app, filter_attempts by reflexivity.
    cbn [filter is_save_or_sleep is_save is_sleep orb app]. rewrite app_nil_r.
    split; [reflexivity |].
    intros Hacc. exfalso.
    pose proof (retry_from_first_success 2 2 ev f st (snd (f st)) tt) as Hfs.
    assert (Ef : f st = (Ok tt, snd (f st))).
    { specialize (Hacc device_id ts key value st). fold f in Hacc.
      destruct (f st) as [r s']. cbn in *. now subst r. }
    specialize (Hfs Ef). rewrite Hfs in Hr. discriminate.
Qed.

(** Lines 152-166: the replay of one device's points. *)
Lemma save_points_run (log_interval : Z) (device_id : string) (pts : list Point)
    (counter : Z) (st : R) :
  log_interval <> 0 ->
  exists ks c,
    List.length ks = List.length pts /\
    Forall (fun k => (k <= 2)%nat) ks /\
    outcome_of (save_points client log_interval device_id pts counter st) = Returned c /\
    filter is_save_or_sleep
      (events_of (save_points client log_interval device_id pts counter st))
    = tries ks (map (save_event device_id) pts) /\
    (accepts_writes client -> Forall (eq 0%nat) ks).
Proof.
  intros Hli. revert counter st.
  induction pts as [| [ts [key value]] pts IH]; intros counter st.
  - exists [], counter. cbn. repeat split; constructor.
  - cbn [save_points].
    destruct (save_step device_id ts key value st) as [k [b [Hk [Ho [Hev Hacc]]]]].
    cbn zeta in Ho, Hev.
    rewrite (bind_returned _ _ _ b Ho). cbn [outcome_of events_of].
    rewrite filter_app, Hev.
    match goal with
    | |- context [remote_of ?r] => generalize (remote_of r); intros st1
    end.
    assert (Hrest : forall c s, exists ks c',
               List.length ks = List.length pts /\
               Forall (fun k => (k <= 2)%nat) ks /\
               outcome_of (save_points client log_interval device_id pts c s)
               = Returned c' /\
               filter is_save_or_sleep
                 (events_of (save_points client log_interval device_id pts c s))
               = tries ks (map (save_event device_id) pts) /\
               (accepts_writes client -> Forall (eq 0%nat) ks)) by exact IH.
    assert (Hgoal : forall (m : M R Z),
               (exists ks c',
                   List.length ks = List.length pts /\
                   Forall (fun k => (k <= 2)%nat) ks /\
                   outcome_of (m st1) = Returned c' /\
                   filter is_save_or_sleep (events_of (m st1))
                   = tries ks (map (save_event device_id) pts) /\
                   (accepts_writes client -> Forall (eq 0%nat) ks)) ->
               exists ks c',
                 List.length ks = List.length ((ts, (key, value)) :: pts) /\
                 Forall (fun k => (k <= 2)%nat) ks /\
                 outcome_of (m st1) = Returned c' /\
                 (attempts k 2 (EvSaveTelemetry device_id ts key value)
                  ++ filter is_save_or_sleep (events_of (m st1)))%list
                 = tries ks (map (save_event device_id) ((ts, (key, value)) :: pts)) /\
                 (accepts_writes client -> Forall (eq 0%nat) ks)).
    { intros m [ks [c' [Hl [Hf [Hoc [Hevs Ha]]]]]].
      exists (k :: ks), c'. split; [cbn [List.length]; now rewrite Hl |]. split; [now constructor |].
      split; [exact Hoc |]. split.
      - cbn [map tries]. unfold save_event at 1. cbn [fst snd]. now rewrite Hevs.
      - intros Hw. constructor; [symmetry; exact (proj1 (Hacc Hw)) | exact (Ha Hw)]. }
    destruct b.
    + apply Hgoal.
      destruct (log_interval =? 0) eqn:E0; [apply Z.eqb_eq in E0; contradiction |].
      destruct ((counter + 1) mod log_interval =? 0).
      * destruct (Hrest (counter + 1) st1) as [ks [c' [Hl [Hf [Hoc [Hevs Ha]]]]]].
        exists ks, c'. unfold bind at 1 2. cbn [log emit outcome_of remote_of events_of].
        split; [exact Hl |]. split; [exact Hf |]. split; [exact Hoc |].
        split; [| exact Ha]. cbn [app filter]. exact Hevs.
      * destruct (Hrest (counter + 1) st1) as [ks [c' [Hl [Hf [Hoc [Hevs Ha]]]]]].
        exists ks, c'. unfold bind at 1 2. cbn [ret outcome_of remote_of events_of].
        split; [exact Hl |]. split; [exact Hf |]. split; [exact Hoc |].
        split; [| exact Ha]. cbn [app]. exact Hevs.
    + apply Hgoal. apply Hrest.
Qed.

(** Lines 149-168: the replay of every device. *)
Lemma save_devices_run (log_interval : Z) (td : TelemetryData) (st : R) :
  log_interval <> 0 ->
  let m := for_each td (fun entry =>
             counter <- save_points client log_interval (fst entry) (snd entry) 0 ;;
             log INFO) in
  exists ks,
    List.length ks = List.length (save_events td) /\
    Forall (fun k => (k <= 2)%nat) ks /\
    outcome_of (m st) = Returned tt /\
    filter is_save_or_sleep (events_of (m st)) = tries ks (save_events td) /\
    (accepts_writes client -> Forall (eq 0%nat) ks).
Proof.
  intros Hli. cbn zeta. revert st.
  induction td as [| [d pts] td IH]; intros st.
  - exists []. cbn. repeat split; constructor.
  - cbn [for_each fst snd].
    destruct (save_points_run log_interval d pts 0 st Hli)
      as [ks1 [c [Hl1 [Hf1 [Ho1 [He1 Ha1]]]]]].
    set (body := (counter <- save_points client log_interval d pts 0 ;; log INFO)).
    assert (Eb : body st
                 = mkRun (Returned tt)
                     (remote_of (save_points client log_interval d pts 0 st))
                     (events_of (save_points client log_interval d pts 0 st)
                      ++ [EvLog INFO])).
    { unfold body. rewrite (bind_returned _ _ _ c Ho1). reflexivity. }
    rewrite (bind_returned _ _ _ tt) by (now rewrite Eb).
    rewrite Eb. cbn [outcome_of remote_of events_of].
    destruct (IH (remote_of (save_points client log_interval d pts 0 st)))
      as [ks2 [Hl2 [Hf2 [Ho2 [He2 Ha2]]]]].
    exists (ks1 ++ ks2)%list. unfold save_events in *. cbn [flat_map fst snd].
    split; [rewrite !length_app, length_map, Hl1, Hl2; reflexivity |].
    split; [apply Forall_app; now split |].
    split; [exact Ho2 |]. split.
    + rewrite !filter_app, He1, He2. cbn [filter is_save_or_sleep is_save is_sleep orb app].
      rewrite app_nil_r. symmetry. apply tries_app. now rewrite length_map.
    + intros Hw. apply Forall_app. split; [exact (Ha1 Hw) | exact (Ha2 Hw)].
Qed.

(** X12: once every row has been read, the import cannot fail: with a
    non-zero log interval it returns whatever the service answers.  Every
    point of the dict is sent on its own, device by device in the order
    of the dict and point by point in the order of the file, each one to
    three times with a sleep of two seconds between two tries; a point
    given up after the third failure is logged and skipped, and the
    replay goes on with the next point.  When the service accepts every
    write, each point is sent exactly once and nothing sleeps. *)
Theorem import_replays_every_point (rows : list CsvRow) (log_interval : Z)
    (td : TelemetryData) (st : R) :
  log_interval <> 0 ->
  outcome_of (read_rows (R := R) rows [] st) = Returned td ->
  let run := import_timeseries client rows log_interval st in
  outcome_of run = Returned tt /\
  (exists ks,
      List.length ks = List.length (save_events td) /\
      Forall (fun k => (k <= 2)%nat) ks /\
      filter is_save_or_sleep (events_of run) = tries ks (save_events td)) /\
  (accepts_writes client -> filter is_save_or_sleep (events_of run) = save_events td).
Proof.
  intros Hli Hread. cbn zeta. unfold import_timeseries.
  rewrite (bind_returned _ _ _ td Hread). cbn [outcome_of events_of].
  destruct (read_rows_quiet rows [] st) as [Hst Hlogs]. rewrite Hst.
  destruct (save_devices_run log_interval td st Hli) as [ks [Hl [Hf [Ho [He Ha]]]]].
  cbn zeta in Ho, He. rewrite filter_app, (filter_logs _ Hlogs). cbn [app].
  split; [exact Ho |]. split.
  - exists ks. split; [exact Hl |]. split; [exact Hf | exact He].
  - intros Hw. rewrite He. apply tries_first_attempts; [exact Hl | exact (Ha Hw)].
Qed.

(** The replay with a log interval of 0: devices without points are
    passed over, the first point saved ends the run. *)
Lemma save_devices_zero_interval (td : TelemetryData) (ev : Event) (rest : list Event)
    (st : R) :
  save_events td = ev :: rest ->
  accepts_writes client ->
  let m := for_each td (fun entry =>
             counter <- save_points client 0 (fst entry) (snd entry) 0 ;;
             log INFO) in
  outcome_of (m st) = Raised ZeroDivisionError /\
  filter is_save_or_sleep (events_of (m st)) = [ev].
Proof.
  intros Hs Hw. cbn zeta. revert st Hs.
  induction td as [| [d pts] td IH]; intros st Hs; [discriminate |].
  cbn [for_each fst snd]. destruct pts as [| [ts [key value]] pts].
  - unfold bind at 1 2. cbn [save_points ret log emit outcome_of remote_of events_of].
    cbn [app filter is_save_or_sleep is_save is_sleep orb]. apply IH. exact Hs.
  - unfold save_events in Hs. cbn [flat_map map fst snd app] in Hs.
    unfold save_event at 1 in Hs. cbn [fst snd] in Hs. inversion Hs as [[He Hrest]].
    clear Hs. cbn [save_points].
    destruct (save_step d ts key value st) as [k [b [Hk [Ho [Hev Hacc]]]]].
    cbn zeta in Ho, Hev. destruct (Hacc Hw) as [-> ->].
    set (t := try_except (save_telemetry client d ts key value;;; ret true)
                         cls_Exception (fun _ => log ERROR;;; ret false)) in *.
    set (inner := saved <- t ;; _).
    assert (Ei : inner st
                 = mkRun (Raised ZeroDivisionError) (remote_of (t st)) (events_of (t st) ++ [])).
    { unfold inner. rewrite (bind_returned _ _ _ true Ho). reflexivity. }
    assert (Eb : (counter <- inner ;; log INFO) st
                 = mkRun (Raised ZeroDivisionError) (remote_of (t st)) (events_of (t st) ++ [])).
    { rewrite (bind_raised _ _ _ ZeroDivisionError) by (now rewrite Ei). now rewrite Ei. }
    rewrite (bind_raised _ _ _ ZeroDivisionError) by (now rewrite Eb).
    rewrite Eb. cbn [outcome_of events_of]. rewrite app_nil_r, Hev.
    split; reflexivity.
Qed.

(** X13: with a log interval of 0 the import stops at its first
    successful write: the progress test divides by the interval, outside
    the [try] that guards the write, so [ZeroDivisionError] leaves
    [import_timeseries] with one point saved and the others never sent. *)
Theorem zero_log_interval_stops_import (rows : list CsvRow) (td : TelemetryData)
    (ev : Event) (rest : list Event) (st : R) :
  outcome_of (read_rows (R := R) rows [] st) = Returned td ->
  save_events td = ev :: rest ->
  accepts_writes client ->
  let run := import_timeseries client rows 0 st in
  outcome_of run = Raised ZeroDivisionError /\
  filter is_save_or_sleep (events_of run) = [ev].
Proof.
  intros Hread Hs Hw. cbn zeta. unfold import_timeseries.
  rewrite (bind_returned _ _ _ td Hread). cbn [outcome_of events_of].
  destruct (read_rows_quiet rows [] st) as [Hst Hlogs]. rewrite Hst.
  destruct (save_devices_zero_interval td ev rest st Hs Hw) as [Ho He].
  cbn zeta in Ho, He. rewrite filter_app, (filter_logs _ Hlogs). cbn [app].
  split; assumption.
Qed.
End ImportReplay.

Lemma import_replays_every_point_witness :
  let rows := [mkRow "dev1" "temp" "1000" "1" "int"; mkRow "dev1" "temp" "2000" "2" "int"] in
  outcome_of (import_timeseries Examples.flaky_fetch rows 100 []) = Returned tt /\
  filter is_save_or_sleep (events_of (import_timeseries Examples.flaky_fetch rows 100 []))
  = tries [2%nat; 2%nat]
      [EvSaveTelemetry "dev1" 1000 "temp" (PInt 1);
       EvSaveTelemetry "dev1" 2000 "temp" (PInt 2)] /\
  filter is_save_or_sleep (events_of (import_timeseries Examples.one_device rows 100 []))
  = [EvSaveTelemetry "dev1" 1000 "temp" (PInt 1);
     EvSaveTelemetry "dev1" 2000 "temp" (PInt 2)].
Proof.
  cbn zeta. split; [| split].
  - exact (proj1 (import_replays_every_point (H := Python.lib) Examples.flaky_fetch
                    [mkRow "dev1" "temp" "1000" "1" "int";
                     mkRow "dev1" "temp" "2000" "2" "int"] 100
                    [("dev1", [(1000, ("temp", PInt 1)); (2000, ("temp", PInt 2))])] []
                    ltac:(discriminate) eq_refl)).
  - reflexivity.
  - exact (proj2 (proj2 (import_replays_every_point (H := Python.lib) Examples.one_device
                    [mkRow "dev1" "temp" "1000" "1" "int";
                     mkRow "dev1" "temp" "2000" "2" "int"] 100
                    [("dev1", [(1000, ("temp", PInt 1)); (2000, ("temp", PInt 2))])] []
                    ltac:(discriminate) eq_refl))
                 (fun _ _ _ _ _ => eq_refl)).
Defined.

Lemma zero_log_interval_stops_import_witness :
  let rows := [mkRow "dev0" "cfg" "500" "oops" "json";
               mkRow "dev1" "temp" "1000" "1" "int"; mkRow "dev1" "temp" "2000" "2" "int"] in
  outcome_of (import_timeseries Examples.one_device rows 0 []) = Raised ZeroDivisionError /\
  remote_of (import_timeseries Examples.one_device rows 0 [])
  = [("dev1", 1000, "temp", PInt 1)].
Proof.
  cbn zeta. split; [| reflexivity].
  exact (proj1 (zero_log_interval_stops_import (H := Python.lib) Examples.one_device
                  [mkRow "dev0" "cfg" "500" "oops" "json";
                   mkRow "dev1" "temp" "1000" "1" "int";
                   mkRow "dev1" "temp" "2000" "2" "int"]
                  [("dev0", []);
                   ("dev1", [(1000, ("temp", PInt 1)); (2000, ("temp", PInt 2))])]
                  (EvSaveTelemetry "dev1" 1000 "temp" (PInt 1))
                  [EvSaveTelemetry "dev1" 2000 "temp" (PInt 2)] []
                  eq_refl eq_refl (fun _ _ _ _ _ => eq_refl))).
Defined.

(* ===================================================================== *)
(** ** Round trip of the scalar values *)
(* ===================================================================== *)

Lemma universal_newlines_id (s : string) :
  contains "013" s = false -> universal_newlines s = s.
Proof.
  induction s as [| c s IH]; [reflexivity |]. cbn [contains universal_newlines].
  destruct (Ascii.eqb c "013"); [discriminate |]. cbn [orb].
  intros Hs. now rewrite IH.
Qed.

Lemma no_space_no_carriage_return (s : string) :
  (forall c, In c (list_ascii_of_string s) -> Python.is_space c = false) ->
  contains "013" s = false.
Proof.
  induction s as [| c s IH]; [reflexivity |]. cbn [contains list_ascii_of_string].
  intros Hs. rewrite IH by (intros x Hx; apply Hs; now right).
  destruct (Ascii.eqb_spec c "013") as [-> | _]; [| reflexivity].
  now specialize (Hs "013"%char (or_introl eq_refl)).
Qed.

(** The decimal of an int holds no carriage return. *)
Lemma str_of_int_no_carriage_return (z : Z) : contains "013" (str_of_int z) = false.
Proof.
  unfold str_of_int. destruct z as [| p | p]; [reflexivity | |];
    cbn [Z.to_int NilZero.string_of_int]; unfold NilZero.string_of_uint;
    destruct (Pos.to_uint p) eqn:Ep; try reflexivity; rewrite <- ?Ep;
    apply no_space_no_carriage_return.
  all: try apply string_of_uint_no_space.
  all: intros c [<- | Hin]; [reflexivity | now apply (string_of_uint_no_space _ _ Hin)].
Qed.

(** A cell of a scalar value holds a carriage return only if the text
    the service sent holds one. *)
Lemma scalar_cell_no_carriage_return (t : string) (v : Value) (tag : TypeTag) :
  fst (infer_type_and_convert t) = Ok (v, tag) ->
  scalar_tag tag = true ->
  contains "013" t = false ->
  contains "013" (csv_cell v) = false.
Proof.
  intros E Hs Ht.
  unfold infer_type_and_convert, infer_body, try_return in E.
  destruct (String.eqb (lower t) "true"); [inversion E; reflexivity |].
  destruct (String.eqb (lower t) "false"); [inversion E; reflexivity |].
  destruct (int_of_str t) as [z | e1] eqn:Ei.
  { inversion E; subst. apply str_of_int_no_carriage_return. }
  rewrite (py_int_raises_ValueError _ _ Ei) in E.
  destruct (float_of_str t) as [f | e2] eqn:Ef.
  { inversion E; subst. discriminate. }
  rewrite (py_float_raises_ValueError _ _ Ef) in E.
  destruct (json_loads (replace "'" "034" t)) as [j | e3].
  { inversion E; subst. discriminate. }
  destruct (isinstance e3 cls_JSONDecodeError); [inversion E; subst; exact Ht |].
  rewrite isinstance_Exception in E. inversion E; subst. exact Ht.
Qed.

(** A carriage return in a string value does not survive the file: the
    import reads it as a line feed. *)
Example carriage_return_read_as_line_feed :
  let value := String "a" (String "013" "b") in
  let dp := mkPoint 1000 value in
  inferred (dp_value dp) = (PStr value, string_tag) /\
  outcome_of (read_rows (R := unit)
                (dict_reader [map csv_cell header;
                              map csv_cell (data_row (Some "id1") "temp" dp)]) [] tt)
  = Returned [("id1", [(1000, ("temp", PStr (String "a" (String "010" "b"))))])].
Proof. cbn zeta. split; reflexivity. Qed.



(* ===================================================================== *)
(** ** Direction of the two actions *)
(* ===================================================================== *)

Section Directions.
Context `{PythonLib} {R : Type}.
Variable client : Client R.

Lemma all_export_devices (P : Event -> Prop) fuel start_ts end_ts names keys limit W :
  (forall l, P (EvLog l)) -> (forall z, P (EvSleep z)) -> (forall r, P (EvWriteRow r)) ->
  (forall n, P (EvGetTenantDevice n)) ->
  (forall id, P (EvGetTimeseriesKeys id)) ->
  (forall id text a b, P (EvGetTimeseries id text a b limit)) ->
  all_events P (export_devices client fuel start_ts end_ts names keys limit W).
Proof.
  intros Hl Hs Hr Hd Hk Hf. revert keys.
  induction names as [| name names IH]; intros keys; cbn [export_devices].
  - apply all_ret.
  - apply all_bind; [apply all_get_device_id; [exact Hl | apply Hd] | intros id].
    apply all_bind; [apply all_emit, Hl | intros _].
    apply all_bind.
    { destruct (py_not keys); [| apply all_ret]. apply all_get_all_keys, Hk. }
    intros text. apply all_bind; [| intros _].
    { apply all_window_loop. intros a b. apply all_export_window; auto. }
    apply all_bind; [apply all_emit, Hl | intros _; apply IH].
Qed.

Lemma all_save_points (P : Event -> Prop) log_interval device_id pts counter :
  (forall l, P (EvLog l)) -> (forall z, P (EvSleep z)) ->
  (forall d ts key v, P (EvSaveTelemetry d ts key v)) ->
  all_events P (save_points client log_interval device_id pts counter).
Proof.
  intros Hl Hs Hw. revert counter.
  induction pts as [| [ts [key value]] pts IH]; intros counter; cbn [save_points].
  - apply all_ret.
  - apply all_bind.
    + apply all_try_except.
      * apply all_bind; [| intros; apply all_ret].
        apply all_retry_from; [exact Hs | apply all_call, Hw].
      * intros _. apply all_bind; [apply all_emit, Hl | intros; apply all_ret].
    + intros [|]; [| apply IH].
      apply all_bind; [| intros _; apply IH].
      destruct (log_interval =? 0); [apply all_raise |].
      destruct (_ =? 0); [apply all_emit, Hl | apply all_ret].
Qed.

(** X15: the two actions keep to their direction.  An export never
    writes to the service and never logs in: it logs, sleeps, resolves
    names, discovers keys, fetches, and opens, writes and closes the one
    file it was given.  An import never reads from the service and
    writes no file: its only calls are the writes of points. *)
Theorem export_reads_import_writes :
  (forall fuel file_name start_ts end_ts device_names keys chunk_limit time_limit st,
      Forall (fun e => export_event file_name e = true)
        (events_of (export_timeseries client fuel file_name start_ts end_ts device_names
                                      keys chunk_limit time_limit st))) /\
  (forall rows log_interval st,
      Forall (fun e => import_event e = true)
        (events_of (import_timeseries client rows log_interval st))).
Proof.
  split.
  - intros fuel file_name start_ts end_ts device_names keys chunk_limit time_limit st.
    unfold export_timeseries, with_open_w. cbn [events_of].
    constructor; [cbn; apply String.eqb_refl |].
    apply Forall_app. split.
    + apply all_bind; [apply all_emit; reflexivity | intros _].
      apply all_export_devices; reflexivity.
    + destruct (outcome_of _); repeat constructor; cbn; apply String.eqb_refl.
  - intros rows log_interval st. unfold import_timeseries.
    apply all_bind.
    + intros s. destruct (read_rows_quiet rows [] s) as [_ Hq].
      revert Hq. apply Forall_impl. intros e He. unfold import_event. now rewrite He.
    + intros td. apply all_for_each. intros [d pts]. cbn [fst snd].
      apply all_bind; [| intros _; apply all_emit; reflexivity].
      apply all_save_points; reflexivity.
Qed.
End Directions.
